(** * Validated record schemas

    The repository declares its data contracts with the zod schema library:
    [RecordSchema] in record.ts, the base contract of every record, and in
    every other module schemas obtained from it with [.extend] or declared
    directly with [z.object].  A declaration builds a tree of zod schema
    objects; validating an input is zod's [safeParse], which runs the
    [_parse] method of each schema object of the tree.

    This development embeds
    - the inputs of validation and the schema objects, as datatypes;
    - the synchronous parser of zod 3, for the schema classes the
      repository uses, as a function over those datatypes;
    - every schema declaration of the repository, as a definition; a
      [new Date()] in a declaration is evaluated when its module is loaded,
      and the declaration takes the clock reading it captures as a
      parameter;
    and proves the properties of the record contract: what validation
    accepts and reports, extension, idempotence, and the part the clock
    plays; then, for every exported schema, what each kind of field
    accepts, reports and returns. *)

From Stdlib Require Import String Ascii List ZArith Bool Lia Permutation.
From Stdlib Require Import Floats.PrimFloat.
Import ListNotations.
Local Open Scope string_scope.
Local Open Scope list_scope.

(** ** Input values *)

(** The time value of a JavaScript [Date]: milliseconds since the epoch. *)
Definition Time := Z.

#[local] Unset Elimination Schemes.

(** The inputs of validation are decoded documents: primitives, dates,
    arrays and plain objects.  A [Date] holds a time value, or NaN when it
    is an invalid date ([None]).  An object lists its own properties in
    enumeration order.  A string is its sequence of code units. *)
Inductive value : Type :=
| VUndefined
| VNull
| VBoolean (b : bool)
| VNumber (x : float)
| VString (s : string)
| VDate (time : option Time)
| VArray (items : list value)
| VObject (props : list (string * value)).

#[local] Set Elimination Schemes.

(** [new Date()]: a date holding the clock reading [now] taken when the
    expression is evaluated. *)
Definition new_Date (now : Time) : value := VDate (Some now).

(** Property read [data[key]]: [undefined] when there is no such property. *)
Fixpoint get (props : list (string * value)) (key : string) : value :=
  match props with
  | [] => VUndefined
  | (k, v) :: rest => if String.eqb k key then v else get rest key
  end.

(** [key in data]. *)
Fixpoint has {A : Type} (props : list (string * A)) (key : string) : bool :=
  match props with
  | [] => false
  | (k, _) :: rest => String.eqb k key || has rest key
  end.

(** Property write [obj[key] = v]: an existing property keeps its place, a
    new one is added last. *)
Fixpoint set {A : Type} (props : list (string * A)) (key : string) (v : A)
  : list (string * A) :=
  match props with
  | [] => [(key, v)]
  | (k, w) :: rest =>
      if String.eqb k key then (k, v) :: rest else (k, w) :: set rest key v
  end.

Definition is_undefined (v : value) : bool :=
  match v with VUndefined => true | _ => false end.

(** Property read [v[key]] on a value. *)
Definition field (v : value) (key : string) : value :=
  match v with VObject props => get props key | _ => VUndefined end.

(** ** zod: parsed types, issues, parse results *)

Module ZodParsedType.

Inductive t : Set :=
| string | nan | number | boolean | date | undefined | null | array | object.

End ZodParsedType.

(** [getParsedType] of zod's helpers/util.ts, on the values above. *)
Definition getParsedType (data : value) : ZodParsedType.t :=
  match data with
  | VUndefined => ZodParsedType.undefined
  | VNull => ZodParsedType.null
  | VBoolean _ => ZodParsedType.boolean
  | VNumber x => if PrimFloat.is_nan x then ZodParsedType.nan else ZodParsedType.number
  | VString _ => ZodParsedType.string
  | VDate _ => ZodParsedType.date
  | VArray _ => ZodParsedType.array
  | VObject _ => ZodParsedType.object
  end.

(** A step of an issue path: a property name or an array index. *)
Inductive PathSeg : Set :=
| Key (k : string)
| Index (i : nat).

Definition Path := list PathSeg.

(** What an [invalid_type] issue expected: a parsed type, or for an enum the
    list of its values. *)
Inductive Expected : Set :=
| ExpectedType (t : ZodParsedType.t)
| ExpectedOneOf (values : list string).

Inductive StringValidation : Set := validation_uuid | validation_url.

(** The [type] and bound of a [too_small] or [too_big] issue. *)
Inductive Sized : Set :=
| sized_string (bound : nat)
| sized_array (bound : nat)
| sized_number (bound : float).

#[local] Unset Elimination Schemes.

(** zod's issues: the code with its details, the path of the offending
    value, and the message given in the schema ([None]: the message comes
    from zod's default error map). *)
Inductive ZodIssueCode : Type :=
| invalid_type (expected : Expected) (received : ZodParsedType.t)
| invalid_literal (expected : string) (received : value)
| invalid_enum_value (options : list string) (received : string)
| invalid_string (validation : StringValidation)
| invalid_date
| too_small (what : Sized) (inclusive exact : bool)
| too_big (what : Sized) (inclusive exact : bool)
| invalid_union (unionErrors : list (list ZodIssue))
with ZodIssue : Type :=
| Issue (code : ZodIssueCode) (path : Path) (message : option string).

#[local] Set Elimination Schemes.

Definition issue_path (i : ZodIssue) : Path :=
  match i with Issue _ p _ => p end.

Definition issue_code (i : ZodIssue) : ZodIssueCode :=
  match i with Issue c _ _ => c end.

(** [ParseStatus]: the status a parser accumulates while it checks. *)
Inductive ParseStatus : Set := valid | dirty | aborted.

(** [ParseStatus.dirty()]. *)
Definition mark_dirty (s : ParseStatus) : ParseStatus :=
  match s with valid => dirty | _ => s end.

(** [SyncParseReturnType]: [INVALID] is [{status: "aborted"}]. *)
Inductive ParseReturnType : Type :=
| INVALID
| DIRTY (v : value)
| OK (v : value).

Definition status_of (r : ParseReturnType) : ParseStatus :=
  match r with INVALID => aborted | DIRTY _ => dirty | OK _ => valid end.

(** [{status: status.value, value}]. *)
Definition ret (s : ParseStatus) (v : value) : ParseReturnType :=
  match s with valid => OK v | dirty => DIRTY v | aborted => INVALID end.

Definition isValid (r : ParseReturnType) : bool :=
  match r with OK _ => true | _ => false end.

(** A parser's outcome: its return value and the issues it added to the
    context, in the order it added them. *)
Definition Parsed : Type := ParseReturnType * list ZodIssue.

(** ** zod: schema objects *)

(** The checks of a [ZodString], as [.min], [.max], [.uuid] and [.url]
    record them. *)
Inductive ZodStringCheck : Set :=
| check_min (value : nat) (message : option string)
| check_max (value : nat) (message : option string)
| check_uuid (message : option string)
| check_url (message : option string).

(** The check of a [ZodNumber] that [.min] records. *)
Inductive ZodNumberCheck : Set :=
| check_number_min (value : float) (inclusive : bool) (message : option string).

#[local] Unset Elimination Schemes.

(** The schema classes the repository uses, each with the fields of its
    [_def] that the parser reads.  A [ZodArray] of the repository has at most
    a [minLength]; a [ZodDefault] holds its default as a thunk, which zod calls
    at parse time: the thunk's argument is the clock it could read then.
    [.describe(text)] only records documentation on the schema object, which
    the parser never reads; it is not represented. *)
Inductive ZodType : Type :=
| ZodString (checks : list ZodStringCheck)
| ZodNumber (checks : list ZodNumberCheck)
| ZodBoolean
| ZodDate
| ZodAny
| ZodLiteral (value : string)
| ZodEnum (values : list string)
| ZodArray (type : ZodType) (minLength : option (nat * option string))
| ZodTuple (items : list ZodType)
| ZodRecord (keyType valueType : ZodType)
| ZodUnion (options : list ZodType)
| ZodObject (shape : list (string * ZodType))
| ZodOptional (innerType : ZodType)
| ZodDefault (innerType : ZodType) (defaultValue : Time -> value).

#[local] Set Elimination Schemes.

(** An object schema's shape: its fields in declaration order. *)
Definition Shape := list (string * ZodType).

Definition keys {A : Type} (props : list (string * A)) : list string :=
  map fst props.

Fixpoint lookup {A : Type} (props : list (string * A)) (key : string) : option A :=
  match props with
  | [] => None
  | (k, v) :: rest => if String.eqb k key then Some v else lookup rest key
  end.

(** ** zod: the schema methods the declarations call *)

(** [.default(def)] with a value for [def]: zod wraps the value, already
    evaluated, in a thunk [() => def]. *)
Definition default (innerType : ZodType) (def : value) : ZodType :=
  ZodDefault innerType (fun _ => def).

(** The object spread [{...a, ...b}]: the properties of [a], then each
    property of [b] written over them. *)
Definition spread {A : Type} (a b : list (string * A)) : list (string * A) :=
  fold_left (fun acc entry => set acc (fst entry) (snd entry)) b a.

(** [ZodObject.extend]: an object schema whose shape is
    [{...this._def.shape(), ...augmentation}]. *)
Definition extend (schema : ZodType) (augmentation : Shape) : ZodType :=
  match schema with
  | ZodObject shape => ZodObject (spread shape augmentation)
  | _ => schema
  end.

(** The shape of an object schema. *)
Definition shape_of (schema : ZodType) : Shape :=
  match schema with ZodObject shape => shape | _ => [] end.

(** ** zod: the synchronous parser *)

Section Parser.

(** The two string formats the schemas check are decided inside zod:
    [uuidRegex.test] for [.uuid()] and the success of [new URL] for
    [.url()].  The parser takes them as given. *)
Variable isUuid : string -> bool.
Variable isUrl : string -> bool.

(** [ZodString._parse] after the type test: every check is run, in the
    order it was declared; a failing check adds its issue and marks the
    status dirty. *)
Fixpoint run_string_checks (checks : list ZodStringCheck) (path : Path)
    (data : string) (status : ParseStatus) : ParseStatus * list ZodIssue :=
  match checks with
  | [] => (status, [])
  | check :: rest =>
      let failed :=
        match check with
        | check_min n m =>
            if Nat.ltb (String.length data) n
            then Some (Issue (too_small (sized_string n) true false) path m)
            else None
        | check_max n m =>
            if Nat.ltb n (String.length data)
            then Some (Issue (too_big (sized_string n) true false) path m)
            else None
        | check_uuid m =>
            if isUuid data then None
            else Some (Issue (invalid_string validation_uuid) path m)
        | check_url m =>
            if isUrl data then None
            else Some (Issue (invalid_string validation_url) path m)
        end in
      match failed with
      | Some i =>
          let (st, issues) := run_string_checks rest path data (mark_dirty status) in
          (st, i :: issues)
      | None => run_string_checks rest path data status
      end
  end.

(** [ZodNumber._parse] after the type test. *)
Fixpoint run_number_checks (checks : list ZodNumberCheck) (path : Path)
    (data : float) (status : ParseStatus) : ParseStatus * list ZodIssue :=
  match checks with
  | [] => (status, [])
  | check_number_min bound inclusive m :: rest =>
      let tooSmall :=
        if inclusive then PrimFloat.ltb data bound else PrimFloat.leb data bound in
      if tooSmall then
        let (st, issues) := run_number_checks rest path data (mark_dirty status) in
        (st, Issue (too_small (sized_number bound) inclusive false) path m :: issues)
      else run_number_checks rest path data status
  end.

(** [[...ctx.data].map((item, i) => type._parseSync(...))]: every item is
    parsed, at the array's path followed by its index. *)
Fixpoint parse_items (parse : Path -> value -> Parsed) (path : Path)
    (items : list value) (i : nat) : list Parsed :=
  match items with
  | [] => []
  | item :: rest =>
      parse (path ++ [Index i]) item :: parse_items parse path rest (S i)
  end.

(** [ParseStatus.mergeArray]: the first aborted item aborts the array. *)
Fixpoint mergeArray (status : ParseStatus) (results : list ParseReturnType)
    (arrayValue : list value) : ParseReturnType :=
  match results with
  | [] => ret status (VArray arrayValue)
  | INVALID :: _ => INVALID
  | DIRTY v :: rest => mergeArray (mark_dirty status) rest (arrayValue ++ [v])
  | OK v :: rest => mergeArray status rest (arrayValue ++ [v])
  end.

(** An entry of the [pairs] that object and record parsers hand to
    [mergeObjectSync]. *)
Record Pair : Type := mkPair {
  pair_key : ParseReturnType;
  pair_value : ParseReturnType;
  alwaysSet : bool
}.

(** The property name a parsed key denotes. *)
Definition propertyKey (v : value) : string :=
  match v with VString s => s | _ => "undefined" end.

Definition result_value (r : ParseReturnType) : value :=
  match r with INVALID => VUndefined | DIRTY v => v | OK v => v end.

(** [ParseStatus.mergeObjectSync]: the first aborted key or value aborts
    the object; a property is written when its value is not [undefined]
    or the key was present in the input. *)
Fixpoint mergeObjectSync (status : ParseStatus) (pairs : list Pair)
    (finalObject : list (string * value)) : ParseReturnType :=
  match pairs with
  | [] => ret status (VObject finalObject)
  | p :: rest =>
      match status_of (pair_key p), status_of (pair_value p) with
      | aborted, _ => INVALID
      | _, aborted => INVALID
      | ks, vs =>
          let status := match ks with dirty => mark_dirty status | _ => status end in
          let status := match vs with dirty => mark_dirty status | _ => status end in
          let name := propertyKey (result_value (pair_key p)) in
          let v := result_value (pair_value p) in
          let finalObject :=
            if negb (String.eqb name "__proto__") && (negb (is_undefined v) || alwaysSet p)
            then set finalObject name v else finalObject in
          mergeObjectSync status rest finalObject
      end
  end.

(** The outcome of [ZodUnion._parse] from the outcomes of its options, each
    parsed in a context of its own: the first valid result; failing that
    the first dirty result with its issues; failing that one
    [invalid_union] issue holding the issues of every option. *)
Fixpoint first_valid (results : list Parsed) : option ParseReturnType :=
  match results with
  | [] => None
  | (OK v, _) :: _ => Some (OK v)
  | _ :: rest => first_valid rest
  end.

Fixpoint first_dirty (results : list Parsed) : option Parsed :=
  match results with
  | [] => None
  | (DIRTY v, issues) :: _ => Some (DIRTY v, issues)
  | _ :: rest => first_dirty rest
  end.

Definition nonempty {A : Type} (l : list A) : bool :=
  match l with [] => false | _ => true end.

Definition merge_union (path : Path) (results : list Parsed) : Parsed :=
  match first_valid results with
  | Some r => (r, [])
  | None =>
      match first_dirty results with
      | Some d => d
      | None =>
          (INVALID,
           [Issue (invalid_union (filter nonempty (map snd results))) path None])
      end
  end.

(** The loop of [ZodTuple._parse] over the items, each parsed by the schema
    at its position; items without a schema are left out. *)
Fixpoint parse_tuple_items (f : ZodType -> Path -> value -> Parsed) (path : Path)
    (schemas : list ZodType) (items : list value) (i : nat) : list Parsed :=
  match schemas, items with
  | schema :: schemas', item :: items' =>
      f schema (path ++ [Index i]) item :: parse_tuple_items f path schemas' items' (S i)
  | _, _ => []
  end.

(** [_parse]: one case per schema class, following the [_parse] method of
    the class.  [now] is the clock at the time of the call; [path] is the
    path of [data] in the input. *)
Fixpoint _parse (schema : ZodType) (now : Time) (path : Path) (data : value)
    {struct schema} : Parsed :=
  let invalid expected :=
    (INVALID, [Issue (invalid_type expected (getParsedType data)) path None]) in
  match schema with
  | ZodString checks =>
      match data with
      | VString s =>
          let (status, issues) := run_string_checks checks path s valid in
          (ret status data, issues)
      | _ => invalid (ExpectedType ZodParsedType.string)
      end
  | ZodNumber checks =>
      match getParsedType data, data with
      | ZodParsedType.number, VNumber x =>
          let (status, issues) := run_number_checks checks path x valid in
          (ret status data, issues)
      | _, _ => invalid (ExpectedType ZodParsedType.number)
      end
  | ZodBoolean =>
      match data with
      | VBoolean _ => (OK data, [])
      | _ => invalid (ExpectedType ZodParsedType.boolean)
      end
  | ZodDate =>
      match data with
      | VDate (Some t) => (OK (VDate (Some t)), [])
      | VDate None => (INVALID, [Issue invalid_date path None])
      | _ => invalid (ExpectedType ZodParsedType.date)
      end
  | ZodAny => (OK data, [])
  | ZodLiteral lit =>
      match data with
      | VString s =>
          if String.eqb s lit then (OK data, [])
          else (INVALID, [Issue (invalid_literal lit data) path None])
      | _ => (INVALID, [Issue (invalid_literal lit data) path None])
      end
  | ZodEnum values =>
      match data with
      | VString s =>
          if existsb (String.eqb s) values then (OK data, [])
          else (INVALID, [Issue (invalid_enum_value values s) path None])
      | _ => invalid (ExpectedOneOf values)
      end
  | ZodArray type minLength =>
      match data with
      | VArray items =>
          let (status, own) :=
            match minLength with
            | Some (n, m) =>
                if Nat.ltb (List.length items) n
                then (dirty, [Issue (too_small (sized_array n) true false) path m])
                else (valid, [])
            | None => (valid, [])
            end in
          let results :=
            parse_items (fun p item => _parse type now p item) path items 0 in
          (mergeArray status (map fst results) [],
           own ++ concat (map snd results))
      | _ => invalid (ExpectedType ZodParsedType.array)
      end
  | ZodTuple schemas =>
      match data with
      | VArray items =>
          let n := List.length schemas in
          if Nat.ltb (List.length items) n then
            (INVALID, [Issue (too_small (sized_array n) true false) path None])
          else
            let (status, own) :=
              if Nat.ltb n (List.length items)
              then (dirty, [Issue (too_big (sized_array n) true false) path None])
              else (valid, []) in
            let results :=
              parse_tuple_items (fun schema p item => _parse schema now p item)
                                path schemas items 0 in
            (mergeArray status (map fst results) [],
             own ++ concat (map snd results))
      | _ => invalid (ExpectedType ZodParsedType.array)
      end
  | ZodRecord keyType valueType =>
      match data with
      | VObject props =>
          let results :=
            map (fun entry : string * value =>
                   let key := fst entry in
                   let k := _parse keyType now (path ++ [Key key]) (VString key) in
                   let v := _parse valueType now (path ++ [Key key]) (get props key) in
                   (mkPair (fst k) (fst v) (has props key), snd k ++ snd v))
                props in
          (mergeObjectSync valid (map fst results) [],
           concat (map snd results))
      | _ => invalid (ExpectedType ZodParsedType.object)
      end
  | ZodUnion options =>
      merge_union path (map (fun option => _parse option now path data) options)
  | ZodObject shape =>
      match data with
      | VObject props =>
          let results :=
            map (fun field : string * ZodType =>
                   let key := fst field in
                   let v := _parse (snd field) now (path ++ [Key key]) (get props key) in
                   (mkPair (OK (VString key)) (fst v) (has props key), snd v))
                shape in
          (mergeObjectSync valid (map fst results) [],
           concat (map snd results))
      | _ => invalid (ExpectedType ZodParsedType.object)
      end
  | ZodOptional innerType =>
      match data with
      | VUndefined => (OK VUndefined, [])
      | _ => _parse innerType now path data
      end
  | ZodDefault innerType defaultValue =>
      match data with
      | VUndefined => _parse innerType now path (defaultValue now)
      | _ => _parse innerType now path data
      end
  end.

(** What [ZodObject._parse] computes for the field [key] of its shape on the
    input [props]: the outcome of the field's schema on [props[key]], at the
    object's path followed by [key]. *)
Definition parse_field (schema : ZodType) (now : Time) (path : Path)
    (props : list (string * value)) (key : string) : Parsed :=
  _parse schema now (path ++ [Key key]) (get props key).

(** The outcome of [safeParse]: the validated data, or a [ZodError] with
    the issues.  [handleResult] throws a plain [Error] when a parser
    reports failure without having added an issue. *)
Inductive SafeParseReturnType : Type :=
| SafeParseSuccess (data : value)
| SafeParseError (issues : list ZodIssue)
| Thrown (message : string).

(** [ZodType.safeParse]: parse at the empty path, then [handleResult]. *)
Definition safeParse (schema : ZodType) (now : Time) (data : value)
  : SafeParseReturnType :=
  let (result, issues) := _parse schema now [] data in
  match result with
  | OK v => SafeParseSuccess v
  | _ =>
      match issues with
      | [] => Thrown "Validation failed but no issues detected."
      | _ => SafeParseError issues
      end
  end.

End Parser.

(** ** The schema declarations of the repository *)

(** Each module of the repository is a module here, its declarations in the
    order of the file.  Two files of the repository are record.ts: the named
    one and an unnamed copy (part 004) whose declaration differs in its
    descriptions only; [Record] stands for both. *)

(** record.ts *)
Module Record.

Section Declarations.

(** The clock reading of the [new Date()] in the declaration, taken when the
    module is evaluated. *)
Variable t_Record_createdAt : Time.

(** The base schema for all records: a unique identifier, the creation
    timestamp and the optional update timestamp. *)
Definition RecordSchema : ZodType :=
  ZodObject [
    ("id", ZodString [check_uuid None]);
    ("createdAt", default ZodDate (new_Date t_Record_createdAt));
    ("updatedAt", ZodOptional ZodDate)].

(** The exported schemas of the module, by name. *)
Definition exported : list (string * ZodType) :=
  [("RecordSchema", RecordSchema)].

End Declarations.

End Record.

(** productivity.ts *)
Module Productivity.

Section Declarations.

(** The clock reading held by the default of [createdAt] in the imported
    [RecordSchema]. *)
Variable t_Record_createdAt : Time.

Abbreviation RecordSchema := (Record.RecordSchema t_Record_createdAt).

(** Schema for a TaskList, representing an ordered or categorized list of
    tasks. *)
Definition TaskListSchema : ZodType :=
  extend RecordSchema [
    ("title", ZodString [check_min 1 (Some "Task list title is required.")]);
    ("description", ZodOptional (ZodString []));
    ("tasks", ZodOptional (ZodArray (ZodString [check_uuid None]) None));
    ("projectId", ZodOptional (ZodString [check_uuid None]))].

(** Schema for a Milestone, representing a significant event or objective in a
    project. *)
Definition MilestoneSchema : ZodType :=
  extend RecordSchema [
    ("title", ZodString [check_min 1 (Some "Milestone title is required.")]);
    ("description", ZodOptional (ZodString []));
    ("dueDate", ZodDate);
    ("status", ZodEnum ["not-started"; "in-progress"; "completed"]);
    ("projectId", ZodOptional (ZodString [check_uuid None]))].

(** Schema for a Subtask, representing a smaller task within a larger parent
    task. *)
Definition SubtaskSchema : ZodType :=
  extend RecordSchema [
    ("title", ZodString [check_min 1 (Some "Subtask title is required.")]);
    ("description", ZodOptional (ZodString []));
    ("status", ZodEnum ["to-do"; "in-progress"; "completed"]);
    ("dueDate", ZodOptional ZodDate);
    ("taskId", ZodString [check_uuid None]);
    ("priority", default (ZodEnum ["low"; "medium"; "high"]) (VString "medium"))].

(** Schema for a Comment, representing feedback or discussion related to a
    task or project. *)
Definition CommentSchema : ZodType :=
  extend RecordSchema [
    ("content", ZodString [check_min 1 (Some "Comment content is required.")]);
    ("author", ZodString [check_min 1 (Some "Author is required.")]);
    ("taskId", ZodOptional (ZodString [check_uuid None]));
    ("projectId", ZodOptional (ZodString [check_uuid None]))].

(** Schema for an Attachment, representing a file or link associated with a
    task or project. *)
Definition AttachmentSchema : ZodType :=
  extend RecordSchema [
    ("fileName", ZodString [check_min 1 (Some "File name is required.")]);
    ("fileType", ZodString [check_min 1 (Some "File type is required.")]);
    ("url", ZodString [check_url (Some "Must be a valid URL.")]);
    ("taskId", ZodOptional (ZodString [check_uuid None]));
    ("projectId", ZodOptional (ZodString [check_uuid None]))].

(** Schema for a TimeLog, representing time spent on a task or project. *)
Definition TimeLogSchema : ZodType :=
  extend RecordSchema [
    ("taskId", ZodString [check_uuid None]);
    ("projectId", ZodOptional (ZodString [check_uuid None]));
    ("duration", ZodNumber [check_number_min 1%float true (Some "Duration must be at least 1 minute.")]);
    ("description", ZodOptional (ZodString []));
    ("logDate", ZodDate)].

(** Schema for a Tag, representing a label used for categorization. *)
Definition TagSchema : ZodType :=
  extend RecordSchema [
    ("name", ZodString [check_min 1 (Some "Tag name is required.")]);
    ("description", ZodOptional (ZodString []))].

(** Schema for an Event, representing a scheduled occurrence related to a task
    or project. *)
Definition EventSchema : ZodType :=
  extend RecordSchema [
    ("title", ZodString [check_min 1 (Some "Event title is required.")]);
    ("description", ZodOptional (ZodString []));
    ("eventDate", ZodDate);
    ("taskId", ZodOptional (ZodString [check_uuid None]));
    ("projectId", ZodOptional (ZodString [check_uuid None]))].

(** Schema for a Reminder, representing a scheduled alert related to a task or
    project. *)
Definition ReminderSchema : ZodType :=
  ZodObject [
    ("reminderDate", ZodDate);
    ("message", ZodOptional (ZodString []))].

(** Schema for a Task, representing a unit of work that needs to be completed. *)
Definition TaskSchema : ZodType :=
  extend RecordSchema [
    ("title", ZodString [check_min 1 (Some "Task title is required.")]);
    ("description", ZodOptional (ZodString []));
    ("status", ZodEnum ["to-do"; "in-progress"; "completed"]);
    ("dueDate", ZodOptional ZodDate);
    ("priority", default (ZodEnum ["low"; "medium"; "high"]) (VString "medium"));
    ("tags", ZodOptional (ZodArray (ZodString [check_uuid None]) None));
    ("projectId", ZodOptional (ZodString [check_uuid None]));
    ("reminders", ZodOptional (ZodArray ReminderSchema None));
    ("dependencies", ZodOptional (ZodArray (ZodString [check_uuid None]) None))].

(** Schema for a Project, representing a collection of tasks and objectives. *)
Definition ProjectSchema : ZodType :=
  extend RecordSchema [
    ("title", ZodString [check_min 1 (Some "Project title is required.")]);
    ("description", ZodOptional (ZodString []));
    ("status", ZodEnum ["not-started"; "in-progress"; "completed"]);
    ("startDate", ZodOptional ZodDate);
    ("dueDate", ZodOptional ZodDate);
    ("tasks", ZodOptional (ZodArray (ZodString [check_uuid None]) None));
    ("tags", ZodOptional (ZodArray (ZodString [check_uuid None]) None));
    ("reminders", ZodOptional (ZodArray ReminderSchema None))].

(** The exported schemas of the module, by name. *)
Definition exported : list (string * ZodType) :=
  [("TaskListSchema", TaskListSchema);
   ("MilestoneSchema", MilestoneSchema);
   ("SubtaskSchema", SubtaskSchema);
   ("CommentSchema", CommentSchema);
   ("AttachmentSchema", AttachmentSchema);
   ("TimeLogSchema", TimeLogSchema);
   ("TagSchema", TagSchema);
   ("EventSchema", EventSchema);
   ("ReminderSchema", ReminderSchema);
   ("TaskSchema", TaskSchema);
   ("ProjectSchema", ProjectSchema)].

(** The exported schemas declared with [RecordSchema.extend]. *)
Definition entities : list (string * ZodType) :=
  [("TaskListSchema", TaskListSchema);
   ("MilestoneSchema", MilestoneSchema);
   ("SubtaskSchema", SubtaskSchema);
   ("CommentSchema", CommentSchema);
   ("AttachmentSchema", AttachmentSchema);
   ("TimeLogSchema", TimeLogSchema);
   ("TagSchema", TagSchema);
   ("EventSchema", EventSchema);
   ("TaskSchema", TaskSchema);
   ("ProjectSchema", ProjectSchema)].

End Declarations.

End Productivity.

(** forms.ts *)
Module Forms.

Section Declarations.

(** The clock reading held by the default of [createdAt] in the imported
    [RecordSchema]. *)
Variable t_Record_createdAt : Time.

Abbreviation RecordSchema := (Record.RecordSchema t_Record_createdAt).

(** Schema for FormField, representing an individual form field component. *)
Definition FormFieldSchema : ZodType :=
  ZodObject [
    ("fieldName", ZodString [check_min 1 (Some "Field name is required.")]);
    ("label", ZodOptional (ZodString []));
    ("type", ZodEnum ["text"; "textarea"; "number"; "select"; "checkbox"; "radio"; "date"; "password"; "relationship"; "custom"]);
    ("placeholder", ZodOptional (ZodString []));
    ("options", ZodOptional (ZodArray (ZodString []) None));
    ("defaultValue", ZodOptional ZodAny);
    ("required", default ZodBoolean (VBoolean false));
    ("validations", ZodOptional (ZodObject [
        ("minLength", ZodOptional (ZodNumber []));
        ("maxLength", ZodOptional (ZodNumber []));
        ("minValue", ZodOptional (ZodNumber []));
        ("maxValue", ZodOptional (ZodNumber []));
        ("pattern", ZodOptional (ZodString []))]));
    ("errorMessage", ZodOptional (ZodString []));
    ("relationship", ZodOptional (ZodObject [
        ("relationshipType", ZodEnum ["oneToOne"; "oneToMany"; "manyToMany"]);
        ("relatedRecordType", ZodString [check_min 1 (Some "Related record type is required.")]);
        ("relatedRecords", ZodOptional (ZodArray (ZodString [check_uuid None]) None));
        ("allowAddNew", default ZodBoolean (VBoolean false))]));
    ("customComponent", ZodOptional (ZodObject [
        ("componentName", ZodString [check_min 1 (Some "Custom component name is required.")]);
        ("props", ZodOptional (ZodRecord (ZodString []) ZodAny))]))].

(** Schema for FormLayoutConfig, providing granular layout control for
    individual fields or sections. *)
Definition FormLayoutConfigSchema : ZodType :=
  ZodObject [
    ("columns", default (ZodNumber [check_number_min 1%float true None]) (VNumber 12%float));
    ("order", ZodOptional (ZodNumber []));
    ("align", ZodOptional (ZodEnum ["left"; "center"; "right"]));
    ("padding", ZodOptional (ZodObject [
        ("top", ZodOptional (ZodNumber []));
        ("bottom", ZodOptional (ZodNumber []));
        ("left", ZodOptional (ZodNumber []));
        ("right", ZodOptional (ZodNumber []))]));
    ("margin", ZodOptional (ZodObject [
        ("top", ZodOptional (ZodNumber []));
        ("bottom", ZodOptional (ZodNumber []));
        ("left", ZodOptional (ZodNumber []));
        ("right", ZodOptional (ZodNumber []))]))].

(** Schema for FormSection, representing a section of the form to group
    related fields. *)
Definition FormSectionSchema : ZodType :=
  ZodObject [
    ("sectionTitle", ZodOptional (ZodString []));
    ("description", ZodOptional (ZodString []));
    ("fields", ZodArray FormFieldSchema None);
    ("layoutConfig", ZodOptional FormLayoutConfigSchema);
    ("conditionalLogic", ZodOptional (ZodObject [
        ("dependsOnField", ZodOptional (ZodString []));
        ("condition", ZodOptional (ZodEnum ["equals"; "notEquals"; "greaterThan"; "lessThan"]));
        ("value", ZodOptional ZodAny);
        ("hidden", default ZodBoolean (VBoolean false))]))].

(** Schema for FormLayout, representing the structure and layout of the form
    (rows, columns, sections). *)
Definition FormLayoutSchema : ZodType :=
  ZodObject [
    ("layoutType", ZodEnum ["singleColumn"; "twoColumn"; "grid"; "custom"]);
    ("sections", ZodArray FormSectionSchema None);
    ("layoutConfig", ZodOptional FormLayoutConfigSchema)].

(** Schema for FormActions, representing actions that can be triggered by the
    form (e.g., submit, reset). *)
Definition FormActionsSchema : ZodType :=
  ZodObject [
    ("submitAction", ZodString [check_min 1 (Some "Submit action is required.")]);
    ("resetAction", ZodOptional (ZodString []));
    ("redirectOnSubmit", ZodOptional (ZodString [check_url None]))].

(** Schema for FormDependencies, representing dependencies between fields. *)
Definition FormDependenciesSchema : ZodType :=
  ZodObject [
    ("dependentField", ZodString [check_min 1 (Some "Dependent field name is required.")]);
    ("dependsOnField", ZodString [check_min 1 (Some "Depends on field name is required.")]);
    ("condition", ZodEnum ["equals"; "notEquals"; "greaterThan"; "lessThan"]);
    ("dependentFieldBehavior", ZodEnum ["show"; "hide"; "enable"; "disable"]);
    ("dependentOptions", ZodOptional (ZodArray (ZodString []) None))].

(** Schema for a RepeatingFieldGroup, representing a group of fields that can
    dynamically repeat (e.g., adding multiple addresses). *)
Definition RepeatingFieldGroupSchema : ZodType :=
  ZodObject [
    ("groupName", ZodString [check_min 1 (Some "Group name is required.")]);
    ("fields", ZodArray FormFieldSchema None);
    ("minRepeats", ZodOptional (ZodNumber []));
    ("maxRepeats", ZodOptional (ZodNumber []));
    ("addButtonLabel", ZodOptional (ZodString []));
    ("removeButtonLabel", ZodOptional (ZodString []));
    ("layoutConfig", ZodOptional FormLayoutConfigSchema)].

(** Schema for FormRestraints, representing constraints and limits for the
    form fields. *)
Definition FormRestraintsSchema : ZodType :=
  ZodObject [
    ("maxFields", ZodOptional (ZodNumber []));
    ("maxFieldLength", ZodOptional (ZodNumber []));
    ("allowedFieldTypes", ZodOptional (ZodArray (ZodEnum ["text"; "textarea"; "number"; "select"; "checkbox"; "radio"; "date"; "password"; "custom"]) None));
    ("allowedOptionsCount", ZodOptional (ZodNumber []))].

(** Schema for Form, representing the entire form structure, including layout,
    fields, validations, restraints, and relationships. *)
Definition FormSchema : ZodType :=
  extend RecordSchema [
    ("formName", ZodString [check_min 1 (Some "Form name is required.")]);
    ("description", ZodOptional (ZodString []));
    ("fields", ZodArray FormFieldSchema None);
    ("layout", FormLayoutSchema);
    ("actions", FormActionsSchema);
    ("dependencies", ZodOptional (ZodArray FormDependenciesSchema None));
    ("repeatingGroups", ZodOptional (ZodArray RepeatingFieldGroupSchema None));
    ("restraints", ZodOptional FormRestraintsSchema)].

(** The exported schemas of the module, by name. *)
Definition exported : list (string * ZodType) :=
  [("FormFieldSchema", FormFieldSchema);
   ("FormLayoutConfigSchema", FormLayoutConfigSchema);
   ("FormSectionSchema", FormSectionSchema);
   ("FormLayoutSchema", FormLayoutSchema);
   ("FormActionsSchema", FormActionsSchema);
   ("FormDependenciesSchema", FormDependenciesSchema);
   ("RepeatingFieldGroupSchema", RepeatingFieldGroupSchema);
   ("FormRestraintsSchema", FormRestraintsSchema);
   ("FormSchema", FormSchema)].

(** The exported schemas declared with [RecordSchema.extend]. *)
Definition entities : list (string * ZodType) :=
  [("FormSchema", FormSchema)].

End Declarations.

End Forms.

(** The messaging schemas (unnamed part 000). *)
Module Messaging.

Section Declarations.

(** The clock reading held by the default of [createdAt] in the imported
    [RecordSchema]. *)
Variable t_Record_createdAt : Time.

Abbreviation RecordSchema := (Record.RecordSchema t_Record_createdAt).

(** The clock readings of the [new Date()] expressions of the module, each
    taken when its declaration is evaluated. *)
Variable t_Message_sentAt : Time.
Variable t_Notification_sentAt : Time.
Variable t_Reaction_createdAt : Time.
Variable t_TypingIndicator_startedAt : Time.

(** Schema for a Message, representing a communication sent from one user to
    another. *)
Definition MessageSchema : ZodType :=
  extend RecordSchema [
    ("senderId", ZodString [check_uuid None]);
    ("receiverId", ZodString [check_uuid None]);
    ("content", ZodString [check_min 1 (Some "Message content is required.")]);
    ("sentAt", default ZodDate (new_Date t_Message_sentAt));
    ("readAt", ZodOptional ZodDate);
    ("conversationId", ZodOptional (ZodString [check_uuid None]))].

(** Schema for a Conversation, representing a thread of messages between
    multiple users. *)
Definition ConversationSchema : ZodType :=
  extend RecordSchema [
    ("participants", ZodArray (ZodString [check_uuid None]) (Some (2%nat, None)));
    ("lastMessageAt", ZodOptional ZodDate);
    ("messages", ZodOptional (ZodArray (ZodString [check_uuid None]) None))].

(** Schema for a Notification, representing an alert or message sent to a
    user. *)
Definition NotificationSchema : ZodType :=
  extend RecordSchema [
    ("userId", ZodString [check_uuid None]);
    ("title", ZodString [check_min 1 (Some "Notification title is required.")]);
    ("content", ZodOptional (ZodString []));
    ("type", default (ZodEnum ["info"; "warning"; "error"]) (VString "info"));
    ("sentAt", default ZodDate (new_Date t_Notification_sentAt));
    ("readAt", ZodOptional ZodDate);
    ("actionUrl", ZodOptional (ZodString [check_url None]))].

(** Schema for a Channel, representing a group or topic-based communication
    space. *)
Definition ChannelSchema : ZodType :=
  extend RecordSchema [
    ("name", ZodString [check_min 1 (Some "Channel name is required.")]);
    ("description", ZodOptional (ZodString []));
    ("participants", ZodOptional (ZodArray (ZodString [check_uuid None]) None));
    ("isPrivate", default ZodBoolean (VBoolean false));
    ("messages", ZodOptional (ZodArray (ZodString [check_uuid None]) None))].

(** Schema for a Reaction, representing a user's reaction (e.g., emoji) to a
    message. *)
Definition ReactionSchema : ZodType :=
  extend RecordSchema [
    ("messageId", ZodString [check_uuid None]);
    ("userId", ZodString [check_uuid None]);
    ("reactionType", ZodString [check_min 1 None]);
    ("createdAt", default ZodDate (new_Date t_Reaction_createdAt))].

(** Schema for a Thread, representing a nested discussion within a message. *)
Definition ThreadSchema : ZodType :=
  extend RecordSchema [
    ("parentMessageId", ZodString [check_uuid None]);
    ("messages", ZodArray (ZodString [check_uuid None]) None)].

(** Schema for a Mention, representing a user mentioned in a message. *)
Definition MentionSchema : ZodType :=
  extend RecordSchema [
    ("messageId", ZodString [check_uuid None]);
    ("mentionedUserId", ZodString [check_uuid None]);
    ("mentionedByUserId", ZodString [check_uuid None])].

(** Schema for a TypingIndicator, representing when a user is typing in a
    conversation or channel. *)
Definition TypingIndicatorSchema : ZodType :=
  extend RecordSchema [
    ("conversationId", ZodOptional (ZodString [check_uuid None]));
    ("channelId", ZodOptional (ZodString [check_uuid None]));
    ("userId", ZodString [check_uuid None]);
    ("startedAt", default ZodDate (new_Date t_TypingIndicator_startedAt));
    ("endedAt", ZodOptional ZodDate)].

(** The exported schemas of the module, by name. *)
Definition exported : list (string * ZodType) :=
  [("MessageSchema", MessageSchema);
   ("ConversationSchema", ConversationSchema);
   ("NotificationSchema", NotificationSchema);
   ("ChannelSchema", ChannelSchema);
   ("ReactionSchema", ReactionSchema);
   ("ThreadSchema", ThreadSchema);
   ("MentionSchema", MentionSchema);
   ("TypingIndicatorSchema", TypingIndicatorSchema)].

(** The exported schemas declared with [RecordSchema.extend]. *)
Definition entities : list (string * ZodType) :=
  [("MessageSchema", MessageSchema);
   ("ConversationSchema", ConversationSchema);
   ("NotificationSchema", NotificationSchema);
   ("ChannelSchema", ChannelSchema);
   ("ReactionSchema", ReactionSchema);
   ("ThreadSchema", ThreadSchema);
   ("MentionSchema", MentionSchema);
   ("TypingIndicatorSchema", TypingIndicatorSchema)].

End Declarations.

End Messaging.

(** The study schemas (unnamed part 001). *)
Module Learning.

Section Declarations.

(** The clock reading held by the default of [createdAt] in the imported
    [RecordSchema]. *)
Variable t_Record_createdAt : Time.

Abbreviation RecordSchema := (Record.RecordSchema t_Record_createdAt).

(** Schema for a FlashCard, a study tool that presents information in two
    parts: the front and the back, which could represent various types of
    content. *)
Definition FlashCardSchema : ZodType :=
  extend RecordSchema [
    ("topicId", ZodString [check_uuid None]);
    ("frontContent", ZodString [check_min 1 (Some "Front content cannot be empty.")]);
    ("backContent", ZodString [check_min 1 (Some "Back content cannot be empty.")]);
    ("difficulty", default (ZodEnum ["easy"; "medium"; "hard"]) (VString "medium"));
    ("tags", ZodOptional (ZodArray (ZodString []) None))].

(** Schema for a Topic, representing a subject or category that organizes
    learning material. *)
Definition TopicSchema : ZodType :=
  extend RecordSchema [
    ("title", ZodString [check_min 1 (Some "Title is required.")]);
    ("description", ZodOptional (ZodString []))].

(** Schema for a Note, representing text content that a user creates while
    studying a topic. *)
Definition NoteSchema : ZodType :=
  extend RecordSchema [
    ("topicId", ZodString [check_uuid None]);
    ("content", ZodString [check_min 1 (Some "Content cannot be empty.")]);
    ("tags", ZodOptional (ZodArray (ZodString []) None))].

(** Schema for a DefinitionList, representing a collection of terms and their
    corresponding definitions. *)
Definition DefinitionEntrySchema : ZodType :=
  ZodObject [
    ("term", ZodString [check_min 1 (Some "Term is required.")]);
    ("definition", ZodString [check_min 1 (Some "Definition is required.")])].

Definition DefinitionListSchema : ZodType :=
  extend RecordSchema [
    ("topicId", ZodString [check_uuid None]);
    ("definitions", ZodArray DefinitionEntrySchema (Some (1%nat, Some "At least one definition is required.")))].

(** A structured section within a cheatsheet that contains various types of
    content. *)
Definition CheatsheetSectionSchema : ZodType :=
  ZodObject [
    ("title", ZodString [check_min 1 (Some "Section title is required.")]);
    ("content", ZodUnion [
      ZodObject [
        ("type", ZodLiteral "text");
        ("value", ZodString [check_min 1 (Some "Text content is required.")])];
      ZodObject [
        ("type", ZodLiteral "list");
        ("items", ZodArray (ZodString [check_min 1 (Some "List item cannot be empty.")]) None)];
      ZodObject [
        ("type", ZodLiteral "formula");
        ("expression", ZodString [check_min 1 (Some "Formula expression is required.")])];
      ZodObject [
        ("type", ZodLiteral "table");
        ("headers", ZodArray (ZodString [check_min 1 (Some "Table header is required.")]) None);
        ("rows", ZodArray (ZodArray (ZodString [check_min 1 None]) (Some (1%nat, None))) None)]])].

Definition CheatsheetSchema : ZodType :=
  extend RecordSchema [
    ("topicId", ZodString [check_uuid None]);
    ("title", ZodString [check_min 1 (Some "Title is required.")]);
    ("sections", ZodArray CheatsheetSectionSchema (Some (1%nat, Some "At least one section is required.")));
    ("tags", ZodOptional (ZodArray (ZodString []) None))].

(** Schema for a Mindmap, a visual representation of ideas or concepts
    connected by nodes and branches. *)
Definition MindmapNodeSchema : ZodType :=
  ZodObject [
    ("id", ZodString [check_uuid None]);
    ("content", ZodString [check_min 1 (Some "Content is required.")]);
    ("parentId", ZodOptional (ZodString [check_uuid None]));
    ("children", ZodOptional (ZodArray (ZodString [check_uuid None]) None))].

Definition MindmapSchema : ZodType :=
  extend RecordSchema [
    ("topicId", ZodString [check_uuid None]);
    ("title", ZodString [check_min 1 (Some "Title is required.")]);
    ("nodes", ZodArray MindmapNodeSchema (Some (1%nat, Some "At least one node is required.")))].

(** Schema for a Diagram, a graphical representation of concepts using shapes,
    lines, and text. *)
Definition DiagramSchema : ZodType :=
  extend RecordSchema [
    ("topicId", ZodString [check_uuid None]);
    ("title", ZodString [check_min 1 (Some "Title is required.")]);
    ("description", ZodOptional (ZodString []));
    ("elements", ZodArray (ZodObject [
        ("id", ZodString [check_uuid None]);
        ("type", ZodEnum ["shape"; "line"; "text"]);
        ("content", ZodOptional (ZodString []));
        ("coordinates", ZodTuple [ZodNumber []; ZodNumber []]);
        ("size", ZodOptional (ZodNumber []))]) (Some (1%nat, Some "At least one element is required.")))].

(** Schema for a Bookmark, a saved reference to specific content such as a URL
    or document. *)
Definition BookmarkSchema : ZodType :=
  extend RecordSchema [
    ("title", ZodString [check_min 1 (Some "Title is required.")]);
    ("url", ZodOptional (ZodString [check_url (Some "Must be a valid URL.")]));
    ("page", ZodOptional (ZodNumber []));
    ("notes", ZodOptional (ZodString []));
    ("topicId", ZodOptional (ZodString [check_uuid None]))].

(** Schema for a Study Plan, representing goals and tasks organized for
    learning. *)
Definition StudyPlanSchema : ZodType :=
  extend RecordSchema [
    ("title", ZodString [check_min 1 (Some "Title is required.")]);
    ("goals", ZodArray (ZodString [check_min 1 (Some "Goal cannot be empty.")]) (Some (1%nat, None)));
    ("topics", ZodOptional (ZodArray (ZodString [check_uuid None]) None));
    ("startDate", ZodOptional ZodDate);
    ("endDate", ZodOptional ZodDate);
    ("isCompleted", default ZodBoolean (VBoolean false))].

(** Schema for a Study Session, representing a session spent on learning or
    practicing a topic. *)
Definition StudySessionSchema : ZodType :=
  extend RecordSchema [
    ("studyPlanId", ZodOptional (ZodString [check_uuid None]));
    ("topicId", ZodString [check_uuid None]);
    ("duration", ZodNumber [check_number_min 1%float true (Some "Duration must be at least 1 minute.")]);
    ("date", ZodDate);
    ("notes", ZodOptional (ZodString []))].

(** The exported schemas of the module, by name. *)
Definition exported : list (string * ZodType) :=
  [("FlashCardSchema", FlashCardSchema);
   ("TopicSchema", TopicSchema);
   ("NoteSchema", NoteSchema);
   ("DefinitionEntrySchema", DefinitionEntrySchema);
   ("DefinitionListSchema", DefinitionListSchema);
   ("CheatsheetSectionSchema", CheatsheetSectionSchema);
   ("CheatsheetSchema", CheatsheetSchema);
   ("MindmapNodeSchema", MindmapNodeSchema);
   ("MindmapSchema", MindmapSchema);
   ("DiagramSchema", DiagramSchema);
   ("BookmarkSchema", BookmarkSchema);
   ("StudyPlanSchema", StudyPlanSchema);
   ("StudySessionSchema", StudySessionSchema)].

(** The exported schemas declared with [RecordSchema.extend]. *)
Definition entities : list (string * ZodType) :=
  [("FlashCardSchema", FlashCardSchema);
   ("TopicSchema", TopicSchema);
   ("NoteSchema", NoteSchema);
   ("DefinitionListSchema", DefinitionListSchema);
   ("CheatsheetSchema", CheatsheetSchema);
   ("MindmapSchema", MindmapSchema);
   ("DiagramSchema", DiagramSchema);
   ("BookmarkSchema", BookmarkSchema);
   ("StudyPlanSchema", StudyPlanSchema);
   ("StudySessionSchema", StudySessionSchema)].

End Declarations.

End Learning.

(** The file schemas (unnamed part 002). *)
Module Files.

Section Declarations.

(** The clock reading held by the default of [createdAt] in the imported
    [RecordSchema]. *)
Variable t_Record_createdAt : Time.

Abbreviation RecordSchema := (Record.RecordSchema t_Record_createdAt).

(** The clock readings of the [new Date()] expressions of the module, each
    taken when its declaration is evaluated. *)
Variable t_FileVersion_createdAt : Time.
Variable t_FileHistory_timestamp : Time.
Variable t_UserActivity_timestamp : Time.
Variable t_FileComment_createdAt : Time.
Variable t_EventNotification_createdAt : Time.
Variable t_DownloadRequest_requestedAt : Time.
Variable t_AuditLog_timestamp : Time.
Variable t_FileMetadata_createdAt : Time.
Variable t_Quota_lastUpdated : Time.

(** Schema for a File, representing a document or media file. *)
Definition FileSchema : ZodType :=
  extend RecordSchema [
    ("fileName", ZodString [check_min 1 (Some "File name is required.")]);
    ("fileType", ZodString [check_min 1 (Some "File type is required.")]);
    ("fileSize", ZodNumber []);
    ("fileUrl", ZodString [check_url (Some "Must be a valid URL.")]);
    ("description", ZodOptional (ZodString []));
    ("tags", ZodOptional (ZodArray (ZodString []) None));
    ("version", default (ZodString []) (VString "v1.0"));
    ("isPublic", default ZodBoolean (VBoolean false));
    ("accessManagement", ZodObject [
      ("accessType", default (ZodEnum ["public"; "private"; "restricted"]) (VString "private"));
      ("users", ZodOptional (ZodArray (ZodString [check_uuid None]) None));
      ("groups", ZodOptional (ZodArray (ZodString [check_uuid None]) None));
      ("allowedRegions", ZodOptional (ZodArray (ZodString []) None));
      ("allowedIPs", ZodOptional (ZodArray (ZodString []) None));
      ("accessTime", ZodOptional (ZodObject [
          ("startTime", ZodOptional ZodDate);
          ("endTime", ZodOptional ZodDate)]));
      ("maxAccesses", ZodOptional (ZodNumber []));
      ("passcode", ZodOptional (ZodString []))])].

(** Schema for a FileCategory, representing a category for organizing files. *)
Definition FileCategorySchema : ZodType :=
  extend RecordSchema [
    ("name", ZodString [check_min 1 (Some "Category name is required.")]);
    ("description", ZodOptional (ZodString []));
    ("parentCategoryId", ZodOptional (ZodString [check_uuid None]))].

(** Schema for FileVersion, representing a version of a file. *)
Definition FileVersionSchema : ZodType :=
  extend RecordSchema [
    ("fileId", ZodString [check_uuid None]);
    ("version", ZodString [check_min 1 (Some "Version number is required.")]);
    ("changeLog", ZodOptional (ZodString []));
    ("fileUrl", ZodString [check_url (Some "Must be a valid URL.")]);
    ("createdAt", default ZodDate (new_Date t_FileVersion_createdAt))].

(** Schema for FileHistory, representing the history of actions performed on a
    file. *)
Definition FileHistorySchema : ZodType :=
  extend RecordSchema [
    ("fileId", ZodString [check_uuid None]);
    ("action", ZodEnum ["created"; "modified"; "viewed"; "deleted"; "restored"; "downloaded"]);
    ("performedBy", ZodString [check_uuid None]);
    ("timestamp", default ZodDate (new_Date t_FileHistory_timestamp))].

(** Schema for UserActivity, representing user activity related to files. *)
Definition UserActivitySchema : ZodType :=
  extend RecordSchema [
    ("userId", ZodString [check_uuid None]);
    ("fileId", ZodString [check_uuid None]);
    ("action", ZodEnum ["viewed"; "downloaded"; "commented"; "shared"]);
    ("timestamp", default ZodDate (new_Date t_UserActivity_timestamp))].

(** Schema for FileComment, representing comments made on a file. *)
Definition FileCommentSchema : ZodType :=
  extend RecordSchema [
    ("fileId", ZodString [check_uuid None]);
    ("authorId", ZodString [check_uuid None]);
    ("comment", ZodString [check_min 1 (Some "Comment text is required.")]);
    ("createdAt", default ZodDate (new_Date t_FileComment_createdAt))].

(** Schema for EventNotification, representing notifications related to file
    events. *)
Definition EventNotificationSchema : ZodType :=
  extend RecordSchema [
    ("fileId", ZodString [check_uuid None]);
    ("eventType", ZodEnum ["uploaded"; "updated"; "shared"; "commented"; "accessed"]);
    ("recipientId", ZodString [check_uuid None]);
    ("message", ZodOptional (ZodString []));
    ("createdAt", default ZodDate (new_Date t_EventNotification_createdAt))].

(** Schema for a Folder, representing a hierarchical structure to organize
    files. *)
Definition FolderSchema : ZodType :=
  extend RecordSchema [
    ("name", ZodString [check_min 1 (Some "Folder name is required.")]);
    ("parentFolderId", ZodOptional (ZodString [check_uuid None]));
    ("description", ZodOptional (ZodString []));
    ("accessManagement", ZodObject [
      ("accessType", default (ZodEnum ["public"; "private"; "restricted"]) (VString "private"));
      ("users", ZodOptional (ZodArray (ZodString [check_uuid None]) None));
      ("groups", ZodOptional (ZodArray (ZodString [check_uuid None]) None))])].

(** Schema for a SharedLink, representing a shareable link for a file with
    configurable access settings. *)
Definition SharedLinkSchema : ZodType :=
  extend RecordSchema [
    ("fileId", ZodString [check_uuid None]);
    ("url", ZodString [check_url (Some "Must be a valid URL.")]);
    ("expiresAt", ZodOptional ZodDate);
    ("passcode", ZodOptional (ZodString []));
    ("maxAccesses", ZodOptional (ZodNumber []));
    ("allowedIPs", ZodOptional (ZodArray (ZodString []) None))].

(** Schema for a DownloadRequest, representing a user-initiated request to
    download a file. *)
Definition DownloadRequestSchema : ZodType :=
  extend RecordSchema [
    ("fileId", ZodString [check_uuid None]);
    ("requestedBy", ZodString [check_uuid None]);
    ("status", ZodEnum ["pending"; "approved"; "rejected"; "completed"]);
    ("requestedAt", default ZodDate (new_Date t_DownloadRequest_requestedAt));
    ("reviewedBy", ZodOptional (ZodString [check_uuid None]));
    ("reviewedAt", ZodOptional ZodDate)].

(** Schema for an AuditLog, capturing all activities and security events
    related to file sharing. *)
Definition AuditLogSchema : ZodType :=
  extend RecordSchema [
    ("eventType", ZodEnum ["created"; "updated"; "deleted"; "accessed"; "shared"; "downloaded"; "viewed"; "failed"]);
    ("fileId", ZodOptional (ZodString [check_uuid None]));
    ("userId", ZodOptional (ZodString [check_uuid None]));
    ("description", ZodOptional (ZodString []));
    ("ipAddress", ZodOptional (ZodString []));
    ("timestamp", default ZodDate (new_Date t_AuditLog_timestamp))].

(** Schema for FileMetadata, representing additional metadata for a file. *)
Definition FileMetadataSchema : ZodType :=
  extend RecordSchema [
    ("fileId", ZodString [check_uuid None]);
    ("metadata", ZodRecord (ZodString []) ZodAny);
    ("createdAt", default ZodDate (new_Date t_FileMetadata_createdAt))].

(** Schema for AccessControlPolicy, representing advanced access control rules
    for files. *)
Definition AccessControlPolicySchema : ZodType :=
  extend RecordSchema [
    ("fileId", ZodString [check_uuid None]);
    ("policyName", ZodString [check_min 1 (Some "Policy name is required.")]);
    ("conditions", ZodObject [
      ("allowedIPs", ZodOptional (ZodArray (ZodString []) None));
      ("expiration", ZodOptional ZodDate);
      ("maxAccesses", ZodOptional (ZodNumber []));
      ("passcode", ZodOptional (ZodString []));
      ("allowedRegions", ZodOptional (ZodArray (ZodString []) None));
      ("timeRange", ZodOptional (ZodObject [
          ("startTime", ZodOptional ZodDate);
          ("endTime", ZodOptional ZodDate)]))])].

(** Schema for FileEncryption, representing the encryption status and methods
    for files. *)
Definition FileEncryptionSchema : ZodType :=
  extend RecordSchema [
    ("fileId", ZodString [check_uuid None]);
    ("encryptionMethod", ZodEnum ["AES"; "RSA"; "SHA-256"; "None"]);
    ("isEncrypted", default ZodBoolean (VBoolean false));
    ("encryptionKey", ZodOptional (ZodString []))].

(** Schema for Quota, representing storage quotas or limits on file storage
    for users or groups. *)
Definition QuotaSchema : ZodType :=
  extend RecordSchema [
    ("userId", ZodOptional (ZodString [check_uuid None]));
    ("groupId", ZodOptional (ZodString [check_uuid None]));
    ("totalStorageLimit", ZodNumber []);
    ("usedStorage", default (ZodNumber []) (VNumber 0%float));
    ("lastUpdated", default ZodDate (new_Date t_Quota_lastUpdated))].

(** The exported schemas of the module, by name. *)
Definition exported : list (string * ZodType) :=
  [("FileSchema", FileSchema);
   ("FileCategorySchema", FileCategorySchema);
   ("FileVersionSchema", FileVersionSchema);
   ("FileHistorySchema", FileHistorySchema);
   ("UserActivitySchema", UserActivitySchema);
   ("FileCommentSchema", FileCommentSchema);
   ("EventNotificationSchema", EventNotificationSchema);
   ("FolderSchema", FolderSchema);
   ("SharedLinkSchema", SharedLinkSchema);
   ("DownloadRequestSchema", DownloadRequestSchema);
   ("AuditLogSchema", AuditLogSchema);
   ("FileMetadataSchema", FileMetadataSchema);
   ("AccessControlPolicySchema", AccessControlPolicySchema);
   ("FileEncryptionSchema", FileEncryptionSchema);
   ("QuotaSchema", QuotaSchema)].

(** The exported schemas declared with [RecordSchema.extend]. *)
Definition entities : list (string * ZodType) :=
  [("FileSchema", FileSchema);
   ("FileCategorySchema", FileCategorySchema);
   ("FileVersionSchema", FileVersionSchema);
   ("FileHistorySchema", FileHistorySchema);
   ("UserActivitySchema", UserActivitySchema);
   ("FileCommentSchema", FileCommentSchema);
   ("EventNotificationSchema", EventNotificationSchema);
   ("FolderSchema", FolderSchema);
   ("SharedLinkSchema", SharedLinkSchema);
   ("DownloadRequestSchema", DownloadRequestSchema);
   ("AuditLogSchema", AuditLogSchema);
   ("FileMetadataSchema", FileMetadataSchema);
   ("AccessControlPolicySchema", AccessControlPolicySchema);
   ("FileEncryptionSchema", FileEncryptionSchema);
   ("QuotaSchema", QuotaSchema)].

End Declarations.

End Files.

(** The content schemas (unnamed part 003). *)
Module Content.

Section Declarations.

(** The clock reading held by the default of [createdAt] in the imported
    [RecordSchema]. *)
Variable t_Record_createdAt : Time.

Abbreviation RecordSchema := (Record.RecordSchema t_Record_createdAt).

(** The clock readings of the [new Date()] expressions of the module, each
    taken when its declaration is evaluated. *)
Variable t_Comment_createdAt : Time.
Variable t_ContentEditorState_lastEditedAt : Time.
Variable t_ContentPreview_previewGeneratedAt : Time.

(** Schema for a MediaAsset, representing a media file like images, videos, or
    documents. *)
Definition MediaAssetSchema : ZodType :=
  extend RecordSchema [
    ("fileName", ZodString [check_min 1 (Some "File name is required.")]);
    ("fileType", ZodString [check_min 1 (Some "File type is required.")]);
    ("url", ZodString [check_url (Some "Must be a valid URL.")]);
    ("description", ZodOptional (ZodString []));
    ("altText", ZodOptional (ZodString []));
    ("sizeInBytes", ZodOptional (ZodNumber []));
    ("dimensions", ZodOptional (ZodObject [
        ("width", ZodOptional (ZodNumber []));
        ("height", ZodOptional (ZodNumber []))]))].

(** Schema for a Taxonomy, representing a structured classification system,
    such as categories or tags. *)
Definition TaxonomySchema : ZodType :=
  extend RecordSchema [
    ("name", ZodString [check_min 1 (Some "Taxonomy name is required.")]);
    ("description", ZodOptional (ZodString []));
    ("isHierarchical", default ZodBoolean (VBoolean false))].

(** Schema for a Category, representing a hierarchical structure within a
    taxonomy (e.g., product categories). *)
Definition CategorySchema : ZodType :=
  extend RecordSchema [
    ("taxonomyId", ZodString [check_uuid None]);
    ("name", ZodString [check_min 1 (Some "Category name is required.")]);
    ("parentCategoryId", ZodOptional (ZodString [check_uuid None]));
    ("description", ZodOptional (ZodString []))].

(** Schema for a Tag, representing a non-hierarchical label used to classify
    content. *)
Definition TagSchema : ZodType :=
  extend RecordSchema [
    ("taxonomyId", ZodString [check_uuid None]);
    ("name", ZodString [check_min 1 (Some "Tag name is required.")]);
    ("description", ZodOptional (ZodString []))].

(** Schema for an Author, representing the creator of content in the CMS. *)
Definition AuthorSchema : ZodType :=
  extend RecordSchema [
    ("name", ZodString [check_min 1 (Some "Author name is required.")]);
    ("bio", ZodOptional (ZodString []));
    ("profilePictureUrl", ZodOptional (ZodString [check_url None]));
    ("socialLinks", ZodOptional (ZodArray (ZodObject [
          ("platform", ZodString [check_min 1 (Some "Social platform is required.")]);
          ("url", ZodString [check_url (Some "Must be a valid URL.")])]) None))].

(** Schema for ContentVersion, representing a version of a content entry. *)
Definition ContentVersionSchema : ZodType :=
  extend RecordSchema [
    ("contentEntryId", ZodString [check_uuid None]);
    ("versionNumber", ZodString [check_min 1 (Some "Version number is required.")]);
    ("changes", ZodOptional (ZodString []));
    ("isCurrentVersion", default ZodBoolean (VBoolean false))].

(** Schema for a ContentWorkflow, representing the workflow for content
    creation, review, and approval. *)
Definition ContentWorkflowSchema : ZodType :=
  extend RecordSchema [
    ("contentEntryId", ZodString [check_uuid None]);
    ("status", ZodEnum ["draft"; "in-review"; "approved"; "published"; "archived"]);
    ("assignedTo", ZodOptional (ZodString [check_uuid None]));
    ("dueDate", ZodOptional ZodDate);
    ("comments", ZodOptional (ZodArray (ZodString []) None))].

(** Schema for a ContentRelation, representing relationships between content
    entries. *)
Definition ContentRelationSchema : ZodType :=
  extend RecordSchema [
    ("fromContentId", ZodString [check_uuid None]);
    ("toContentId", ZodString [check_uuid None]);
    ("relationType", ZodEnum ["related"; "featured"; "parent-child"])].

(** Schema for a Comment, representing user-generated feedback or discussion
    on content. *)
Definition CommentSchema : ZodType :=
  extend RecordSchema [
    ("contentEntryId", ZodString [check_uuid None]);
    ("author", ZodString [check_min 1 (Some "Comment author is required.")]);
    ("text", ZodString [check_min 1 (Some "Comment text is required.")]);
    ("createdAt", default ZodDate (new_Date t_Comment_createdAt))].

(** Schema for ContentLocalization, representing localized versions of content
    for different languages. *)
Definition ContentLocalizationSchema : ZodType :=
  extend RecordSchema [
    ("contentEntryId", ZodString [check_uuid None]);
    ("languageCode", ZodString [check_min 2 None; check_max 5 None]);
    ("localizedFields", ZodRecord (ZodString []) ZodAny);
    ("isPrimaryLanguage", default ZodBoolean (VBoolean false))].

(** Schema for an Editor, representing the editor used for creating and
    editing content. *)
Definition EditorSchema : ZodType :=
  extend RecordSchema [
    ("editorType", ZodEnum ["richText"; "markdown"; "code"; "wysiwyg"]);
    ("settings", ZodOptional (ZodRecord (ZodString []) ZodAny));
    ("autosaveInterval", ZodOptional (ZodNumber []))].

(** Schema for a ViewTemplate, representing a layout or template used to
    display content. *)
Definition ViewTemplateSchema : ZodType :=
  extend RecordSchema [
    ("name", ZodString [check_min 1 (Some "Template name is required.")]);
    ("description", ZodOptional (ZodString []));
    ("layout", ZodEnum ["singleColumn"; "twoColumn"; "grid"; "custom"]);
    ("fields", ZodOptional (ZodArray (ZodObject [
          ("fieldName", ZodString [check_min 1 (Some "Field name is required.")]);
          ("fieldType", ZodEnum ["text"; "image"; "video"; "richText"; "json"])]) None))].

(** Schema for a Page, representing a content page where entries are
    displayed. *)
Definition PageSchema : ZodType :=
  extend RecordSchema [
    ("title", ZodString [check_min 1 (Some "Page title is required.")]);
    ("slug", ZodString [check_min 1 (Some "Page slug is required.")]);
    ("templateId", ZodString [check_uuid None]);
    ("contentEntries", ZodOptional (ZodArray (ZodString [check_uuid None]) None));
    ("seoMetadata", ZodOptional (ZodObject [
        ("title", ZodOptional (ZodString []));
        ("description", ZodOptional (ZodString []));
        ("keywords", ZodOptional (ZodArray (ZodString []) None))]));
    ("isPublished", default ZodBoolean (VBoolean false));
    ("publishDate", ZodOptional ZodDate)].

(** Schema for ContentEditorState, representing the state of content while it
    is being edited. *)
Definition ContentEditorStateSchema : ZodType :=
  extend RecordSchema [
    ("contentEntryId", ZodString [check_uuid None]);
    ("editorState", ZodEnum ["draft"; "editing"; "autosaving"; "saved"]);
    ("lastEditedAt", default ZodDate (new_Date t_ContentEditorState_lastEditedAt));
    ("editorType", ZodEnum ["richText"; "markdown"; "code"; "wysiwyg"])].

(** Schema for ContentPreview, representing a preview state for viewing
    content before it is published. *)
Definition ContentPreviewSchema : ZodType :=
  extend RecordSchema [
    ("contentEntryId", ZodString [check_uuid None]);
    ("templateId", ZodOptional (ZodString [check_uuid None]));
    ("previewUrl", ZodString [check_url None]);
    ("previewGeneratedAt", default ZodDate (new_Date t_ContentPreview_previewGeneratedAt))].

(** Schema for a ContentField, representing an individual field within a
    content type. *)
Definition ContentFieldSchema : ZodType :=
  ZodObject [
    ("fieldName", ZodString [check_min 1 (Some "Field name is required.")]);
    ("fieldType", ZodEnum ["text"; "richText"; "image"; "video"; "boolean"; "number"; "date"; "json"]);
    ("required", default ZodBoolean (VBoolean false));
    ("defaultValue", ZodOptional ZodAny);
    ("validationRules", ZodOptional (ZodObject [
        ("maxLength", ZodOptional (ZodNumber []));
        ("minLength", ZodOptional (ZodNumber []));
        ("minValue", ZodOptional (ZodNumber []));
        ("maxValue", ZodOptional (ZodNumber []));
        ("regex", ZodOptional (ZodString []))]));
    ("displayOptions", ZodOptional (ZodObject [
        ("label", ZodOptional (ZodString []));
        ("placeholder", ZodOptional (ZodString []));
        ("helpText", ZodOptional (ZodString []))]))].

(** Schema for a ContentType, representing a structure or blueprint for
    different types of content. *)
Definition ContentTypeSchema : ZodType :=
  extend RecordSchema [
    ("name", ZodString [check_min 1 (Some "Content type name is required.")]);
    ("description", ZodOptional (ZodString []));
    ("fields", ZodArray ContentFieldSchema None)].

(** Schema for a ContentEntry, representing an individual piece of content
    within a content type. *)
Definition ContentEntrySchema : ZodType :=
  extend RecordSchema [
    ("contentTypeId", ZodString [check_uuid None]);
    ("fields", ZodRecord (ZodString []) ZodAny);
    ("status", default (ZodEnum ["draft"; "published"; "archived"]) (VString "draft"));
    ("publishedAt", ZodOptional ZodDate)].

(** The exported schemas of the module, by name. *)
Definition exported : list (string * ZodType) :=
  [("MediaAssetSchema", MediaAssetSchema);
   ("TaxonomySchema", TaxonomySchema);
   ("CategorySchema", CategorySchema);
   ("TagSchema", TagSchema);
   ("AuthorSchema", AuthorSchema);
   ("ContentVersionSchema", ContentVersionSchema);
   ("ContentWorkflowSchema", ContentWorkflowSchema);
   ("ContentRelationSchema", ContentRelationSchema);
   ("CommentSchema", CommentSchema);
   ("ContentLocalizationSchema", ContentLocalizationSchema);
   ("EditorSchema", EditorSchema);
   ("ViewTemplateSchema", ViewTemplateSchema);
   ("PageSchema", PageSchema);
   ("ContentEditorStateSchema", ContentEditorStateSchema);
   ("ContentPreviewSchema", ContentPreviewSchema);
   ("ContentFieldSchema", ContentFieldSchema);
   ("ContentTypeSchema", ContentTypeSchema);
   ("ContentEntrySchema", ContentEntrySchema)].

(** The exported schemas declared with [RecordSchema.extend]. *)
Definition entities : list (string * ZodType) :=
  [("MediaAssetSchema", MediaAssetSchema);
   ("TaxonomySchema", TaxonomySchema);
   ("CategorySchema", CategorySchema);
   ("TagSchema", TagSchema);
   ("AuthorSchema", AuthorSchema);
   ("ContentVersionSchema", ContentVersionSchema);
   ("ContentWorkflowSchema", ContentWorkflowSchema);
   ("ContentRelationSchema", ContentRelationSchema);
   ("CommentSchema", CommentSchema);
   ("ContentLocalizationSchema", ContentLocalizationSchema);
   ("EditorSchema", EditorSchema);
   ("ViewTemplateSchema", ViewTemplateSchema);
   ("PageSchema", PageSchema);
   ("ContentEditorStateSchema", ContentEditorStateSchema);
   ("ContentPreviewSchema", ContentPreviewSchema);
   ("ContentTypeSchema", ContentTypeSchema);
   ("ContentEntrySchema", ContentEntrySchema)].

End Declarations.

End Content.

(** The repository as a whole: every clock reading a declaration captures,
    and the schemas of every module.  record.ts is there twice; the named
    modules import the named copy, the unnamed modules are taken to import the
    unnamed one, whose [new Date()] has a reading of its own. *)
Section Repository.

Variable t_Record_createdAt : Time.
Variable t_Record_copy_createdAt : Time.
Variable t_Message_sentAt : Time.
Variable t_Notification_sentAt : Time.
Variable t_Reaction_createdAt : Time.
Variable t_TypingIndicator_startedAt : Time.
Variable t_FileVersion_createdAt : Time.
Variable t_FileHistory_timestamp : Time.
Variable t_UserActivity_timestamp : Time.
Variable t_FileComment_createdAt : Time.
Variable t_EventNotification_createdAt : Time.
Variable t_DownloadRequest_requestedAt : Time.
Variable t_AuditLog_timestamp : Time.
Variable t_FileMetadata_createdAt : Time.
Variable t_Quota_lastUpdated : Time.
Variable t_Comment_createdAt : Time.
Variable t_ContentEditorState_lastEditedAt : Time.
Variable t_ContentPreview_previewGeneratedAt : Time.

(** Every exported schema, by name. *)
Definition all_exported : list (string * ZodType) :=
  Record.exported t_Record_createdAt
  ++ Record.exported t_Record_copy_createdAt
  ++ Productivity.exported
       t_Record_createdAt
  ++ Forms.exported
       t_Record_createdAt
  ++ Messaging.exported
       t_Record_copy_createdAt t_Message_sentAt t_Notification_sentAt
       t_Reaction_createdAt t_TypingIndicator_startedAt
  ++ Learning.exported
       t_Record_copy_createdAt
  ++ Files.exported
       t_Record_copy_createdAt t_FileVersion_createdAt t_FileHistory_timestamp
       t_UserActivity_timestamp t_FileComment_createdAt t_EventNotification_createdAt
       t_DownloadRequest_requestedAt t_AuditLog_timestamp t_FileMetadata_createdAt
       t_Quota_lastUpdated
  ++ Content.exported
       t_Record_copy_createdAt t_Comment_createdAt t_ContentEditorState_lastEditedAt
       t_ContentPreview_previewGeneratedAt.

(** Every exported schema declared with [RecordSchema.extend]. *)
Definition all_entities : list (string * ZodType) :=
  Productivity.entities
       t_Record_createdAt
  ++ Forms.entities
       t_Record_createdAt
  ++ Messaging.entities
       t_Record_copy_createdAt t_Message_sentAt t_Notification_sentAt
       t_Reaction_createdAt t_TypingIndicator_startedAt
  ++ Learning.entities
       t_Record_copy_createdAt
  ++ Files.entities
       t_Record_copy_createdAt t_FileVersion_createdAt t_FileHistory_timestamp
       t_UserActivity_timestamp t_FileComment_createdAt t_EventNotification_createdAt
       t_DownloadRequest_requestedAt t_AuditLog_timestamp t_FileMetadata_createdAt
       t_Quota_lastUpdated
  ++ Content.entities
       t_Record_copy_createdAt t_Comment_createdAt t_ContentEditorState_lastEditedAt
       t_ContentPreview_previewGeneratedAt.

End Repository.

(** ** Sample format tests and inputs *)

(** Instances of the two string formats, for evaluating the parser on
    concrete inputs.  [uuid_format] accepts the layout of zod's [uuidRegex]:
    hexadecimal groups of 8, 4, 4, 4 and 12 digits joined by hyphens.
    [url_format] accepts the strings that start with an http or https
    scheme: it is a sample of a format, not the test of [.url()], which is
    the success of [new URL] (that admits other schemes and rejects an
    http URL without a host).  No property depends on either: each is
    proved for every [isUuid] and [isUrl], and the instances call
    [url_format] only on https URLs with a host and a path. *)
Definition is_hex (c : ascii) : bool :=
  let n := nat_of_ascii c in
  (Nat.leb 48 n && Nat.leb n 57) || (Nat.leb 65 n && Nat.leb n 70)
  || (Nat.leb 97 n && Nat.leb n 102).

Fixpoint matches_layout (layout s : string) : bool :=
  match layout, s with
  | EmptyString, EmptyString => true
  | String l layout', String c s' =>
      (if Ascii.eqb l "-"%char then Ascii.eqb c "-"%char else is_hex c)
      && matches_layout layout' s'
  | _, _ => false
  end.

Definition uuid_format (s : string) : bool :=
  matches_layout "xxxxxxxx-xxxx-xxxx-xxxx-xxxxxxxxxxxx" s.

Definition url_format (s : string) : bool :=
  String.prefix "http://" s || String.prefix "https://" s.

Definition sample_uuid : string := "123e4567-e89b-12d3-a456-426614174000".

(** A task in which three fields fail: [id] is no UUID, [title] is empty and
    [status] is none of the enumerated values. *)
Definition failing_task : list (string * value) :=
  [("id", VString "not-a-uuid"); ("title", VString ""); ("status", VString "done")].

(** The fields that [ReactionSchema] adds to the base contract, [createdAt]
    among them. *)
Definition reaction_fields (t_Reaction_createdAt : Time) : Shape :=
  [("messageId", ZodString [check_uuid None]);
   ("userId", ZodString [check_uuid None]);
   ("reactionType", ZodString [check_min 1 None]);
   ("createdAt", default ZodDate (new_Date t_Reaction_createdAt))].

(** ** Vocabulary of the properties *)

(** An issue is below a path when its own path extends it. *)
Definition below (path : Path) (i : ZodIssue) : Prop :=
  exists rest, issue_path i = path ++ rest.

(** An issue names a field when its path starts with the field's key. *)
Definition names (key : string) (i : ZodIssue) : Prop :=
  below [Key key] i.

(** A parser outcome reports its failure when a result that is not valid
    comes with at least one issue. *)
Definition reports (r : Parsed) : Prop :=
  isValid (fst r) = false -> snd r <> [].

(** A parser outcome is quiet when a valid result comes with no issue. *)
Definition quiet (r : Parsed) : Prop :=
  isValid (fst r) = true -> snd r = [].

(** The defaults of a schema are constant when no default thunk depends on
    the clock: each was given to [.default] as a value. *)
Fixpoint constant_defaults (schema : ZodType) : Prop :=
  match schema with
  | ZodArray type _ => constant_defaults type
  | ZodTuple items => fold_right (fun s acc => constant_defaults s /\ acc) True items
  | ZodRecord keyType valueType =>
      constant_defaults keyType /\ constant_defaults valueType
  | ZodUnion options =>
      fold_right (fun s acc => constant_defaults s /\ acc) True options
  | ZodObject shape =>
      fold_right (fun field acc => constant_defaults (snd field) /\ acc) True shape
  | ZodOptional innerType => constant_defaults innerType
  | ZodDefault innerType defaultValue =>
      constant_defaults innerType /\ forall t1 t2, defaultValue t1 = defaultValue t2
  | _ => True
  end.

(** The contract of the extension scenario: the base contract extended with
    a required string field [extraField]. *)
Definition ExtraSchema (t_Record_createdAt : Time) : ZodType :=
  extend (Record.RecordSchema t_Record_createdAt) [("extraField", ZodString [])].

(** [mergeObjectSync] writes a property when its value is not [undefined]
    or its key was present in the input. *)
Definition kept (v : value) (always : bool) : bool :=
  negb (is_undefined v) || always.

(** The strings of a list are pairwise distinct. *)
Fixpoint distinct (l : list string) : bool :=
  match l with
  | [] => true
  | x :: rest => negb (existsb (String.eqb x) rest) && distinct rest
  end.

(** The literal that an object schema requires of its property [key]. *)
Definition tag_of (key : string) (schema : ZodType) : option string :=
  match schema with
  | ZodObject shape =>
      match lookup shape key with
      | Some (ZodLiteral lit) => Some lit
      | _ => None
      end
  | _ => None
  end.

(** The options of a union are discriminated by [key] when each is an
    object schema that requires a literal of [key], no two the same. *)
Definition discriminated_by (key : string) (options : list ZodType) : Prop :=
  exists tags, map (tag_of key) options = map Some tags /\ NoDup tags.

(** The schemas for which validation is shown idempotent: objects name each
    field once and none is [__proto__], defaults are constant, records are
    keyed by strings and unions are discriminated. *)
Fixpoint regular (schema : ZodType) : Prop :=
  match schema with
  | ZodArray type _ => regular type
  | ZodTuple items => fold_right (fun s acc => regular s /\ acc) True items
  | ZodRecord keyType valueType =>
      match keyType with ZodString _ => regular valueType | _ => False end
  | ZodUnion options =>
      (exists key, discriminated_by key options)
      /\ fold_right (fun s acc => regular s /\ acc) True options
  | ZodObject shape =>
      NoDup (keys shape) /\ ~ In "__proto__" (keys shape)
      /\ fold_right (fun field acc => regular (snd field) /\ acc) True shape
  | ZodOptional innerType => regular innerType
  | ZodDefault innerType defaultValue =>
      regular innerType /\ forall t1 t2, defaultValue t1 = defaultValue t2
  | _ => True
  end.

(** The properties [mergeObjectSync] writes for a record schema: one for
    each key but [__proto__], holding the value [V] gives it. *)
Definition store (V : string -> value) (ks : list string)
    (acc : list (string * value)) : list (string * value) :=
  fold_left (fun acc k => if String.eqb k "__proto__" then acc else set acc k (V k))
            ks acc.

(** The pairs [ZodObject._parse] builds from its shape, given the result
    [R] and the presence [A] of each field. *)
Definition pairs_of (shape : Shape) (R : string * ZodType -> ParseReturnType)
    (A : string * ZodType -> bool) : list Pair :=
  map (fun f => mkPair (OK (VString (fst f))) (R f) (A f)) shape.

(** The properties written for the fields of a shape. *)
Definition written (shape : Shape) (R : string * ZodType -> ParseReturnType)
    (A : string * ZodType -> bool) : list (string * value) :=
  flat_map (fun f => if kept (result_value (R f)) (A f)
                     then [(fst f, result_value (R f))] else []) shape.

(** A field of an object schema fails on an input when its outcome is not
    valid. *)
Definition field_fails (isUuid isUrl : string -> bool) (schema : ZodType)
    (now : Time) (props : list (string * value)) (key : string) : Prop :=
  isValid (fst (parse_field isUuid isUrl schema now [] props key)) = false.

(** A schema carries the record fields of the base contract declared at
    [t] when it defines [id], [createdAt] and [updatedAt] as that contract
    does. *)
Definition carries_record_fields (t : Time) (schema : ZodType) : Prop :=
  forall key, In key ["id"; "createdAt"; "updatedAt"] ->
    lookup (shape_of schema) key = lookup (shape_of (Record.RecordSchema t)) key.

(** ** Structural induction on schemas *)

Section ZodType_induction.

Variable P : ZodType -> Prop.

Hypothesis HString : forall checks, P (ZodString checks).
Hypothesis HNumber : forall checks, P (ZodNumber checks).
Hypothesis HBoolean : P ZodBoolean.
Hypothesis HDate : P ZodDate.
Hypothesis HAny : P ZodAny.
Hypothesis HLiteral : forall lit, P (ZodLiteral lit).
Hypothesis HEnum : forall values, P (ZodEnum values).
Hypothesis HArray : forall type minLength, P type -> P (ZodArray type minLength).
Hypothesis HTuple : forall items, Forall P items -> P (ZodTuple items).
Hypothesis HRecord : forall k v, P k -> P v -> P (ZodRecord k v).
Hypothesis HUnion : forall options, Forall P options -> P (ZodUnion options).
Hypothesis HObject :
  forall shape, Forall (fun field => P (snd field)) shape -> P (ZodObject shape).
Hypothesis HOptional : forall inner, P inner -> P (ZodOptional inner).
Hypothesis HDefault : forall inner d, P inner -> P (ZodDefault inner d).

Fixpoint ZodType_induction (schema : ZodType) : P schema :=
  match schema with
  | ZodString checks => HString checks
  | ZodNumber checks => HNumber checks
  | ZodBoolean => HBoolean
  | ZodDate => HDate
  | ZodAny => HAny
  | ZodLiteral lit => HLiteral lit
  | ZodEnum values => HEnum values
  | ZodArray type minLength => HArray type minLength (ZodType_induction type)
  | ZodTuple items =>
      HTuple items ((fix all (l : list ZodType) : Forall P l :=
                 match l with
                 | [] => Forall_nil P
                 | s :: rest => Forall_cons s (ZodType_induction s) (all rest)
                 end) items)
  | ZodRecord k v => HRecord k v (ZodType_induction k) (ZodType_induction v)
  | ZodUnion options =>
      HUnion options ((fix all (l : list ZodType) : Forall P l :=
                 match l with
                 | [] => Forall_nil P
                 | s :: rest => Forall_cons s (ZodType_induction s) (all rest)
                 end) options)
  | ZodObject shape =>
      HObject shape ((fix all (l : Shape) : Forall (fun field => P (snd field)) l :=
                  match l with
                  | [] => Forall_nil _
                  | f :: rest =>
                      Forall_cons f (ZodType_induction (snd f)) (all rest)
                  end) shape)
  | ZodOptional inner => HOptional inner (ZodType_induction inner)
  | ZodDefault inner d => HDefault inner d (ZodType_induction inner)
  end.

End ZodType_induction.

(** ** Vocabulary of the schema properties *)

(** [key in v] on a value. *)
Definition owns (v : value) (key : string) : bool :=
  match v with VObject props => has props key | _ => false end.

(** A field schema is required when it is declared without [.optional()]
    and without [.default()], and is not [z.any()]; a union is required
    when each of its options is. *)
Fixpoint required (schema : ZodType) : bool :=
  match schema with
  | ZodOptional _ => false
  | ZodDefault _ _ => false
  | ZodAny => false
  | ZodUnion options => forallb required options
  | _ => true
  end.

(** A string passes a check of a [ZodString]. *)
Definition satisfies (isUuid isUrl : string -> bool) (s : string)
    (check : ZodStringCheck) : bool :=
  match check with
  | check_min n _ => Nat.leb n (String.length s)
  | check_max n _ => Nat.leb (String.length s) n
  | check_uuid _ => isUuid s
  | check_url _ => isUrl s
  end.

(** Schemas of values without parts: strings, numbers, booleans, dates,
    enums, literals and [z.any()], optional or defaulted. *)
Fixpoint scalar (schema : ZodType) : bool :=
  match schema with
  | ZodString _ | ZodNumber _ | ZodBoolean | ZodDate | ZodAny
  | ZodLiteral _ | ZodEnum _ => true
  | ZodOptional inner => scalar inner
  | ZodDefault inner _ => scalar inner
  | _ => false
  end.

(** A number passes a check of a [ZodNumber]. *)
Definition above (x : float) (check : ZodNumberCheck) : bool :=
  match check with
  | check_number_min bound inclusive _ =>
      negb (if inclusive then PrimFloat.ltb x bound else PrimFloat.leb x bound)
  end.

(** The issue a failing check of a [ZodString] adds for the string at
    [path]: the code of the check with the message it was declared with. *)
Definition violation (check : ZodStringCheck) (path : Path) : ZodIssue :=
  match check with
  | check_min n m => Issue (too_small (sized_string n) true false) path m
  | check_max n m => Issue (too_big (sized_string n) true false) path m
  | check_uuid m => Issue (invalid_string validation_uuid) path m
  | check_url m => Issue (invalid_string validation_url) path m
  end.

(** ** The rule a schema states *)

(** The items of an array conform, each to the schema at its position. *)
Fixpoint conform_each (conforms : ZodType -> value -> bool)
    (schemas : list ZodType) (items : list value) : bool :=
  match schemas, items with
  | schema :: schemas', item :: items' =>
      conforms schema item && conform_each conforms schemas' items'
  | _, _ => true
  end.

Section Rules.

Variable isUuid : string -> bool.
Variable isUrl : string -> bool.

(** A value conforms to a schema when it obeys the rule that the
    declaration states, read as the methods of zod are documented, not as
    the parser runs:
    - [z.string()] asks for a string that passes every check added to it,
      [z.number()] for a number that is not NaN and passes every check,
      [z.boolean()] for a boolean, [z.date()] for a valid date;
    - [z.any()] asks for nothing;
    - [z.literal(s)] asks for the string [s], [z.enum(values)] for one of
      the strings [values];
    - [z.array(type)] asks for an array whose items conform to [type], of
      at least [n] items after [.min(n)];
    - [z.tuple(schemas)] asks for an array of as many items as [schemas],
      each item conforming to the schema at its position;
    - [z.record(keyType, valueType)] asks for an object of which every key
      conforms to [keyType] and every value to [valueType];
    - [z.union(options)] asks for a value that conforms to one of the
      options;
    - [z.object(shape)] asks for an object of which every declared field
      conforms, a property of any other name being free;
    - [.optional()] admits [undefined] besides; [.default(d)] asks a value
      for what the inner schema asks, and is met by [undefined] when the
      default is a value the inner schema admits. *)
Fixpoint conforms (schema : ZodType) (now : Time) (data : value)
    {struct schema} : bool :=
  match schema with
  | ZodString checks =>
      match data with
      | VString s => forallb (satisfies isUuid isUrl s) checks
      | _ => false
      end
  | ZodNumber checks =>
      match data with
      | VNumber x => negb (PrimFloat.is_nan x) && forallb (above x) checks
      | _ => false
      end
  | ZodBoolean => match data with VBoolean _ => true | _ => false end
  | ZodDate => match data with VDate (Some _) => true | _ => false end
  | ZodAny => true
  | ZodLiteral lit =>
      match data with VString s => String.eqb s lit | _ => false end
  | ZodEnum values =>
      match data with VString s => existsb (String.eqb s) values | _ => false end
  | ZodArray type minLength =>
      match data with
      | VArray items =>
          match minLength with
          | Some (n, _) => Nat.leb n (List.length items)
          | None => true
          end
          && forallb (conforms type now) items
      | _ => false
      end
  | ZodTuple schemas =>
      match data with
      | VArray items =>
          Nat.eqb (List.length items) (List.length schemas)
          && conform_each (fun schema item => conforms schema now item) schemas items
      | _ => false
      end
  | ZodRecord keyType valueType =>
      match data with
      | VObject props =>
          forallb (fun entry : string * value =>
                     conforms keyType now (VString (fst entry))
                     && conforms valueType now (get props (fst entry)))
                  props
      | _ => false
      end
  | ZodUnion options => existsb (fun option => conforms option now data) options
  | ZodObject shape =>
      match data with
      | VObject props =>
          forallb (fun field : string * ZodType =>
                     conforms (snd field) now (get props (fst field)))
                  shape
      | _ => false
      end
  | ZodOptional innerType =>
      match data with
      | VUndefined => true
      | _ => conforms innerType now data
      end
  | ZodDefault innerType defaultValue =>
      match data with
      | VUndefined => conforms innerType now (defaultValue now)
      | _ => conforms innerType now data
      end
  end.

End Rules.

(** ** The exported schemas by the way they are declared *)

Section Classification.

Variable t_Record_copy_createdAt : Time.
Variable t_Reaction_createdAt : Time.
Variable t_FileVersion_createdAt : Time.
Variable t_FileComment_createdAt : Time.
Variable t_EventNotification_createdAt : Time.
Variable t_FileMetadata_createdAt : Time.
Variable t_Comment_createdAt : Time.

(** The entities whose extension declares [createdAt] again, each with the
    reading that the [new Date()] of its own declaration captured. *)
Definition redeclared_createdAt : list (string * ZodType * Time) :=
  [("ReactionSchema",
    Messaging.ReactionSchema t_Record_copy_createdAt t_Reaction_createdAt,
    t_Reaction_createdAt);
   ("FileVersionSchema",
    Files.FileVersionSchema t_Record_copy_createdAt t_FileVersion_createdAt,
    t_FileVersion_createdAt);
   ("FileCommentSchema",
    Files.FileCommentSchema t_Record_copy_createdAt t_FileComment_createdAt,
    t_FileComment_createdAt);
   ("EventNotificationSchema",
    Files.EventNotificationSchema t_Record_copy_createdAt t_EventNotification_createdAt,
    t_EventNotification_createdAt);
   ("FileMetadataSchema",
    Files.FileMetadataSchema t_Record_copy_createdAt t_FileMetadata_createdAt,
    t_FileMetadata_createdAt);
   ("CommentSchema",
    Content.CommentSchema t_Record_copy_createdAt t_Comment_createdAt,
    t_Comment_createdAt)].

End Classification.

(** The exported schemas declared directly with [z.object], the base
    contract apart. *)
Definition value_objects : list string :=
  ["ReminderSchema"; "FormFieldSchema"; "FormLayoutConfigSchema";
   "FormSectionSchema"; "FormLayoutSchema"; "FormActionsSchema";
   "FormDependenciesSchema"; "RepeatingFieldGroupSchema";
   "FormRestraintsSchema"; "DefinitionEntrySchema";
   "CheatsheetSectionSchema"; "MindmapNodeSchema"; "ContentFieldSchema"].

(** A time log in which four fields break their rules: [id] is no UUID,
    [taskId] is missing, [duration] is below one minute and [logDate] is not
    a valid date. *)
Definition failing_time_log : list (string * value) :=
  [("id", VString "not-a-uuid"); ("duration", VNumber 0%float);
   ("logDate", VDate None)].

(** ** Sample inputs *)

(** A tag with the two properties it needs, and what [TagSchema] declared at
    the instant 1 returns for it. *)
Definition sample_tag : list (string * value) :=
  [("id", VString sample_uuid); ("name", VString "urgent")].

Definition sample_tag_out : list (string * value) :=
  [("id", VString sample_uuid); ("createdAt", new_Date 1%Z);
   ("name", VString "urgent")].

(** The issues of [failing_task], in the order of the fields. *)
Definition failing_task_issues : list ZodIssue :=
  [Issue (invalid_string validation_uuid) [Key "id"] None;
   Issue (too_small (sized_string 1) true false) [Key "title"]
         (Some "Task title is required.");
   Issue (invalid_enum_value ["to-do"; "in-progress"; "completed"] "done")
         [Key "status"] None].

(** A message without [sentAt], and what [MessageSchema] declared at the
    instants 2 and 3 returns for it. *)
Definition sample_message : list (string * value) :=
  [("id", VString sample_uuid); ("senderId", VString sample_uuid);
   ("receiverId", VString sample_uuid); ("content", VString "hello")].

Definition sample_message_out : list (string * value) :=
  [("id", VString sample_uuid); ("createdAt", new_Date 2%Z);
   ("senderId", VString sample_uuid); ("receiverId", VString sample_uuid);
   ("content", VString "hello"); ("sentAt", new_Date 3%Z)].

(** A task without [priority], and what [TaskSchema] returns for it. *)
Definition sample_task : list (string * value) :=
  [("id", VString sample_uuid); ("title", VString "write");
   ("status", VString "to-do")].

Definition sample_task_out : list (string * value) :=
  [("id", VString sample_uuid); ("createdAt", new_Date 1%Z);
   ("title", VString "write"); ("status", VString "to-do");
   ("priority", VString "medium")].

(** A task whose second reminder has no [reminderDate]. *)
Definition sample_reminders : list (string * value) :=
  [("id", VString sample_uuid); ("title", VString "write");
   ("status", VString "to-do");
   ("reminders", VArray [VObject [("reminderDate", new_Date 5000%Z)];
                         VObject [("message", VString "call")]])].

(** The four kinds of content of a cheatsheet section. *)
Definition cheatsheet_contents : list ZodType :=
  [ZodObject [
     ("type", ZodLiteral "text");
     ("value", ZodString [check_min 1 (Some "Text content is required.")])];
   ZodObject [
     ("type", ZodLiteral "list");
     ("items", ZodArray (ZodString [check_min 1 (Some "List item cannot be empty.")]) None)];
   ZodObject [
     ("type", ZodLiteral "formula");
     ("expression", ZodString [check_min 1 (Some "Formula expression is required.")])];
   ZodObject [
     ("type", ZodLiteral "table");
     ("headers", ZodArray (ZodString [check_min 1 (Some "Table header is required.")]) None);
     ("rows", ZodArray (ZodArray (ZodString [check_min 1 None]) (Some (1%nat, None))) None)]].

Definition sample_section : list (string * value) :=
  [("title", VString "Basics");
   ("content", VObject [("type", VString "text"); ("value", VString "hello")])].

Definition sample_metadata : list (string * value) :=
  [("author", VString "ana"); ("pages", VNumber 3%float)].

(** A diagram of one shape. *)
Definition sample_element : list (string * value) :=
  [("id", VString sample_uuid); ("type", VString "shape");
   ("coordinates", VArray [VNumber 1%float; VNumber 2%float])].

Definition sample_diagram : list (string * value) :=
  [("id", VString sample_uuid); ("topicId", VString sample_uuid);
   ("title", VString "Cell"); ("elements", VArray [VObject sample_element])].

Definition sample_diagram_out : list (string * value) :=
  [("id", VString sample_uuid); ("createdAt", new_Date 2%Z);
   ("topicId", VString sample_uuid); ("title", VString "Cell");
   ("elements", VArray [VObject sample_element])].

(** A file whose [accessManagement] is the empty object. *)
Definition sample_file : list (string * value) :=
  [("id", VString sample_uuid); ("fileName", VString "a.pdf");
   ("fileType", VString "pdf"); ("fileSize", VNumber 10%float);
   ("fileUrl", VString "https://example.com/a.pdf");
   ("accessManagement", VObject [])].

Definition sample_file_out : list (string * value) :=
  [("id", VString sample_uuid); ("createdAt", new_Date 2%Z);
   ("fileName", VString "a.pdf"); ("fileType", VString "pdf");
   ("fileSize", VNumber 10%float);
   ("fileUrl", VString "https://example.com/a.pdf");
   ("version", VString "v1.0"); ("isPublic", VBoolean false);
   ("accessManagement", VObject [("accessType", VString "private")])].

(** * Properties *)

(** ** Properties, lookups and spreads *)

Lemma get_absent : forall props key, has props key = false -> get props key = VUndefined.
Proof.
  induction props as [|[k v] props IH]; simpl; intros key H; [reflexivity|].
  apply orb_false_iff in H. destruct H as [-> H]. auto.
Qed.

Lemma has_keys : forall (A : Type) (props : list (string * A)) key,
  has props key = true <-> In key (keys props).
Proof.
  induction props as [|[k v] props IH]; simpl; intros key.
  - split; [discriminate|tauto].
  - rewrite orb_true_iff, IH, String.eqb_eq. tauto.
Qed.

Lemma has_lookup : forall (A : Type) (props : list (string * A)) key,
  has props key = match lookup props key with Some _ => true | None => false end.
Proof.
  induction props as [|[k v] props IH]; simpl; intros key; [reflexivity|].
  destruct (String.eqb k key); simpl; auto.
Qed.

Lemma lookup_set : forall (A : Type) (props : list (string * A)) key v key',
  lookup (set props key v) key'
  = if String.eqb key key' then Some v else lookup props key'.
Proof.
  induction props as [|[k w] props IH]; simpl; intros key v key'.
  - reflexivity.
  - destruct (String.eqb_spec k key) as [->|Hk]; simpl.
    + destruct (String.eqb key key'); reflexivity.
    + rewrite IH. destruct (String.eqb_spec k key') as [->|Hk']; [|reflexivity].
      destruct (String.eqb_spec key key'); [congruence|reflexivity].
Qed.

Lemma has_set : forall (A : Type) (props : list (string * A)) key v key',
  has (set props key v) key' = String.eqb key key' || has props key'.
Proof.
  intros. rewrite !has_lookup, lookup_set. now destruct (String.eqb key key').
Qed.

Lemma lookup_In : forall (A : Type) (props : list (string * A)) key v,
  lookup props key = Some v -> In (key, v) props.
Proof.
  induction props as [|[k w] props IH]; simpl; intros key v H; [discriminate|].
  destruct (String.eqb k key) eqn:E.
  - apply String.eqb_eq in E. injection H as <-. subst. now left.
  - right. auto.
Qed.

Lemma In_lookup : forall (A : Type) (props : list (string * A)) key v,
  NoDup (keys props) -> In (key, v) props -> lookup props key = Some v.
Proof.
  induction props as [|[k w] props IH]; simpl; intros key v Hnd Hin; [easy|].
  inversion Hnd as [|? ? Hk Hnd']; subst.
  destruct Hin as [H|H].
  - injection H as -> ->. now rewrite String.eqb_refl.
  - destruct (String.eqb k key) eqn:E; [|auto].
    apply String.eqb_eq in E. subst k. exfalso. apply Hk.
    change key with (fst (key, v)). now apply in_map.
Qed.

Lemma keys_set : forall (A : Type) (props : list (string * A)) key v,
  keys (set props key v) = if has props key then keys props else keys props ++ [key].
Proof.
  induction props as [|[k w] props IH]; simpl; intros key v; [reflexivity|].
  destruct (String.eqb k key) eqn:E; simpl; [reflexivity|].
  rewrite IH. now destruct (has props key).
Qed.

Lemma NoDup_keys_set : forall (A : Type) (props : list (string * A)) key v,
  NoDup (keys props) -> NoDup (keys (set props key v)).
Proof.
  intros A props key v H. rewrite keys_set.
  destruct (has props key) eqn:E; [exact H|].
  apply NoDup_app; [exact H|constructor; [easy|constructor]|].
  intros x Hx [<-|[]]. apply has_keys in Hx. congruence.
Qed.

(** The spread [{...a, ...b}] read at a key: the entry of [b] when [b] has
    the key, else the entry of [a]. *)
Lemma lookup_spread : forall (A : Type) (b a : list (string * A)) key,
  NoDup (keys b) ->
  lookup (spread a b) key
  = match lookup b key with Some v => Some v | None => lookup a key end.
Proof.
  unfold spread. induction b as [|[k v] b IH]; simpl; intros a key Hnd; [reflexivity|].
  inversion Hnd as [|? ? Hk Hnd']; subst.
  rewrite IH by exact Hnd'. rewrite lookup_set.
  destruct (String.eqb k key) eqn:E; [|reflexivity].
  apply String.eqb_eq in E. subst k.
  assert (H : has b key = false).
  { destruct (has b key) eqn:Hh; [|reflexivity]. apply has_keys in Hh. contradiction. }
  rewrite has_lookup in H. now destruct (lookup b key).
Qed.

Lemma has_spread : forall (A : Type) (b a : list (string * A)) key,
  has (spread a b) key = has a key || has b key.
Proof.
  unfold spread. induction b as [|[k v] b IH]; simpl; intros a key.
  - now rewrite orb_false_r.
  - rewrite IH, has_set. destruct (String.eqb k key), (has a key); reflexivity.
Qed.

Lemma NoDup_keys_spread : forall (A : Type) (b a : list (string * A)),
  NoDup (keys a) -> NoDup (keys (spread a b)).
Proof.
  unfold spread. induction b as [|[k v] b IH]; simpl; intros a H; [exact H|].
  apply IH. now apply NoDup_keys_set.
Qed.

(** A spread that adds new keys only appends them. *)
Lemma set_fresh : forall (A : Type) (props : list (string * A)) key v,
  has props key = false -> set props key v = props ++ [(key, v)].
Proof.
  induction props as [|[k w] props IH]; simpl; intros key v H; [reflexivity|].
  apply orb_false_iff in H. destruct H as [-> H]. now rewrite IH.
Qed.

(** ** The issues of a parser *)

Section Issues.

Variable isUuid : string -> bool.
Variable isUrl : string -> bool.

Abbreviation parse := (_parse isUuid isUrl).

Lemma below_refl_issue : forall code path m, below path (Issue code path m).
Proof. intros. exists []. simpl. now rewrite app_nil_r. Qed.

Lemma below_step : forall path seg i, below (path ++ [seg]) i -> below path i.
Proof.
  intros path seg i [rest H]. exists (seg :: rest).
  rewrite H. now rewrite <- app_assoc.
Qed.

Lemma run_string_checks_below : forall checks path s st,
  Forall (below path) (snd (run_string_checks isUuid isUrl checks path s st)).
Proof.
  induction checks as [|c checks IH]; intros path s st; simpl.
  - constructor.
  - destruct c; simpl;
      match goal with
      | |- context [if ?b then _ else _] => destruct b
      end; simpl; auto;
      match goal with
      | |- context [run_string_checks _ _ ?cs ?p ?d ?x] =>
          specialize (IH p d x);
          destruct (run_string_checks isUuid isUrl cs p d x)
      end; simpl in *; constructor; auto using below_refl_issue.
Qed.

(** The checks leave the status as it was exactly when they add no issue. *)
Lemma run_string_checks_status : forall checks path s st,
  let r := run_string_checks isUuid isUrl checks path s st in
  (snd r = [] /\ fst r = st) \/ (snd r <> [] /\ fst r = mark_dirty st).
Proof.
  induction checks as [|c checks IH]; intros path s st; simpl.
  - now left.
  - destruct c; simpl;
      match goal with
      | |- context [if ?b then _ else _] => destruct b
      end; simpl; auto;
      match goal with
      | |- context [run_string_checks _ _ ?cs ?p ?d ?x] =>
          specialize (IH p d x);
          destruct (run_string_checks isUuid isUrl cs p d x)
      end; simpl in *; right; (split; [discriminate|]);
      destruct IH as [[_ ->]|[_ ->]]; now destruct st.
Qed.

Lemma run_number_checks_below : forall checks path x st,
  Forall (below path) (snd (run_number_checks checks path x st)).
Proof.
  induction checks as [|c checks IH]; intros path x st; simpl.
  - constructor.
  - destruct c as [bound inclusive m].
    destruct (if inclusive then _ else _); auto.
    specialize (IH path x (mark_dirty st)).
    destruct (run_number_checks checks path x (mark_dirty st)); simpl in *.
    constructor; auto using below_refl_issue.
Qed.

Lemma run_number_checks_status : forall checks path x st,
  let r := run_number_checks checks path x st in
  (snd r = [] /\ fst r = st) \/ (snd r <> [] /\ fst r = mark_dirty st).
Proof.
  induction checks as [|c checks IH]; intros path x st; simpl.
  - now left.
  - destruct c as [bound inclusive m].
    destruct (if inclusive then _ else _); auto.
    specialize (IH path x (mark_dirty st)).
    destruct (run_number_checks checks path x (mark_dirty st)); simpl in *.
    right. split; [discriminate|].
    destruct IH as [[_ ->]|[_ ->]]; now destruct st.
Qed.


Lemma concat_nonempty : forall (A : Type) (ls : list (list A)) l,
  In l ls -> l <> [] -> concat ls <> [].
Proof.
  induction ls as [|x ls IH]; simpl; intros l Hin Hl; [easy|].
  destruct Hin as [->|Hin].
  - destruct l; [easy|discriminate].
  - intro H. apply app_eq_nil in H. destruct H as [_ H]. eapply IH; eauto.
Qed.

Lemma mergeArray_reports : forall (results : list Parsed),
  Forall reports results ->
  forall st acc,
    isValid (mergeArray st (map fst results) acc) = false ->
    st <> valid \/ concat (map snd results) <> [].
Proof.
  induction 1 as [|[r issues] results Hr _ IH]; simpl; intros st acc Hv.
  - left. now destruct st.
  - destruct r as [|v|v]; simpl in *.
    + right. specialize (Hr eq_refl). simpl in Hr.
      destruct issues; [easy|discriminate].
    + right. specialize (Hr eq_refl). simpl in Hr.
      destruct issues; [easy|discriminate].
    + destruct (IH _ _ Hv) as [Hst|Hc]; [now left|right].
      intro H. apply app_eq_nil in H. now destruct H.
Qed.

Lemma mergeObjectSync_reports : forall (results : list (Pair * list ZodIssue)),
  Forall (fun r => isValid (pair_key (fst r)) && isValid (pair_value (fst r)) = false
                   -> snd r <> []) results ->
  forall st acc,
    isValid (mergeObjectSync st (map fst results) acc) = false ->
    st <> valid \/ concat (map snd results) <> [].
Proof.
  induction 1 as [|[p issues] results Hr _ IH]; simpl; intros st acc Hv.
  - left. now destruct st.
  - destruct p as [k v always]; simpl in *.
    destruct k as [|kv|kv], v as [|vv|vv]; simpl in *;
      try (right; specialize (Hr eq_refl); destruct issues; [easy|discriminate]).
    destruct (IH _ _ Hv) as [Hst|Hc]; [now left|right].
    intro H. apply app_eq_nil in H. now destruct H.
Qed.

Lemma parse_items_Forall : forall (Q : Path -> Parsed -> Prop) f path items i,
  (forall p v, Q p (f p v)) ->
  Forall (fun r => exists j, Q (path ++ [Index j]) r) (parse_items f path items i).
Proof.
  induction items as [|item items IH]; simpl; intros i H; constructor; eauto.
Qed.

Lemma parse_tuple_items_Forall : forall (Q : Path -> Parsed -> Prop) f path schemas items i,
  (forall s p v, In s schemas -> Q p (f s p v)) ->
  Forall (fun r => exists j, Q (path ++ [Index j]) r)
         (parse_tuple_items f path schemas items i).
Proof.
  induction schemas as [|s schemas IH]; intros items i H; [constructor|].
  destruct items as [|item items]; [constructor|]. simpl. constructor.
  - exists i. apply H. now left.
  - apply IH. intros. apply H. now right.
Qed.

Lemma merge_union_below : forall path results,
  Forall (fun r => Forall (below path) (snd r)) results ->
  Forall (below path) (snd (merge_union path results)).
Proof.
  intros path results H. unfold merge_union.
  destruct (first_valid results); [constructor|].
  destruct (first_dirty results) as [d|] eqn:E.
  - clear - H E. induction H as [|[r i] results Hr _ IH]; simpl in E; [discriminate|].
    destruct r; auto. injection E as <-. exact Hr.
  - simpl. constructor; [apply below_refl_issue|constructor].
Qed.

Lemma merge_union_reports : forall path results,
  Forall reports results -> reports (merge_union path results).
Proof.
  intros path results H. unfold merge_union, reports.
  destruct (first_valid results) as [r|] eqn:V.
  - clear - V. induction results as [|[r' i] results IH]; simpl in V; [discriminate|].
    destruct r'; auto. injection V as <-. simpl. discriminate.
  - destruct (first_dirty results) as [d|] eqn:E; [|simpl; discriminate].
    clear - H E. induction H as [|[r i] results Hr _ IH]; simpl in E; [discriminate|].
    destruct r; auto. injection E as <-. exact Hr.
Qed.

(** Every issue a parser adds lies below the path it parses at. *)
Lemma parse_below : forall schema now path data,
  Forall (below path) (snd (parse schema now path data)).
Proof.
  induction schema using ZodType_induction; intros now path data; simpl.
  - destruct data; simpl; try (repeat constructor; apply below_refl_issue).
    pose proof (run_string_checks_below checks path s valid) as H.
    destruct (run_string_checks isUuid isUrl checks path s valid); exact H.
  - destruct data; simpl; try (repeat constructor; apply below_refl_issue).
    destruct (PrimFloat.is_nan x); simpl;
      try (repeat constructor; apply below_refl_issue).
    pose proof (run_number_checks_below checks path x valid) as H.
    destruct (run_number_checks checks path x valid); exact H.
  - destruct data; simpl; repeat constructor; apply below_refl_issue.
  - destruct data as [| | | | |[t|]| |]; simpl; repeat constructor; apply below_refl_issue.
  - constructor.
  - destruct data; simpl; try (repeat constructor; apply below_refl_issue).
    destruct (String.eqb s lit); simpl; repeat constructor; apply below_refl_issue.
  - destruct data; simpl; try (repeat constructor; apply below_refl_issue).
    destruct (existsb (String.eqb s) values); simpl; repeat constructor;
      apply below_refl_issue.
  - destruct data; simpl; try (repeat constructor; apply below_refl_issue).
    assert (Hitems : Forall (below path)
              (concat (map snd (parse_items (fun p item => parse schema now p item)
                                            path items 0)))).
    { apply Forall_concat. apply Forall_map.
      eapply Forall_impl;
        [|apply (parse_items_Forall (fun p r => Forall (below p) (snd r)));
          intros; apply IHschema].
      intros r [j Hj]. simpl in Hj. eapply Forall_impl; [|exact Hj].
      intros i. apply below_step. }
    destruct minLength as [[n m]|]; simpl; auto.
    destruct (Nat.ltb (length items) n); simpl; auto.
    constructor; [apply below_refl_issue|auto].
  - destruct data; simpl; try (repeat constructor; apply below_refl_issue).
    destruct (Nat.ltb (length items0) (length items)); simpl;
      [repeat constructor; apply below_refl_issue|].
    assert (Hitems : Forall (below path)
              (concat (map snd (parse_tuple_items (fun s p item => parse s now p item)
                                                  path items items0 0)))).
    { apply Forall_concat. apply Forall_map.
      eapply Forall_impl;
        [|apply (parse_tuple_items_Forall (fun p r => Forall (below p) (snd r)));
          intros s p v Hs; rewrite Forall_forall in H; now apply H].
      intros r [j Hj]. simpl in Hj. eapply Forall_impl; [|exact Hj].
      intros i. apply below_step. }
    destruct (Nat.ltb (length items) (length items0)); simpl; auto.
    constructor; [apply below_refl_issue|auto].
  - destruct data; simpl; try (repeat constructor; apply below_refl_issue).
    apply Forall_concat. rewrite map_map. apply Forall_map.
    apply Forall_forall. intros [k v] _. simpl. apply Forall_app. split.
    + eapply Forall_impl; [|apply IHschema1]. intros x. apply below_step.
    + eapply Forall_impl; [|apply IHschema2]. intros x. apply below_step.
  - apply merge_union_below. apply Forall_map.
    eapply Forall_impl; [|exact H]. intros s Hs. apply Hs.
  - destruct data; simpl; try (repeat constructor; apply below_refl_issue).
    apply Forall_concat. rewrite map_map. apply Forall_map.
    eapply Forall_impl; [|exact H]. intros [k s] Hs. simpl in *.
    eapply Forall_impl; [|apply Hs]. intros x. apply below_step.
  - destruct data; simpl; try apply IHschema. constructor.
  - destruct data; simpl; apply IHschema.
Qed.

(** A parser that does not return a valid result has added an issue. *)
Lemma parse_reports : forall schema now path data,
  reports (parse schema now path data).
Proof.
  induction schema using ZodType_induction; intros now path data; unfold reports; simpl.
  - destruct data; simpl; try discriminate.
    pose proof (run_string_checks_status checks path s valid) as H.
    destruct (run_string_checks isUuid isUrl checks path s valid) as [st issues].
    simpl in *. destruct H as [[_ ->]|[H _]]; [discriminate|auto].
  - destruct data; simpl; try discriminate.
    destruct (PrimFloat.is_nan x); simpl; try discriminate.
    pose proof (run_number_checks_status checks path x valid) as H.
    destruct (run_number_checks checks path x valid) as [st issues].
    simpl in *. destruct H as [[_ ->]|[H _]]; [discriminate|auto].
  - destruct data; simpl; discriminate.
  - destruct data as [| | | | |[t|]| |]; simpl; discriminate.
  - discriminate.
  - destruct data; simpl; try discriminate.
    destruct (String.eqb s lit); simpl; discriminate.
  - destruct data; simpl; try discriminate.
    destruct (existsb (String.eqb s) values); simpl; discriminate.
  - destruct data; simpl; try discriminate.
    intros Hv.
    assert (Hr : Forall reports
              (parse_items (fun p item => parse schema now p item) path items 0)).
    { eapply Forall_impl;
        [|apply (parse_items_Forall (fun _ r => reports r)); intros; apply IHschema].
      now intros r [_ Hr]. }
    destruct minLength as [[n m]|]; simpl in *.
    + destruct (Nat.ltb (length items) n); simpl in *; [discriminate|].
      destruct (mergeArray_reports _ Hr _ _ Hv); [easy|auto].
    + destruct (mergeArray_reports _ Hr _ _ Hv); [easy|auto].
  - destruct data; simpl; try discriminate.
    destruct (Nat.ltb (length items0) (length items)); simpl; [discriminate|].
    assert (Hr : Forall reports
              (parse_tuple_items (fun s p item => parse s now p item)
                                 path items items0 0)).
    { eapply Forall_impl;
        [|apply (parse_tuple_items_Forall (fun _ r => reports r));
          intros s p v Hs; rewrite Forall_forall in H; now apply H].
      now intros r [_ Hr]. }
    intros Hv.
    destruct (Nat.ltb (length items) (length items0)); simpl in *; [discriminate|].
    destruct (mergeArray_reports _ Hr _ _ Hv); [easy|auto].
  - destruct data; simpl; try discriminate.
    intros Hv. rewrite map_map in *.
    match type of Hv with
    | context [map ?f props] =>
        assert (Hr : Forall (fun r => isValid (pair_key (fst r))
                                      && isValid (pair_value (fst r)) = false
                                      -> snd r <> [])
                       (map (fun e => (f e, (fun e0 : string * value =>
                          snd (parse schema1 now (path ++ [Key (fst e0)]) (VString (fst e0)))
                          ++ snd (parse schema2 now (path ++ [Key (fst e0)]) (get props (fst e0)))) e)) props))
    end.
    { apply Forall_map. apply Forall_forall. intros [k v] _. simpl.
      intros Hb. apply andb_false_iff in Hb. intro Hnil.
      apply app_eq_nil in Hnil. destruct Hnil as [H1 H2].
      destruct Hb as [Hb|Hb].
      - now apply (IHschema1 now (path ++ [Key k]) (VString k)).
      - now apply (IHschema2 now (path ++ [Key k]) (get props k)). }
    pose proof (mergeObjectSync_reports _ Hr valid []) as M.
    rewrite !map_map in M. simpl in M.
    destruct (M Hv); [easy|auto].
  - apply merge_union_reports. apply Forall_map.
    eapply Forall_impl; [|exact H]. intros s Hs. apply Hs.
  - destruct data; simpl; try discriminate.
    intros Hv. rewrite map_map in *.
    assert (Hr : Forall (fun r => isValid (pair_key (fst r))
                                  && isValid (pair_value (fst r)) = false
                                  -> snd r <> [])
                   (map (fun field : string * ZodType =>
                      (mkPair (OK (VString (fst field)))
                         (fst (parse (snd field) now (path ++ [Key (fst field)])
                                 (get props (fst field))))
                         (has props (fst field)),
                       snd (parse (snd field) now (path ++ [Key (fst field)])
                              (get props (fst field))))) shape)).
    { apply Forall_map. eapply Forall_impl; [|exact H].
      intros [k s] Hs. simpl in *. intros Hb. now apply Hs. }
    pose proof (mergeObjectSync_reports _ Hr valid []) as M.
    rewrite !map_map in M. simpl in M.
    destruct (M Hv); [easy|auto].
  - destruct data; simpl; try apply IHschema. discriminate.
  - destruct data; simpl; apply IHschema.
Qed.


(** *** Object schemas, field by field *)

Lemma parse_object_issues : forall shape now path props,
  snd (parse (ZodObject shape) now path (VObject props))
  = concat (map (fun field => snd (parse_field isUuid isUrl (snd field) now path props (fst field)))
                shape).
Proof. intros. simpl. now rewrite map_map. Qed.

Lemma mergeObjectSync_valid_inv : forall pairs st acc,
  isValid (mergeObjectSync st pairs acc) = true ->
  st = valid /\ Forall (fun p => isValid (pair_value p) = true) pairs.
Proof.
  induction pairs as [|p pairs IH]; simpl; intros st acc H.
  - split; [now destruct st|constructor].
  - destruct p as [k v always]; simpl in *.
    destruct k as [|kv|kv], v as [|vv|vv]; simpl in *; try discriminate;
      apply IH in H; destruct H as [Hst H]; try (now destruct st).
    split; [exact Hst|constructor; auto].
Qed.

(** A field that is not valid makes the object not valid. *)
Lemma parse_object_field_invalid : forall shape now path props key schema,
  In (key, schema) shape ->
  isValid (fst (parse_field isUuid isUrl schema now path props key)) = false ->
  isValid (fst (parse (ZodObject shape) now path (VObject props))) = false.
Proof.
  intros shape now path props key schema Hin Hf.
  destruct (isValid (fst (parse (ZodObject shape) now path (VObject props)))) eqn:E; [|easy].
  simpl in E. apply mergeObjectSync_valid_inv in E. destruct E as [_ E].
  rewrite map_map in E. rewrite Forall_map in E. rewrite Forall_forall in E.
  specialize (E _ Hin). simpl in E. unfold parse_field in Hf. congruence.
Qed.

(** A field that is not valid has an issue below its key among the issues
    of the object. *)
Lemma parse_object_field_issue : forall shape now path props key schema,
  In (key, schema) shape ->
  isValid (fst (parse_field isUuid isUrl schema now path props key)) = false ->
  Exists (below (path ++ [Key key]))
         (snd (parse (ZodObject shape) now path (VObject props))).
Proof.
  intros shape now path props key schema Hin Hf.
  rewrite parse_object_issues.
  pose proof (parse_reports schema now (path ++ [Key key]) (get props key) Hf) as Hne.
  pose proof (parse_below schema now (path ++ [Key key]) (get props key)) as Hb.
  fold (parse_field isUuid isUrl schema now path props key) in Hne, Hb.
  destruct (snd (parse_field isUuid isUrl schema now path props key)) as [|i issues] eqn:E; [easy|].
  apply Exists_exists. exists i. split.
  - apply in_concat. exists (i :: issues). split; [|now left].
    apply in_map_iff. exists (key, schema). simpl. now rewrite E.
  - now inversion Hb.
Qed.

(** Every issue of an object lies below the key of one of its fields. *)
Lemma parse_object_issue_field : forall shape now path props i,
  In i (snd (parse (ZodObject shape) now path (VObject props))) ->
  exists key schema, In (key, schema) shape /\ below (path ++ [Key key]) i.
Proof.
  intros shape now path props i Hin.
  rewrite parse_object_issues in Hin. apply in_concat in Hin.
  destruct Hin as (issues & Hissues & Hi).
  apply in_map_iff in Hissues. destruct Hissues as ([key schema] & <- & Hf).
  exists key, schema. split; [exact Hf|].
  pose proof (parse_below schema now (path ++ [Key key]) (get props key)) as Hb.
  rewrite Forall_forall in Hb. now apply Hb.
Qed.

(** [safeParse] never throws: a failure always carries its issues. *)
Lemma safeParse_total : forall schema now data,
  (exists out, safeParse isUuid isUrl schema now data = SafeParseSuccess out
               /\ fst (parse schema now [] data) = OK out)
  \/ (exists issues, safeParse isUuid isUrl schema now data = SafeParseError issues
                     /\ issues = snd (parse schema now [] data)
                     /\ issues <> []
                     /\ isValid (fst (parse schema now [] data)) = false).
Proof.
  intros schema now data. unfold safeParse.
  pose proof (parse_reports schema now [] data) as Hr. unfold reports in Hr.
  destruct (parse schema now [] data) as [r issues]; simpl in *.
  destruct r as [|v|v]; [right|right|left; eauto];
    specialize (Hr eq_refl); (destruct issues; [easy|]);
    eexists; repeat split; discriminate.
Qed.

End Issues.

(** ** Clock independence *)

Lemma fold_right_and_Forall : forall (A : Type) (P : A -> Prop) l,
  fold_right (fun x acc => P x /\ acc) True l <-> Forall P l.
Proof.
  induction l as [|x l IH]; simpl.
  - split; constructor.
  - rewrite IH. split.
    + intros [H1 H2]. now constructor.
    + intros H. now inversion H.
Qed.

Section Clock.

Variable isUuid : string -> bool.
Variable isUrl : string -> bool.

Abbreviation parse := (_parse isUuid isUrl).

Lemma parse_items_ext : forall f g path items i,
  (forall p v, f p v = g p v) ->
  parse_items f path items i = parse_items g path items i.
Proof.
  induction items as [|item items IH]; simpl; intros i H; [reflexivity|].
  now rewrite H, IH.
Qed.

Lemma parse_tuple_unfold : forall schemas now path items,
  parse (ZodTuple schemas) now path (VArray items)
  = let n := List.length schemas in
    if Nat.ltb (List.length items) n then
      (INVALID, [Issue (too_small (sized_array n) true false) path None])
    else
      let (status, own) :=
        if Nat.ltb n (List.length items)
        then (dirty, [Issue (too_big (sized_array n) true false) path None])
        else (valid, []) in
      let results :=
        parse_tuple_items (fun s p v => parse s now p v) path schemas items 0 in
      (mergeArray status (map fst results) [], own ++ concat (map snd results)).
Proof. reflexivity. Qed.

Lemma parse_tuple_items_ext : forall f g path schemas items i,
  (forall s p v, In s schemas -> f s p v = g s p v) ->
  parse_tuple_items f path schemas items i = parse_tuple_items g path schemas items i.
Proof.
  induction schemas as [|s schemas IH]; intros items i H; [reflexivity|].
  destruct items as [|item items]; [reflexivity|]. simpl.
  rewrite H by now left. rewrite IH; [reflexivity|].
  intros. apply H. now right.
Qed.

(** A schema with constant defaults parses the same at every clock. *)
Lemma parse_clock_independent : forall schema,
  constant_defaults schema ->
  forall now1 now2 path data,
    parse schema now1 path data = parse schema now2 path data.
Proof.
  induction schema using ZodType_induction; intros Hc now1 now2 path data;
    try reflexivity.
  - simpl in *. destruct data; try reflexivity.
    rewrite (parse_items_ext _ (fun p item => parse schema now2 p item)); [reflexivity|].
    intros. now apply IHschema.
  - destruct data; try reflexivity.
    simpl in Hc. apply fold_right_and_Forall in Hc.
    rewrite !parse_tuple_unfold.
    rewrite (parse_tuple_items_ext _ (fun s p v => parse s now2 p v)); [reflexivity|].
    rewrite Forall_forall in H, Hc. intros s p v Hs. now apply H, Hc.
  - simpl in *. destruct data; try reflexivity. destruct Hc as [H1 H2].
    match goal with
    | |- (mergeObjectSync _ (map fst ?A) _, _) = (mergeObjectSync _ (map fst ?B) _, _) =>
        assert (E : A = B); [|now rewrite E]
    end.
    apply map_ext. intros [k v]. simpl.
    now rewrite (IHschema1 H1 now1 now2), (IHschema2 H2 now1 now2).
  - simpl in *. apply fold_right_and_Forall in Hc. f_equal.
    apply map_ext_in. intros s Hs. rewrite Forall_forall in H, Hc. now apply H, Hc.
  - simpl in *. destruct data; try reflexivity.
    apply fold_right_and_Forall in Hc.
    match goal with
    | |- (mergeObjectSync _ (map fst ?A) _, _) = (mergeObjectSync _ (map fst ?B) _, _) =>
        assert (E : A = B); [|now rewrite E]
    end.
    apply map_ext_in. intros [k s] Hs. simpl. rewrite Forall_forall in H, Hc.
    now rewrite (H _ Hs (Hc _ Hs) now1 now2).
  - simpl in *. destruct data; try reflexivity; now apply IHschema.
  - simpl in *. destruct Hc as [Hc Hd]. destruct data; try now apply IHschema.
    rewrite (Hd now1 now2). now apply IHschema.
Qed.


End Clock.

(** ** Idempotence *)

Section Idempotence.

Variable isUuid : string -> bool.
Variable isUrl : string -> bool.

Abbreviation parse := (_parse isUuid isUrl).

Lemma run_string_checks_path : forall checks p1 p2 s st,
  fst (run_string_checks isUuid isUrl checks p1 s st)
  = fst (run_string_checks isUuid isUrl checks p2 s st).
Proof.
  induction checks as [|c checks IH]; intros p1 p2 s st; simpl; [reflexivity|].
  destruct c; simpl;
    match goal with
    | |- context [if ?b then _ else _] => destruct b
    end; simpl; auto;
    specialize (IH p1 p2 s (mark_dirty st));
    destruct (run_string_checks isUuid isUrl checks p1 s (mark_dirty st)),
             (run_string_checks isUuid isUrl checks p2 s (mark_dirty st));
    exact IH.
Qed.

Lemma run_number_checks_path : forall checks p1 p2 x st,
  fst (run_number_checks checks p1 x st) = fst (run_number_checks checks p2 x st).
Proof.
  induction checks as [|c checks IH]; intros p1 p2 x st; simpl; [reflexivity|].
  destruct c as [bound inclusive m].
  destruct (if inclusive then _ else _); auto.
  specialize (IH p1 p2 x (mark_dirty st)).
  destruct (run_number_checks checks p1 x (mark_dirty st)),
           (run_number_checks checks p2 x (mark_dirty st)); exact IH.
Qed.

Lemma parse_items_results : forall f g p1 p2 items i j,
  (forall q1 q2 v, fst (f q1 v) = fst (g q2 v)) ->
  map fst (parse_items f p1 items i) = map fst (parse_items g p2 items j).
Proof.
  induction items as [|item items IH]; simpl; intros i j H; [reflexivity|].
  now rewrite (H _ (p2 ++ [Index j])), (IH (S i) (S j)).
Qed.

Lemma parse_tuple_items_results : forall f g p1 p2 schemas items i j,
  (forall s q1 q2 v, In s schemas -> fst (f s q1 v) = fst (g s q2 v)) ->
  map fst (parse_tuple_items f p1 schemas items i)
  = map fst (parse_tuple_items g p2 schemas items j).
Proof.
  induction schemas as [|s schemas IH]; intros items i j H; [reflexivity|].
  destruct items as [|item items]; [reflexivity|]. simpl.
  rewrite (H s _ (p2 ++ [Index j])) by now left.
  rewrite (IH items (S i) (S j)); [reflexivity|].
  intros. apply H. now right.
Qed.

Lemma first_valid_results : forall r1 r2 : list Parsed,
  map fst r1 = map fst r2 -> first_valid r1 = first_valid r2.
Proof.
  induction r1 as [|[a i] r1 IH]; intros [|[b j] r2] E; try discriminate;
    [reflexivity|].
  simpl in *. injection E as -> E. destruct b; auto.
Qed.

Lemma first_dirty_results : forall r1 r2 : list Parsed,
  map fst r1 = map fst r2 ->
  option_map fst (first_dirty r1) = option_map fst (first_dirty r2).
Proof.
  induction r1 as [|[a i] r1 IH]; intros [|[b j] r2] E; try discriminate;
    [reflexivity|].
  simpl in *. injection E as -> E. destruct b; auto.
Qed.

Lemma merge_union_results : forall p1 p2 (r1 r2 : list Parsed),
  map fst r1 = map fst r2 ->
  fst (merge_union p1 r1) = fst (merge_union p2 r2).
Proof.
  intros p1 p2 r1 r2 E. unfold merge_union.
  rewrite (first_valid_results r1 r2 E).
  destruct (first_valid r2); [reflexivity|].
  pose proof (first_dirty_results r1 r2 E) as D.
  destruct (first_dirty r1) as [[a i]|], (first_dirty r2) as [[b j]|];
    simpl in *; congruence.
Qed.

(** The result of a parser does not depend on the path: only the issues
    carry it. *)
Lemma parse_result_path_independent : forall schema now p1 p2 data,
  fst (parse schema now p1 data) = fst (parse schema now p2 data).
Proof.
  induction schema using ZodType_induction; intros now p1 p2 data;
    try reflexivity.
  - destruct data; simpl; try reflexivity.
    pose proof (run_string_checks_path checks p1 p2 s valid) as E.
    destruct (run_string_checks isUuid isUrl checks p1 s valid),
             (run_string_checks isUuid isUrl checks p2 s valid).
    simpl in *. now rewrite E.
  - destruct data; simpl; try reflexivity.
    destruct (PrimFloat.is_nan x); try reflexivity.
    pose proof (run_number_checks_path checks p1 p2 x valid) as E.
    destruct (run_number_checks checks p1 x valid),
             (run_number_checks checks p2 x valid).
    simpl in *. now rewrite E.
  - destruct data; reflexivity.
  - destruct data as [| | | | |[t|]| |]; reflexivity.
  - destruct data; simpl; try reflexivity. destruct (String.eqb s lit); reflexivity.
  - destruct data; simpl; try reflexivity.
    destruct (existsb (String.eqb s) values); reflexivity.
  - destruct data; simpl; try reflexivity.
    rewrite (parse_items_results _ (fun p item => parse schema now p item) p1 p2 items 0 0)
      by (intros; now apply IHschema).
    destruct minLength as [[n m]|]; [|reflexivity].
    destruct (Nat.ltb (length items) n); reflexivity.
  - destruct data; try reflexivity.
    rewrite !parse_tuple_unfold. cbv zeta.
    destruct (Nat.ltb (length items0) (length items)); [reflexivity|].
    rewrite (parse_tuple_items_results _ (fun s p v => parse s now p v) p1 p2 items items0 0 0).
    + destruct (Nat.ltb (length items) (length items0)); reflexivity.
    + rewrite Forall_forall in H. intros s q1 q2 v Hs. now apply H.
  - destruct data; simpl; try reflexivity.
    rewrite !map_map. simpl. f_equal.
    apply map_ext. intros [k v]. simpl.
    now rewrite (IHschema1 now (p1 ++ [Key k]) (p2 ++ [Key k])),
                (IHschema2 now (p1 ++ [Key k]) (p2 ++ [Key k])).
  - simpl. apply merge_union_results. rewrite !map_map.
    apply map_ext_in. intros s Hs. rewrite Forall_forall in H. now apply H.
  - destruct data; simpl; try reflexivity.
    rewrite !map_map. simpl. f_equal.
    apply map_ext_in. intros [k s] Hs. simpl. rewrite Forall_forall in H.
    now rewrite (H _ Hs now (p1 ++ [Key k]) (p2 ++ [Key k])).
  - destruct data; simpl; try reflexivity; now apply IHschema.
  - destruct data; simpl; now apply IHschema.
Qed.

Lemma regular_constant_defaults : forall schema,
  regular schema -> constant_defaults schema.
Proof.
  induction schema using ZodType_induction; simpl; auto.
  - intros Hr. apply fold_right_and_Forall in Hr. apply fold_right_and_Forall.
    rewrite Forall_forall in *. intros s Hs. apply H; auto.
  - destruct schema1; try easy. simpl. auto.
  - intros [_ Hr]. apply fold_right_and_Forall in Hr. apply fold_right_and_Forall.
    rewrite Forall_forall in *. intros s Hs. apply H; auto.
  - intros (_ & _ & Hr). apply fold_right_and_Forall in Hr.
    apply fold_right_and_Forall. rewrite Forall_forall in *.
    intros f Hf. apply H; auto.
  - intros [Hr Hd]. auto.
Qed.

(** The result of a regular schema depends on neither the clock nor the
    path. *)
Lemma parse_result_independent : forall schema,
  regular schema ->
  forall now1 now2 p1 p2 data,
    fst (parse schema now1 p1 data) = fst (parse schema now2 p2 data).
Proof.
  intros schema Hr now1 now2 p1 p2 data.
  rewrite (parse_clock_independent isUuid isUrl schema
             (regular_constant_defaults schema Hr) now1 now2).
  apply parse_result_path_independent.
Qed.

Lemma mergeArray_OK : forall results st acc out,
  mergeArray st results acc = OK out ->
  st = valid /\ exists vs, results = map OK vs /\ out = VArray (acc ++ vs).
Proof.
  induction results as [|r results IH]; simpl; intros st acc out H.
  - destruct st; try discriminate. injection H as <-.
    split; [reflexivity|]. exists []. now rewrite app_nil_r.
  - destruct r as [|v|v]; try discriminate.
    + apply IH in H. destruct H as [Hst _]. now destruct st.
    + apply IH in H. destruct H as (Hst & vs & -> & ->).
      split; [exact Hst|]. exists (v :: vs). now rewrite <- app_assoc.
Qed.

Lemma mergeArray_OKs : forall vs acc,
  mergeArray valid (map OK vs) acc = OK (VArray (acc ++ vs)).
Proof.
  induction vs as [|v vs IH]; simpl; intros acc.
  - now rewrite app_nil_r.
  - rewrite IH. now rewrite <- app_assoc.
Qed.

Lemma parse_items_again : forall f g p p' items vs i j,
  map fst (parse_items f p items i) = map OK vs ->
  (forall q v out, fst (f q v) = OK out -> forall q', fst (g q' out) = OK out) ->
  map fst (parse_items g p' vs j) = map OK vs.
Proof.
  induction items as [|item items IH]; intros vs i j E H; destruct vs as [|v vs];
    try discriminate; [reflexivity|].
  simpl in *. injection E as E1 E2.
  rewrite (H _ _ _ E1). f_equal. eapply IH; eauto.
Qed.

Lemma parse_tuple_items_again : forall f g p p' schemas items vs i j,
  length items = length schemas ->
  map fst (parse_tuple_items f p schemas items i) = map OK vs ->
  (forall s q v out, In s schemas -> fst (f s q v) = OK out ->
                     forall q', fst (g s q' out) = OK out) ->
  length vs = length schemas
  /\ map fst (parse_tuple_items g p' schemas vs j) = map OK vs.
Proof.
  induction schemas as [|s schemas IH]; intros items vs i j L E H;
    destruct items as [|item items]; try discriminate; destruct vs as [|v vs];
    try discriminate; [now split|].
  simpl in *. injection L as L. injection E as E1 E2.
  destruct (IH items vs (S i) (S j) L E2) as [L' E'].
  { intros. eapply H; eauto. }
  split; [now rewrite L'|].
  rewrite (H s _ _ _ (or_introl eq_refl) E1). now f_equal.
Qed.

(** *** What [mergeObjectSync] writes for an object schema *)

Lemma mergeObjectSync_written : forall shape R A,
  NoDup (keys shape) -> ~ In "__proto__" (keys shape) ->
  forall st acc out,
    (forall k, In k (keys shape) -> has acc k = false) ->
    mergeObjectSync st (pairs_of shape R A) acc = OK out ->
    st = valid
    /\ (forall f, In f shape -> R f = OK (result_value (R f)))
    /\ out = VObject (acc ++ written shape R A).
Proof.
  induction shape as [|[k s] shape IH]; simpl; intros R A Hnd Hproto st acc out Hacc H.
  - destruct st; try discriminate. injection H as <-.
    repeat split; [easy|now rewrite app_nil_r].
  - inversion Hnd as [|? ? Hk Hnd']; subst.
    assert (Hp : String.eqb k "__proto__" = false).
    { apply String.eqb_neq. intro E. apply Hproto. now left. }
    destruct (R (k, s)) as [|v|v] eqn:ER; simpl in H; try discriminate.
    + apply IH in H; auto.
      * destruct H as [Hst _]. now destruct st.
      * intros k' Hk'. destruct (negb (String.eqb k "__proto__") && _); auto.
        rewrite has_set. rewrite Hacc by now right.
        destruct (String.eqb_spec k k'); [now subst|reflexivity].
    + rewrite Hp in H. simpl in H. unfold kept. simpl.
      destruct (negb (is_undefined v) || A (k, s)) eqn:EK.
      * rewrite set_fresh in H by (apply Hacc; now left).
        apply IH in H; auto.
        -- destruct H as (Hst & HR & ->). repeat split; auto.
           ++ intros f [<-|Hf]; [now rewrite ER|auto].
           ++ now rewrite <- app_assoc.
        -- intros k' Hk'. unfold has. fold (@has value).
           rewrite <- (app_nil_r acc) at 1.
           assert (G : forall (l : list (string * value)) l', has (l ++ l') k' = has l k' || has l' k').
           { induction l as [|[k0 v0] l IHl]; simpl; intros; [reflexivity|].
             now rewrite IHl, orb_assoc. }
           rewrite app_nil_r, G. simpl. rewrite Hacc by now right.
           destruct (String.eqb_spec k k'); [now subst|reflexivity].
      * apply IH in H; auto.
        destruct H as (Hst & HR & ->). repeat split; auto.
        intros f [<-|Hf]; [now rewrite ER|auto].
Qed.


Lemma mergeObjectSync_writes : forall shape R A,
  NoDup (keys shape) -> ~ In "__proto__" (keys shape) ->
  (forall f, In f shape -> R f = OK (result_value (R f))) ->
  forall acc,
    (forall k, In k (keys shape) -> has acc k = false) ->
    mergeObjectSync valid (pairs_of shape R A) acc
    = OK (VObject (acc ++ written shape R A)).
Proof.
  induction shape as [|[k s] shape IH]; simpl; intros R A Hnd Hproto HR acc Hacc.
  - now rewrite app_nil_r.
  - inversion Hnd as [|? ? Hk Hnd']; subst.
    assert (Hp : String.eqb k "__proto__" = false).
    { apply String.eqb_neq. intro E. apply Hproto. now left. }
    rewrite (HR (k, s)) by now left. simpl. rewrite Hp. simpl.
    fold (kept (result_value (R (k, s))) (A (k, s))).
    destruct (kept (result_value (R (k, s))) (A (k, s))).
    + rewrite set_fresh by (apply Hacc; now left).
      rewrite IH; auto.
      * now rewrite <- app_assoc.
      * intros k' Hk'.
        assert (G : forall (l : list (string * value)) l', has (l ++ l') k' = has l k' || has l' k').
        { induction l as [|[k0 v0] l IHl]; simpl; intros; [reflexivity|].
          now rewrite IHl, orb_assoc. }
        rewrite G. simpl. rewrite Hacc by now right.
        destruct (String.eqb_spec k k'); [now subst|reflexivity].
    + rewrite IH; auto.
Qed.

Lemma has_written_absent : forall shape R A k,
  ~ In k (keys shape) -> has (written shape R A) k = false.
Proof.
  induction shape as [|[k0 s] shape IH]; simpl; intros R A k Hk; [reflexivity|].
  destruct (kept _ _); simpl.
  - rewrite IH by tauto.
    destruct (String.eqb_spec k0 k); [subst; tauto|reflexivity].
  - apply IH. tauto.
Qed.

Lemma get_written : forall shape R A f,
  NoDup (keys shape) -> In f shape ->
  get (written shape R A) (fst f)
  = (if kept (result_value (R f)) (A f) then result_value (R f) else VUndefined)
  /\ has (written shape R A) (fst f) = kept (result_value (R f)) (A f).
Proof.
  induction shape as [|[k0 s] shape IH]; simpl; intros R A f Hnd Hin; [easy|].
  inversion Hnd as [|? ? Hk Hnd']; subst.
  destruct Hin as [<-|Hin]; simpl.
  - destruct (kept _ _); simpl.
    + now rewrite String.eqb_refl.
    + pose proof (has_written_absent shape R A k0 Hk) as Hw.
      now rewrite (get_absent _ _ Hw).
  - assert (Hne : String.eqb k0 (fst f) = false).
    { apply String.eqb_neq. intros ->. apply Hk. now apply in_map. }
    destruct (kept (result_value (R (k0, s))) (A (k0, s))); simpl.
    + rewrite Hne. simpl. now apply IH.
    + now apply IH.
Qed.

Lemma written_ext : forall shape R A R' A',
  (forall f, In f shape ->
     R' f = R f
     /\ kept (result_value (R f)) (A' f) = kept (result_value (R f)) (A f)) ->
  written shape R' A' = written shape R A.
Proof.
  induction shape as [|f shape IH]; simpl; intros R A R' A' H; [reflexivity|].
  destruct (H f (or_introl eq_refl)) as [-> ->].
  f_equal. apply IH. intros. apply H. now right.
Qed.

(** *** What [mergeObjectSync] writes for a record schema *)

Lemma has_app : forall (A : Type) (l l' : list (string * A)) k,
  has (l ++ l') k = has l k || has l' k.
Proof.
  induction l as [|[k0 v0] l IH]; simpl; intros; [reflexivity|].
  now rewrite IH, orb_assoc.
Qed.

Lemma In_get : forall props key v,
  NoDup (keys props) -> In (key, v) props -> get props key = v.
Proof.
  induction props as [|[k w] props IH]; simpl; intros key v Hnd Hin; [easy|].
  inversion Hnd as [|? ? Hk Hnd']; subst.
  destruct Hin as [H|H].
  - injection H as -> ->. now rewrite String.eqb_refl.
  - destruct (String.eqb_spec k key) as [->|Hne]; [|auto].
    exfalso. apply Hk. change key with (fst (key, v)). now apply in_map.
Qed.

Lemma In_set : forall (A : Type) (props : list (string * A)) key v k w,
  In (k, w) (set props key v) -> (k, w) = (key, v) \/ In (k, w) props.
Proof.
  induction props as [|[k0 w0] props IH]; simpl; intros key v k w H.
  - destruct H as [H|[]]. now left.
  - destruct (String.eqb_spec k0 key) as [->|Hne]; simpl in H.
    + destruct H as [H|H]; [left; congruence|right; now right].
    + destruct H as [H|H]; [right; now left|].
      apply IH in H. tauto.
Qed.

Lemma mergeObjectSync_stored : forall KR VR AL ks st acc out,
  (forall k, In k ks ->
     AL k = true /\ (KR k = OK (VString k) \/ KR k = DIRTY (VString k))) ->
  mergeObjectSync st (map (fun k => mkPair (KR k) (VR k) (AL k)) ks) acc = OK out ->
  st = valid
  /\ (forall k, In k ks ->
        KR k = OK (VString k) /\ VR k = OK (result_value (VR k)))
  /\ out = VObject (store (fun k => result_value (VR k)) ks acc).
Proof.
  induction ks as [|k ks IH]; simpl; intros st acc out Hk H.
  - destruct st; try discriminate. injection H as <-. now repeat split.
  - destruct (Hk k (or_introl eq_refl)) as [HA HK].
    assert (Hk' : forall k', In k' ks ->
              AL k' = true /\ (KR k' = OK (VString k') \/ KR k' = DIRTY (VString k')))
      by (intros; apply Hk; now right).
    destruct HK as [HK|HK]; rewrite HK in H; simpl in H;
      destruct (VR k) as [|v|v] eqn:EV; simpl in H; try discriminate;
      rewrite HA, orb_true_r, andb_true_r in H;
      apply (IH _ _ _ Hk') in H; destruct H as (Hst & HR & ->);
      try (now destruct st).
    split; [exact Hst|]. split.
    + intros k' [<-|Hk'']; [|now apply HR].
      split; [exact HK|rewrite EV; reflexivity].
    + unfold store. simpl. now destruct (String.eqb k "__proto__").
Qed.

Lemma mergeObjectSync_stores : forall KR VR AL V ks acc,
  (forall k, In k ks ->
     AL k = true /\ KR k = OK (VString k) /\ VR k = OK (V k)) ->
  mergeObjectSync valid (map (fun k => mkPair (KR k) (VR k) (AL k)) ks) acc
  = OK (VObject (store V ks acc)).
Proof.
  induction ks as [|k ks IH]; simpl; intros acc Hk; [reflexivity|].
  destruct (Hk k (or_introl eq_refl)) as (HA & HK & HV).
  rewrite HK, HV. simpl. rewrite HA, orb_true_r, andb_true_r.
  rewrite IH by (intros; apply Hk; now right).
  unfold store. simpl. now destruct (String.eqb k "__proto__").
Qed.

Lemma store_In : forall V ks acc k v,
  In (k, v) (store V ks acc) ->
  In (k, v) acc \/ (In k ks /\ k <> "__proto__" /\ v = V k).
Proof.
  unfold store. induction ks as [|k0 ks IH]; simpl; intros acc k v H; [now left|].
  apply IH in H. destruct H as [H|(H1 & H2 & H3)]; [|right; tauto].
  destruct (String.eqb_spec k0 "__proto__") as [->|Hne]; [now left|].
  apply In_set in H. destruct H as [[= -> ->]|H]; [right|now left].
  repeat split; auto.
Qed.

Lemma store_NoDup : forall V ks acc,
  NoDup (keys acc) -> NoDup (keys (store V ks acc)).
Proof.
  unfold store. induction ks as [|k0 ks IH]; simpl; intros acc H; [exact H|].
  apply IH. destruct (String.eqb k0 "__proto__"); [exact H|].
  now apply NoDup_keys_set.
Qed.

Lemma store_again : forall V o acc,
  NoDup (keys o) -> ~ In "__proto__" (keys o) ->
  (forall k v, In (k, v) o -> V k = v) ->
  (forall k, In k (keys o) -> has acc k = false) ->
  store V (keys o) acc = acc ++ o.
Proof.
  unfold store. induction o as [|[k v] o IH]; simpl; intros acc Hnd Hp HV Hacc.
  - now rewrite app_nil_r.
  - inversion Hnd as [|? ? Hk Hnd']; subst.
    destruct (String.eqb_spec k "__proto__") as [->|Hne]; [tauto|].
    rewrite set_fresh by (apply Hacc; now left).
    rewrite (HV k v) by now left.
    rewrite IH; auto.
    + now rewrite <- app_assoc.
    + intros k' Hk'. rewrite has_app. simpl. rewrite Hacc by now right.
      destruct (String.eqb_spec k k'); [now subst|reflexivity].
Qed.

Lemma mergeObjectSync_object : forall pairs st acc out,
  mergeObjectSync st pairs acc = OK out -> exists o, out = VObject o.
Proof.
  induction pairs as [|p pairs IH]; simpl; intros st acc out H.
  - destruct st; try discriminate. injection H as <-. eauto.
  - destruct (status_of (pair_key p)), (status_of (pair_value p));
      try discriminate; eauto.
Qed.

(** A valid result is [undefined] only when the input was. *)
Lemma parse_undefined : forall schema now path data,
  fst (parse schema now path data) = OK VUndefined -> data = VUndefined.
Proof.
  induction schema using ZodType_induction; intros now path data; simpl.
  - destruct data; simpl; try discriminate.
    destruct (run_string_checks isUuid isUrl checks path s valid) as [[| |] ?];
      discriminate.
  - destruct data; simpl; try discriminate.
    destruct (PrimFloat.is_nan x); try discriminate.
    destruct (run_number_checks checks path x valid) as [[| |] ?]; discriminate.
  - destruct data; simpl; discriminate.
  - destruct data as [| | | | |[t|]| |]; simpl; discriminate.
  - simpl. now intros [= ->].
  - destruct data; simpl; try discriminate.
    destruct (String.eqb s lit); discriminate.
  - destruct data; simpl; try discriminate.
    destruct (existsb (String.eqb s) values); discriminate.
  - destruct data; simpl; try discriminate.
    intros E.
    destruct minLength as [[n m]|]; [destruct (Nat.ltb (length items) n)|];
      simpl in E; apply mergeArray_OK in E; destruct E as (_ & vs & _ & E);
      discriminate.
  - destruct data; simpl; try discriminate.
    destruct (Nat.ltb (length items0) (length items)); [discriminate|].
    intros E.
    destruct (Nat.ltb (length items) (length items0));
      simpl in E; apply mergeArray_OK in E; destruct E as (_ & vs & _ & E);
      discriminate.
  - destruct data; simpl; try discriminate.
    intros E. apply mergeObjectSync_object in E. destruct E as [o E]. discriminate.
  - intros E. unfold merge_union in E.
    destruct (first_valid _) as [r|] eqn:V.
    + simpl in E. subst r. clear - H V.
      induction H as [|s options Hs _ IH]; simpl in V; [discriminate|].
      destruct (parse s now path data) as [[|v|v] i] eqn:P; auto.
      injection V as ->. apply (Hs now path data). now rewrite P.
    + destruct (first_dirty _) as [[r i]|] eqn:D; [|discriminate].
      simpl in E. subst r. exfalso. clear - D.
      induction (map _ options) as [|[[|v|v] i'] l IH]; simpl in D;
        try discriminate; auto.
  - destruct data; simpl; try discriminate.
    intros E. apply mergeObjectSync_object in E. destruct E as [o E]. discriminate.
  - destruct data; simpl; try reflexivity; intros E;
      now apply IHschema in E.
  - destruct data; simpl; try reflexivity; intros E;
      now apply IHschema in E.
Qed.


Lemma parse_record_unfold : forall keyType valueType now path props,
  fst (parse (ZodRecord keyType valueType) now path (VObject props))
  = mergeObjectSync valid
      (map (fun k => mkPair (fst (parse keyType now (path ++ [Key k]) (VString k)))
                            (fst (parse valueType now (path ++ [Key k]) (get props k)))
                            (has props k))
           (keys props)) [].
Proof. intros. simpl. unfold keys. now rewrite !map_map. Qed.

Lemma string_key_result : forall checks now path k,
  fst (parse (ZodString checks) now path (VString k)) = OK (VString k)
  \/ fst (parse (ZodString checks) now path (VString k)) = DIRTY (VString k).
Proof.
  intros. simpl.
  pose proof (run_string_checks_status isUuid isUrl checks path k valid) as H.
  destruct (run_string_checks isUuid isUrl checks path k valid) as [st issues].
  simpl in *. destruct H as [[_ ->]|[_ ->]]; auto.
Qed.

(** *** Discriminated unions *)

Lemma first_valid_OK : forall results r,
  first_valid results = Some r ->
  exists v issues, r = OK v /\ In (OK v, issues) results.
Proof.
  induction results as [|[[|v|v] i] results IH]; simpl; intros r H;
    try discriminate.
  - destruct (IH r H) as (v & issues & -> & Hin). eauto.
  - destruct (IH r H) as (v' & issues & -> & Hin). eauto.
  - injection H as <-. eauto.
Qed.

Lemma first_dirty_DIRTY : forall results d,
  first_dirty results = Some d -> exists v, fst d = DIRTY v.
Proof.
  induction results as [|[[|v|v] i] results IH]; simpl; intros d H;
    try discriminate; eauto.
  injection H as <-. simpl. eauto.
Qed.

Lemma merge_union_OK : forall path results out,
  fst (merge_union path results) = OK out <-> first_valid results = Some (OK out).
Proof.
  intros path results out. unfold merge_union.
  destruct (first_valid results) as [r|] eqn:V; simpl.
  - split; congruence.
  - destruct (first_dirty results) as [d|] eqn:D; simpl.
    + apply first_dirty_DIRTY in D. destruct D as [v D]. rewrite D. split; discriminate.
    + split; discriminate.
Qed.

Lemma tag_of_inv : forall key schema t,
  tag_of key schema = Some t ->
  exists shape, schema = ZodObject shape /\ In (key, ZodLiteral t) shape.
Proof.
  intros key schema t H. destruct schema; try discriminate. simpl in H.
  destruct (lookup shape key) as [[]|] eqn:L; try discriminate.
  injection H as ->. exists shape. split; [reflexivity|].
  now apply lookup_In.
Qed.

(** An object schema that requires the literal [t] of [key] accepts only
    values whose [key] holds [t], and such is its result. *)
Lemma tagged_result : forall shape key t now path data out,
  NoDup (keys shape) -> ~ In "__proto__" (keys shape) ->
  In (key, ZodLiteral t) shape ->
  fst (parse (ZodObject shape) now path data) = OK out ->
  field out key = VString t.
Proof.
  intros shape key t now path data out Hnd Hp Hin E.
  destruct data; simpl in E; try discriminate.
  rewrite map_map in E. simpl in E.
  change (mergeObjectSync valid
            (pairs_of shape
               (fun f => fst (parse (snd f) now (path ++ [Key (fst f)])
                                (get props (fst f))))
               (fun f => has props (fst f))) [] = OK out) in E.
  apply mergeObjectSync_written in E; auto.
  destruct E as (_ & HR & ->). simpl.
  destruct (get_written shape
              (fun f => fst (parse (snd f) now (path ++ [Key (fst f)])
                               (get props (fst f))))
              (fun f => has props (fst f)) (key, ZodLiteral t) Hnd Hin) as [Hget _].
  simpl in Hget. rewrite Hget. specialize (HR _ Hin). simpl in HR.
  destruct (get props key); simpl in *; try discriminate.
  destruct (String.eqb s t) eqn:Es; simpl in *; [|discriminate].
  apply String.eqb_eq in Es. now subst.
Qed.

Lemma tagged_rejects : forall shape key t now path out,
  In (key, ZodLiteral t) shape ->
  field out key <> VString t ->
  isValid (fst (parse (ZodObject shape) now path out)) = false.
Proof.
  intros shape key t now path out Hin Hne.
  destruct out; try reflexivity.
  apply (parse_object_field_invalid isUuid isUrl shape now path props key (ZodLiteral t) Hin).
  unfold parse_field. simpl in *.
  destruct (get props key); try reflexivity.
  destruct (String.eqb s t) eqn:Es; [|reflexivity].
  apply String.eqb_eq in Es. subst. now contradiction Hne.
Qed.

Lemma first_valid_again : forall key out (f g : ZodType -> Parsed) options tags,
  map (tag_of key) options = map Some tags -> NoDup tags ->
  (forall o t, In o options -> tag_of key o = Some t ->
               fst (f o) = OK out -> field out key = VString t) ->
  (forall o t, In o options -> tag_of key o = Some t ->
               field out key <> VString t -> isValid (fst (g o)) = false) ->
  (forall o, In o options -> fst (f o) = OK out -> fst (g o) = OK out) ->
  first_valid (map f options) = Some (OK out) ->
  first_valid (map g options) = Some (OK out).
Proof.
  induction options as [|o options IH]; intros tags Ht Hnd HQ HP HI V;
    [discriminate|].
  destruct tags as [|t tags]; [discriminate|].
  simpl in Ht. injection Ht as Ho Ht.
  inversion Hnd as [|? ? Hn Hnd']; subst.
  simpl in V |- *.
  destruct (f o) as [r i] eqn:F. destruct r as [|v|v].
  - assert (Hg : isValid (fst (g o)) = false).
    { destruct (first_valid_OK _ _ V) as (v & issues & Ev & Hin).
      injection Ev as <-. apply in_map_iff in Hin. destruct Hin as (o' & Fo' & Hin).
      assert (Ht' : exists t', tag_of key o' = Some t' /\ In t' tags).
      { clear - Ht Hin. revert tags Ht. induction options as [|x options IH];
          intros tags Ht; [easy|]. destruct tags as [|t' tags]; [discriminate|].
        simpl in Ht. injection Ht as Hx Ht. destruct Hin as [->|Hin].
        - exists t'. split; [exact Hx|now left].
        - destruct (IH Hin tags Ht) as (t'' & H1 & H2). exists t''. split; [exact H1|now right]. }
      destruct Ht' as (t' & Ht' & Hint').
      apply (HP o t (or_introl eq_refl) Ho).
      rewrite (HQ o' t' (or_intror Hin) Ht') by now rewrite Fo'.
      intros [= ->]. contradiction. }
    destruct (g o) as [[|w|w] j]; simpl in Hg; try discriminate;
      apply (IH tags); auto; intros; eauto using in_cons.
  - assert (Hg : isValid (fst (g o)) = false).
    { destruct (first_valid_OK _ _ V) as (v' & issues & Ev & Hin).
      injection Ev as <-. apply in_map_iff in Hin. destruct Hin as (o' & Fo' & Hin).
      assert (Ht' : exists t', tag_of key o' = Some t' /\ In t' tags).
      { clear - Ht Hin. revert tags Ht. induction options as [|x options IH];
          intros tags Ht; [easy|]. destruct tags as [|t' tags]; [discriminate|].
        simpl in Ht. injection Ht as Hx Ht. destruct Hin as [->|Hin].
        - exists t'. split; [exact Hx|now left].
        - destruct (IH Hin tags Ht) as (t'' & H1 & H2). exists t''. split; [exact H1|now right]. }
      destruct Ht' as (t' & Ht' & Hint').
      apply (HP o t (or_introl eq_refl) Ho).
      rewrite (HQ o' t' (or_intror Hin) Ht') by now rewrite Fo'.
      intros [= ->]. contradiction. }
    destruct (g o) as [[|w|w] j]; simpl in Hg; try discriminate;
      apply (IH tags); auto; intros; eauto using in_cons.
  - injection V as ->.
    rewrite (surjective_pairing (g o)).
    rewrite (HI o (or_introl eq_refl)) by now rewrite F. reflexivity.
Qed.

(** Parsing the valid result of a regular schema again, at any clock and
    path, returns it unchanged. *)
Lemma parse_idempotent : forall schema,
  regular schema ->
  forall now path data out,
    fst (parse schema now path data) = OK out ->
    forall now' path', fst (parse schema now' path' out) = OK out.
Proof.
  induction schema using ZodType_induction;
    intros Hr now path data out E now' path'.
  - assert (out = data) as ->.
    { destruct data; simpl in E; try discriminate.
      destruct (run_string_checks isUuid isUrl checks path s valid) as [[| |] ?];
        simpl in E; congruence. }
    now rewrite (parse_result_independent _ Hr now' now path' path).
  - assert (out = data) as ->.
    { destruct data; simpl in E; try discriminate.
      destruct (PrimFloat.is_nan x); try discriminate.
      destruct (run_number_checks checks path x valid) as [[| |] ?];
        simpl in E; congruence. }
    now rewrite (parse_result_independent _ Hr now' now path' path).
  - destruct data; simpl in E; try discriminate. now injection E as <-.
  - destruct data as [| | | | |[t|]| |]; simpl in E; try discriminate.
    now injection E as <-.
  - simpl in *. now injection E as <-.
  - assert (out = data) as ->.
    { destruct data; simpl in E; try discriminate.
      destruct (String.eqb s lit); simpl in E; congruence. }
    now rewrite (parse_result_independent _ Hr now' now path' path).
  - assert (out = data) as ->.
    { destruct data; simpl in E; try discriminate.
      destruct (existsb (String.eqb s) values); simpl in E; congruence. }
    now rewrite (parse_result_independent _ Hr now' now path' path).
  - simpl in Hr. destruct data; simpl in E; try discriminate.
    assert (Hlen : forall f p its i, length (parse_items f p its i) = length its).
    { induction its; simpl; auto. }
    assert (exists vs, out = VArray vs /\ length vs = length items
              /\ map fst (parse_items (fun p item => parse schema now p item) path items 0)
                 = map OK vs
              /\ match minLength with
                 | Some (n, _) => Nat.ltb (length items) n = false
                 | None => True
                 end) as (vs & -> & Hvs & Hres & Hmin).
    { destruct minLength as [[n m]|]; [destruct (Nat.ltb (length items) n) eqn:L|];
        simpl in E; apply mergeArray_OK in E; destruct E as (Hst & vs & Hm & ->);
        try discriminate; exists vs; repeat split; auto;
        apply (f_equal (@length _)) in Hm; now rewrite !length_map, Hlen in Hm. }
    simpl.
    rewrite (parse_items_again _ (fun p item => parse schema now' p item)
               path path' items vs 0 0 Hres)
      by (intros q v o Hq q'; eapply IHschema; eauto).
    destruct minLength as [[n m]|]; simpl.
    + rewrite Hvs, Hmin. simpl. apply mergeArray_OKs.
    + apply mergeArray_OKs.
  - simpl in Hr. apply fold_right_and_Forall in Hr.
    destruct data; try (simpl in E; discriminate).
    rewrite parse_tuple_unfold in E. cbv zeta in E.
    destruct (Nat.ltb (length items0) (length items)) eqn:L1; [discriminate|].
    destruct (Nat.ltb (length items) (length items0)) eqn:L2;
      simpl in E; apply mergeArray_OK in E; destruct E as (Hst & vs & Hm & ->);
      try discriminate.
    apply Nat.ltb_ge in L1, L2.
    destruct (parse_tuple_items_again _ (fun s p v => parse s now' p v)
                path path' items items0 vs 0 0 (Nat.le_antisymm _ _ L2 L1) Hm)
      as [Hlen Hagain].
    { rewrite Forall_forall in H, Hr. intros s q v o Hs Hq q'.
      eapply H; eauto. }
    change ([] ++ vs) with vs. rewrite parse_tuple_unfold. cbv zeta. rewrite Hlen, Nat.ltb_irrefl.
    simpl. rewrite Hagain. apply mergeArray_OKs.
  - simpl in Hr. destruct schema1 as [checks| | | | | | | | | | | | |]; try easy.
    destruct data; try (simpl in E; discriminate).
    rewrite parse_record_unfold in E.
    apply mergeObjectSync_stored in E.
    2:{ intros k Hk. split; [now apply has_keys|apply string_key_result]. }
    destruct E as (_ & HR & ->).
    set (V := fun k => result_value
                         (fst (parse schema2 now (path ++ [Key k]) (get props k)))).
    set (o := store V (keys props) []).
    assert (Ho : forall k v, In (k, v) o ->
                   In k (keys props) /\ k <> "__proto__" /\ v = V k).
    { intros k v Hin. apply store_In in Hin. now destruct Hin as [[]|Hin]. }
    assert (Hnd : NoDup (keys o)) by (apply store_NoDup; constructor).
    rewrite parse_record_unfold.
    rewrite (mergeObjectSync_stores _ _ _ V).
    + f_equal. f_equal. apply (store_again V o []); auto.
      * intros Hin. apply in_map_iff in Hin. destruct Hin as [[k v] [Hk Hin]].
        simpl in Hk. subst k. apply Ho in Hin. tauto.
      * intros k v Hin. symmetry. now apply Ho.
    + intros k Hk. pose proof Hk as Hk'. apply in_map_iff in Hk'.
      destruct Hk' as [[k' v] [Ek Hin]]. simpl in Ek. subst k'.
      destruct (Ho _ _ Hin) as (Hkp & Hne & ->).
      destruct (HR k Hkp) as [HK HV].
      split; [now apply has_keys|]. split.
      * rewrite <- HK. now apply (parse_result_independent (ZodString checks)).
      * rewrite (In_get o k (V k) Hnd Hin). eapply IHschema2; [exact Hr|exact HV].
  - simpl in Hr. destruct Hr as [(key & tags & Htags & Hnd) Hr].
    apply fold_right_and_Forall in Hr. rewrite Forall_forall in H, Hr.
    simpl in E |- *. apply merge_union_OK. apply merge_union_OK in E.
    apply (first_valid_again key out (fun o => parse o now path data)
             (fun o => parse o now' path' out) options tags Htags Hnd); auto.
    + intros o t Ho Ht Eo. destruct (tag_of_inv _ _ _ Ht) as (shape & -> & Hin).
      pose proof (Hr _ Ho) as (Hnd' & Hp & _).
      eapply tagged_result; eauto.
    + intros o t Ho Ht Hne. destruct (tag_of_inv _ _ _ Ht) as (shape & -> & Hin).
      eapply tagged_rejects; eauto.
    + intros o Ho Eo. eapply H; eauto.
  - simpl in Hr. destruct Hr as (Hnd & Hproto & Hr).
    apply fold_right_and_Forall in Hr. rewrite Forall_forall in H, Hr.
    destruct data; simpl in E; try discriminate.
    rewrite map_map in E. simpl in E.
    change (mergeObjectSync valid
              (pairs_of shape
                 (fun f => fst (parse (snd f) now (path ++ [Key (fst f)])
                                  (get props (fst f))))
                 (fun f => has props (fst f))) [] = OK out) in E.
    apply mergeObjectSync_written in E; auto.
    destruct E as (_ & HR & ->). simpl.
    rewrite map_map. simpl.
    match goal with
    | |- mergeObjectSync valid (map ?F shape) [] = OK (VObject ?W) =>
        change (mergeObjectSync valid
                  (pairs_of shape
                     (fun f => fst (parse (snd f) now' (path' ++ [Key (fst f)])
                                      (get W (fst f))))
                     (fun f => has W (fst f))) [] = OK (VObject W));
        set (W' := W) in *
    end.
    assert (Hsame : forall f, In f shape ->
              fst (parse (snd f) now' (path' ++ [Key (fst f)]) (get W' (fst f)))
              = fst (parse (snd f) now (path ++ [Key (fst f)]) (get props (fst f)))
              /\ kept (result_value
                         (fst (parse (snd f) now (path ++ [Key (fst f)])
                                 (get props (fst f)))))
                      (has W' (fst f))
                 = kept (result_value
                           (fst (parse (snd f) now (path ++ [Key (fst f)])
                                   (get props (fst f)))))
                        (has props (fst f))).
    { intros f Hf. specialize (HR f Hf). simpl in HR.
      destruct (get_written shape
                  (fun f => fst (parse (snd f) now (path ++ [Key (fst f)])
                                   (get props (fst f))))
                  (fun f => has props (fst f)) f Hnd Hf) as [Hget Hhas].
      fold W' in Hget, Hhas. simpl in Hget, Hhas. rewrite Hget, Hhas.
      destruct (kept _ (has props (fst f))) eqn:K.
      - split.
        + rewrite HR. eapply (H f Hf (Hr f Hf)). exact HR.
        + unfold kept. now rewrite orb_true_r.
      - unfold kept in K. apply orb_false_iff in K. destruct K as [K1 K2].
        split; [|unfold kept; now rewrite K1].
        rewrite (get_absent _ _ K2).
        apply (parse_result_independent _ (Hr f Hf)). }
    rewrite mergeObjectSync_writes; auto.
    + simpl. f_equal. f_equal. unfold W'. apply written_ext.
      intros f Hf. destruct (Hsame f Hf) as [H1 H2]. split; [exact H1|].
      exact H2.
    + intros f Hf. destruct (Hsame f Hf) as [-> _]. apply (HR f Hf).
  - simpl in Hr. destruct data; simpl in E;
      try (injection E as <-; reflexivity);
      (destruct out; simpl; [reflexivity|eapply IHschema; [exact Hr|exact E]..]).
  - simpl in Hr. destruct Hr as [Hr Hd].
    assert (exists data', fst (parse schema now path data') = OK out
                          /\ (out = VUndefined -> data' = d now))
      as (data' & E' & Hu).
    { destruct data; simpl in E; eexists; (split; [exact E|]); try reflexivity;
        intros ->; apply parse_undefined in E; discriminate. }
    destruct out; simpl; try (eapply IHschema; [exact Hr|exact E']).
    rewrite (Hd now' now), <- (Hu eq_refl).
    rewrite (parse_result_independent _ Hr now' now path' path). exact E'.
Qed.

Theorem safeParse_idempotent : forall schema,
  regular schema ->
  forall now data out,
    safeParse isUuid isUrl schema now data = SafeParseSuccess out ->
    forall now', safeParse isUuid isUrl schema now' out = SafeParseSuccess out.
Proof.
  intros schema Hr now data out E now'. unfold safeParse in *.
  destruct (parse schema now [] data) as [r issues] eqn:P.
  destruct r as [|v|v]; try (destruct issues; discriminate).
  injection E as ->.
  pose proof (parse_idempotent schema Hr now [] data out) as I.
  rewrite P in I. specialize (I eq_refl now' []).
  destruct (parse schema now' [] out) as [r' issues']. simpl in I. now subst r'.
Qed.

End Idempotence.

(** ** Valid results carry no issue *)

Section Quiet.

Variable isUuid : string -> bool.
Variable isUrl : string -> bool.

Abbreviation parse := (_parse isUuid isUrl).

Lemma isValid_OK : forall r, isValid r = true -> exists v, r = OK v.
Proof. intros [|v|v] H; try discriminate. eauto. Qed.

Lemma mergeArray_quiet : forall (results : list Parsed),
  Forall quiet results ->
  forall st acc,
    isValid (mergeArray st (map fst results) acc) = true ->
    st = valid /\ concat (map snd results) = [].
Proof.
  induction 1 as [|[r issues] results Hr _ IH]; simpl; intros st acc Hv.
  - now destruct st.
  - destruct r as [|v|v]; simpl in *; try discriminate.
    + apply IH in Hv. destruct Hv as [Hst _]. now destruct st.
    + unfold quiet in Hr. simpl in Hr. rewrite (Hr eq_refl). simpl. eauto.
Qed.

Lemma mergeObjectSync_quiet : forall (results : list (Pair * list ZodIssue)),
  Forall (fun r => isValid (pair_key (fst r)) && isValid (pair_value (fst r)) = true
                   -> snd r = []) results ->
  forall st acc,
    isValid (mergeObjectSync st (map fst results) acc) = true ->
    st = valid /\ concat (map snd results) = [].
Proof.
  induction 1 as [|[p issues] results Hr _ IH]; simpl; intros st acc Hv.
  - now destruct st.
  - destruct p as [k v always]; simpl in *.
    destruct k as [|kv|kv], v as [|vv|vv]; simpl in *; try discriminate;
      apply IH in Hv; destruct Hv as [Hst Hc]; try (now destruct st).
    rewrite (Hr eq_refl), Hc. now split.
Qed.

Lemma merge_union_quiet : forall path results, quiet (merge_union path results).
Proof.
  intros path results. unfold quiet, merge_union.
  destruct (first_valid results); [reflexivity|].
  destruct (first_dirty results) as [d|] eqn:D; [|discriminate].
  apply first_dirty_DIRTY in D. destruct D as [v ->]. discriminate.
Qed.

(** A parser that returns a valid result has added no issue. *)
Lemma parse_quiet : forall schema now path data,
  quiet (parse schema now path data).
Proof.
  induction schema using ZodType_induction; intros now path data; unfold quiet.
  - destruct data; simpl; try discriminate.
    pose proof (run_string_checks_status isUuid isUrl checks path s valid) as H.
    destruct (run_string_checks isUuid isUrl checks path s valid) as [st issues].
    simpl in *. destruct H as [[-> _]|[_ ->]]; [reflexivity|discriminate].
  - destruct data; simpl; try discriminate.
    destruct (PrimFloat.is_nan x); simpl; try discriminate.
    pose proof (run_number_checks_status checks path x valid) as H.
    destruct (run_number_checks checks path x valid) as [st issues].
    simpl in *. destruct H as [[-> _]|[_ ->]]; [reflexivity|discriminate].
  - destruct data; simpl; (reflexivity || discriminate).
  - destruct data as [| | | | |[t|]| |]; simpl; (reflexivity || discriminate).
  - reflexivity.
  - destruct data; simpl; try discriminate.
    destruct (String.eqb s lit); simpl; (reflexivity || discriminate).
  - destruct data; simpl; try discriminate.
    destruct (existsb (String.eqb s) values); simpl; (reflexivity || discriminate).
  - destruct data; simpl; try discriminate.
    intros Hv.
    assert (Hq : Forall quiet
              (parse_items (fun p item => parse schema now p item) path items 0)).
    { eapply Forall_impl;
        [|apply (parse_items_Forall (fun _ r => quiet r)); intros; apply IHschema].
      now intros r [_ Hr]. }
    destruct minLength as [[n m]|]; simpl in *.
    + destruct (Nat.ltb (length items) n); simpl in *.
      * apply (mergeArray_quiet _ Hq) in Hv. now destruct Hv.
      * now apply (mergeArray_quiet _ Hq) in Hv.
    + now apply (mergeArray_quiet _ Hq) in Hv.
  - destruct data; try (simpl; discriminate).
    rewrite parse_tuple_unfold. cbv zeta.
    destruct (Nat.ltb (length items0) (length items)); [discriminate|].
    assert (Hq : Forall quiet
              (parse_tuple_items (fun s p item => parse s now p item)
                                 path items items0 0)).
    { eapply Forall_impl;
        [|apply (parse_tuple_items_Forall (fun _ r => quiet r));
          intros s p v Hs; rewrite Forall_forall in H; now apply H].
      now intros r [_ Hr]. }
    destruct (Nat.ltb (length items) (length items0)); simpl; intros Hv.
    + apply (mergeArray_quiet _ Hq) in Hv. now destruct Hv.
    + now apply (mergeArray_quiet _ Hq) in Hv.
  - destruct data; simpl; try discriminate.
    intros Hv.
    match type of Hv with
    | context [map fst (map ?F props)] =>
        assert (Hq : Forall (fun r => isValid (pair_key (fst r))
                                      && isValid (pair_value (fst r)) = true
                                      -> snd r = []) (map F props))
    end.
    { apply Forall_map. apply Forall_forall. intros [k v] _. simpl.
      intros Hb. apply andb_true_iff in Hb. destruct Hb as [H1 H2].
      rewrite (IHschema1 now (path ++ [Key k]) (VString k) H1).
      now rewrite (IHschema2 now (path ++ [Key k]) (get props k) H2). }
    now apply (mergeObjectSync_quiet _ Hq) in Hv.
  - apply merge_union_quiet.
  - destruct data; simpl; try discriminate.
    intros Hv.
    match type of Hv with
    | context [map fst (map ?F shape)] =>
        assert (Hq : Forall (fun r => isValid (pair_key (fst r))
                                      && isValid (pair_value (fst r)) = true
                                      -> snd r = []) (map F shape))
    end.
    { apply Forall_map. eapply Forall_impl; [|exact H].
      intros [k s] Hs. simpl in *. intros Hb. now apply Hs. }
    now apply (mergeObjectSync_quiet _ Hq) in Hv.
  - destruct data; simpl; try apply IHschema. reflexivity.
  - destruct data; simpl; apply IHschema.
Qed.

(** A field of an object schema has issues exactly when it fails. *)
Lemma field_fails_issues : forall schema now props key,
  field_fails isUuid isUrl schema now props key
  <-> snd (parse_field isUuid isUrl schema now [] props key) <> [].
Proof.
  intros schema now props key. unfold field_fails, parse_field. split.
  - apply parse_reports.
  - intros Hne.
    destruct (isValid (fst (parse schema now ([] ++ [Key key]) (get props key)))) eqn:E;
      [|reflexivity].
    now apply parse_quiet in E.
Qed.

(** Against an object schema that names each field once, the issues that
    name a field are those of its own schema: some issue names the field
    exactly when the field fails. *)
Lemma field_fails_named : forall shape now props key schema,
  NoDup (keys shape) -> In (key, schema) shape ->
  field_fails isUuid isUrl schema now props key
  <-> Exists (names key) (snd (parse (ZodObject shape) now [] (VObject props))).
Proof.
  intros shape now props key schema Hnd Hin. split.
  - apply (parse_object_field_issue isUuid isUrl shape now [] props key schema Hin).
  - intros He. apply Exists_exists in He. destruct He as (i & Hi & Hn).
    rewrite parse_object_issues in Hi. apply in_concat in Hi.
    destruct Hi as (issues & Hissues & Hi).
    apply in_map_iff in Hissues. destruct Hissues as ([key' schema'] & <- & Hf).
    simpl in Hi.
    pose proof (parse_below isUuid isUrl schema' now ([] ++ [Key key']) (get props key')) as Hb.
    rewrite Forall_forall in Hb. specialize (Hb i Hi).
    destruct Hb as [r1 H1], Hn as [r2 H2]. rewrite H1 in H2.
    simpl in H2. injection H2 as -> _.
    assert (schema' = schema) as ->.
    { pose proof (In_lookup _ _ _ _ Hnd Hin) as L1.
      pose proof (In_lookup _ _ _ _ Hnd Hf) as L2. congruence. }
    apply field_fails_issues. intro E. unfold parse_field in *.
    simpl in E, Hi. rewrite E in Hi. contradiction.
Qed.

End Quiet.

(** ** The parser decides the rule of a schema *)

Lemma isValid_ret : forall st v,
  isValid (ret st v) = match st with valid => true | _ => false end.
Proof. now intros []. Qed.

Lemma mergeArray_valid : forall results st acc,
  isValid (mergeArray st results acc)
  = match st with valid => forallb isValid results | _ => false end.
Proof.
  induction results as [|[|v|v] results IH]; intros st acc; simpl.
  - apply isValid_ret.
  - now destruct st.
  - rewrite IH. now destruct st.
  - apply IH.
Qed.

Lemma mergeObjectSync_valid : forall pairs st acc,
  isValid (mergeObjectSync st pairs acc)
  = match st with
    | valid => forallb (fun p => isValid (pair_key p) && isValid (pair_value p)) pairs
    | _ => false
    end.
Proof.
  induction pairs as [|[k v always] pairs IH]; intros st acc; simpl.
  - apply isValid_ret.
  - destruct k as [|kv|kv], v as [|vv|vv]; simpl;
      try rewrite IH; now destruct st.
Qed.

Lemma forallb_over_map : forall (A B : Type) (f : A -> B) (g : B -> bool) l,
  forallb g (map f l) = forallb (fun x => g (f x)) l.
Proof. induction l as [|x l IH]; simpl; [reflexivity|now rewrite IH]. Qed.

Lemma existsb_over_map : forall (A B : Type) (f : A -> B) (g : B -> bool) l,
  existsb g (map f l) = existsb (fun x => g (f x)) l.
Proof. induction l as [|x l IH]; simpl; [reflexivity|now rewrite IH]. Qed.

Lemma forallb_same : forall (A : Type) (f g : A -> bool) l,
  (forall x, f x = g x) -> forallb f l = forallb g l.
Proof.
  intros A f g l H. induction l as [|x l IH]; simpl; [reflexivity|].
  now rewrite H, IH.
Qed.

Lemma first_valid_None : forall results : list Parsed,
  first_valid results = None <-> existsb (fun r => isValid (fst r)) results = false.
Proof.
  induction results as [|[[|v|v] i] results IH]; simpl; try exact IH.
  - now split.
  - split; discriminate.
Qed.

Lemma merge_union_valid : forall path results,
  isValid (fst (merge_union path results))
  = existsb (fun r => isValid (fst r)) results.
Proof.
  intros path results. unfold merge_union.
  destruct (first_valid results) as [r|] eqn:V.
  - destruct (existsb (fun r => isValid (fst r)) results) eqn:E.
    + apply first_valid_OK in V. destruct V as (v & issues & -> & _). reflexivity.
    + apply first_valid_None in E. congruence.
  - pose proof (proj1 (first_valid_None results) V) as E. rewrite E.
    destruct (first_dirty results) as [d|] eqn:D; [|reflexivity].
    apply first_dirty_DIRTY in D. destruct D as [v ->]. reflexivity.
Qed.

Section Decides.

Variable isUuid : string -> bool.
Variable isUrl : string -> bool.

Abbreviation parse := (_parse isUuid isUrl).
Abbreviation obeys := (conforms isUuid isUrl).

Lemma run_string_checks_valid : forall checks path s,
  fst (run_string_checks isUuid isUrl checks path s valid) = valid ->
  forallb (satisfies isUuid isUrl s) checks = true.
Proof.
  induction checks as [|c checks IH]; intros path s; simpl; [reflexivity|].
  destruct c as [n m|n m|m|m]; simpl.
  - destruct (Nat.ltb_spec (String.length s) n) as [L|L]; simpl.
    + pose proof (run_string_checks_status isUuid isUrl checks path s dirty) as S.
      destruct (run_string_checks isUuid isUrl checks path s dirty); simpl in *.
      intros ->. destruct S as [[_ S]|[_ S]]; discriminate.
    + intros E. rewrite (IH _ _ E), andb_true_r. now apply Nat.leb_le.
  - destruct (Nat.ltb_spec n (String.length s)) as [L|L]; simpl.
    + pose proof (run_string_checks_status isUuid isUrl checks path s dirty) as S.
      destruct (run_string_checks isUuid isUrl checks path s dirty); simpl in *.
      intros ->. destruct S as [[_ S]|[_ S]]; discriminate.
    + intros E. rewrite (IH _ _ E), andb_true_r. now apply Nat.leb_le.
  - destruct (isUuid s); simpl.
    + apply IH.
    + pose proof (run_string_checks_status isUuid isUrl checks path s dirty) as S.
      destruct (run_string_checks isUuid isUrl checks path s dirty); simpl in *.
      intros ->. destruct S as [[_ S]|[_ S]]; discriminate.
  - destruct (isUrl s); simpl.
    + apply IH.
    + pose proof (run_string_checks_status isUuid isUrl checks path s dirty) as S.
      destruct (run_string_checks isUuid isUrl checks path s dirty); simpl in *.
      intros ->. destruct S as [[_ S]|[_ S]]; discriminate.
Qed.

Lemma run_number_checks_valid : forall checks path x,
  fst (run_number_checks checks path x valid) = valid ->
  forallb (above x) checks = true.
Proof.
  induction checks as [|[b incl m] checks IH]; intros path x; simpl; [reflexivity|].
  destruct (if incl then PrimFloat.ltb x b else PrimFloat.leb x b); simpl.
  - pose proof (run_number_checks_status checks path x dirty) as S.
    destruct (run_number_checks checks path x dirty); simpl in *.
    intros ->. destruct S as [[_ S]|[_ S]]; discriminate.
  - apply IH.
Qed.

Lemma run_string_checks_passes : forall checks path s st,
  forallb (satisfies isUuid isUrl s) checks = true ->
  run_string_checks isUuid isUrl checks path s st = (st, []).
Proof.
  induction checks as [|c checks IH]; intros path s st; simpl; [reflexivity|].
  intros H. apply andb_true_iff in H. destruct H as [Hc H].
  destruct c as [n m|n m|m|m]; simpl in *.
  - apply Nat.leb_le in Hc. destruct (Nat.ltb_spec (String.length s) n); [lia|]. now apply IH.
  - apply Nat.leb_le in Hc. destruct (Nat.ltb_spec n (String.length s)); [lia|]. now apply IH.
  - rewrite Hc. now apply IH.
  - rewrite Hc. now apply IH.
Qed.

Lemma run_number_checks_passes : forall checks path x st,
  forallb (above x) checks = true ->
  run_number_checks checks path x st = (st, []).
Proof.
  induction checks as [|[b incl m] checks IH]; intros path x st; simpl; [reflexivity|].
  intros H. apply andb_true_iff in H. destruct H as [Hc H].
  apply negb_true_iff in Hc. rewrite Hc. now apply IH.
Qed.

Lemma string_checks_decide : forall checks path s,
  isValid (ret (fst (run_string_checks isUuid isUrl checks path s valid)) (VString s))
  = forallb (satisfies isUuid isUrl s) checks.
Proof.
  intros checks path s. rewrite isValid_ret.
  destruct (forallb (satisfies isUuid isUrl s) checks) eqn:E.
  - now rewrite (run_string_checks_passes _ path s valid E).
  - pose proof (run_string_checks_valid checks path s) as V.
    destruct (fst (run_string_checks isUuid isUrl checks path s valid));
      try reflexivity.
    rewrite V in E by reflexivity. discriminate.
Qed.

Lemma number_checks_decide : forall checks path x,
  isValid (ret (fst (run_number_checks checks path x valid)) (VNumber x))
  = forallb (above x) checks.
Proof.
  intros checks path x. rewrite isValid_ret.
  destruct (forallb (above x) checks) eqn:E.
  - now rewrite (run_number_checks_passes _ path x valid E).
  - pose proof (run_number_checks_valid checks path x) as V.
    destruct (fst (run_number_checks checks path x valid)); try reflexivity.
    rewrite V in E by reflexivity. discriminate.
Qed.

Lemma parse_items_decide : forall (f : Path -> value -> Parsed) (g : value -> bool)
    path items i,
  (forall p v, In v items -> isValid (fst (f p v)) = g v) ->
  forallb isValid (map fst (parse_items f path items i)) = forallb g items.
Proof.
  induction items as [|item items IH]; intros i H; simpl; [reflexivity|].
  rewrite H by now left. f_equal. apply IH. intros p v Hin. apply H. now right.
Qed.

Lemma parse_tuple_items_decide :
  forall (f : ZodType -> Path -> value -> Parsed) (g : ZodType -> value -> bool)
         path schemas items i,
  Forall (fun s => forall p v, isValid (fst (f s p v)) = g s v) schemas ->
  forallb isValid (map fst (parse_tuple_items f path schemas items i))
  = conform_each g schemas items.
Proof.
  induction schemas as [|s schemas IH]; intros items i H; simpl; [reflexivity|].
  destruct items as [|item items]; simpl; [reflexivity|].
  inversion H as [|? ? Hs Hrest]; subst.
  rewrite Hs. f_equal. now apply IH.
Qed.

(** The parser accepts a value exactly when the value conforms to the
    schema. *)
Lemma parse_decides : forall schema now path data,
  isValid (fst (parse schema now path data)) = obeys schema now data.
Proof.
  induction schema using ZodType_induction; intros now path data.
  - (* string *)
    destruct data; try reflexivity. simpl.
    rewrite <- (string_checks_decide checks path s).
    now destruct (run_string_checks isUuid isUrl checks path s valid).
  - (* number *)
    destruct data; try reflexivity. simpl.
    destruct (PrimFloat.is_nan x); [reflexivity|]. simpl.
    rewrite <- (number_checks_decide checks path x).
    now destruct (run_number_checks checks path x valid).
  - now destruct data.
  - now destruct data as [| | | | |[t|]| |].
  - reflexivity.
  - destruct data; try reflexivity. simpl. now destruct (String.eqb s lit).
  - destruct data; try reflexivity. simpl.
    now destruct (existsb (String.eqb s) values).
  - (* array *)
    destruct data as [| | | | | |items|]; try reflexivity. simpl.
    match goal with
    | |- context [let (_, _) := ?m in _] => destruct m as [st own] eqn:M
    end.
    simpl. rewrite mergeArray_valid.
    rewrite (parse_items_decide _ (obeys schema now))
      by (intros p v _; apply IHschema).
    destruct minLength as [[n m]|].
    + destruct (Nat.ltb_spec (List.length items) n) as [L|L];
        injection M as <- <-.
      * apply Nat.leb_gt in L. now rewrite L.
      * apply Nat.leb_le in L. now rewrite L.
    + now injection M as <- <-.
  - (* tuple *)
    destruct data as [| | | | | |data|]; try reflexivity.
    rewrite parse_tuple_unfold. cbn [conforms].
    cbv zeta.
    destruct (Nat.ltb_spec (List.length data) (List.length items)) as [L|L].
    + simpl. symmetry. apply andb_false_iff. left. apply Nat.eqb_neq. lia.
    + destruct (Nat.ltb_spec (List.length items) (List.length data)) as [G|G].
      * simpl. rewrite mergeArray_valid.
        symmetry. apply andb_false_iff. left. apply Nat.eqb_neq. lia.
      * simpl. rewrite mergeArray_valid.
        assert (E : List.length data = List.length items) by lia.
        apply Nat.eqb_eq in E. rewrite E. simpl.
        apply parse_tuple_items_decide.
        rewrite Forall_forall in *. intros s Hs p v. now apply H.
  - (* record *)
    destruct data as [| | | | | | |props]; try reflexivity.
    simpl. rewrite mergeObjectSync_valid, !map_map, forallb_over_map. simpl.
    apply forallb_same. intros [k v]. simpl.
    now rewrite IHschema1, IHschema2.
  - (* union *)
    simpl. rewrite merge_union_valid, existsb_over_map.
    induction H as [|o options Ho _ IH]; simpl; [reflexivity|].
    now rewrite Ho, IH.
  - (* object *)
    destruct data as [| | | | | | |props]; try reflexivity.
    simpl. rewrite mergeObjectSync_valid, !map_map, forallb_over_map. simpl.
    induction H as [|[k s] shape Hs _ IH]; simpl; [reflexivity|].
    simpl in Hs. now rewrite Hs, IH.
  - destruct data; simpl; try apply IHschema. reflexivity.
  - destruct data; simpl; apply IHschema.
Qed.

End Decides.

(** * The parser on sample inputs *)

(** The empty object against the base contract: one issue, for [id]. *)
Example RecordSchema_on_empty_object :
  safeParse uuid_format url_format (Record.RecordSchema 1000%Z) 2000%Z (VObject [])
  = SafeParseError
      [Issue (invalid_type (ExpectedType ZodParsedType.string) ZodParsedType.undefined)
             [Key "id"] None].
Proof. reflexivity. Qed.

(** Three bad fields against the base contract: three issues, in the order
    of the shape. *)
Example RecordSchema_on_three_bad_fields :
  safeParse uuid_format url_format (Record.RecordSchema 1000%Z) 2000%Z
    (VObject [("id", VString "x"); ("createdAt", VNull); ("updatedAt", VString "y")])
  = SafeParseError
      [Issue (invalid_string validation_uuid) [Key "id"] None;
       Issue (invalid_type (ExpectedType ZodParsedType.date) ZodParsedType.null)
             [Key "createdAt"] None;
       Issue (invalid_type (ExpectedType ZodParsedType.date) ZodParsedType.string)
             [Key "updatedAt"] None].
Proof. reflexivity. Qed.

(** An input that is no object: one issue, at the root. *)
Example RecordSchema_on_null :
  safeParse uuid_format url_format (Record.RecordSchema 1000%Z) 2000%Z VNull
  = SafeParseError
      [Issue (invalid_type (ExpectedType ZodParsedType.object) ZodParsedType.null)
             [] None].
Proof. reflexivity. Qed.

(** An invalid date is no timestamp. *)
Example RecordSchema_on_invalid_date :
  safeParse uuid_format url_format (Record.RecordSchema 1000%Z) 2000%Z
    (VObject [("id", VString sample_uuid); ("updatedAt", VDate None)])
  = SafeParseError [Issue invalid_date [Key "updatedAt"] None].
Proof. reflexivity. Qed.

(** Unknown properties are stripped, and a property holding [undefined] is
    kept as it is. *)
Example RecordSchema_strips_unknown_properties :
  safeParse uuid_format url_format (Record.RecordSchema 1000%Z) 2000%Z
    (VObject [("extra", VNull); ("updatedAt", VUndefined); ("id", VString sample_uuid)])
  = SafeParseSuccess
      (VObject [("id", VString sample_uuid); ("createdAt", new_Date 1000%Z);
                ("updatedAt", VUndefined)]).
Proof. reflexivity. Qed.

(** The failing task against [TaskSchema]: one issue for each failing field;
    the absent [priority] would have been defaulted. *)
Example TaskSchema_on_failing_task :
  safeParse uuid_format url_format (Productivity.TaskSchema 1000%Z) 2000%Z
    (VObject failing_task)
  = SafeParseError
      [Issue (invalid_string validation_uuid) [Key "id"] None;
       Issue (too_small (sized_string 1) true false) [Key "title"]
             (Some "Task title is required.");
       Issue (invalid_enum_value ["to-do"; "in-progress"; "completed"] "done")
             [Key "status"] None].
Proof. reflexivity. Qed.

(** A task with nested values: issues carry the path into arrays and
    nested objects. *)
Example TaskSchema_on_nested_failures :
  safeParse uuid_format url_format (Productivity.TaskSchema 1000%Z) 2000%Z
    (VObject [("id", VString sample_uuid); ("title", VString "t");
              ("status", VString "to-do");
              ("tags", VArray [VString sample_uuid; VNull]);
              ("reminders", VArray [VObject []])])
  = SafeParseError
      [Issue (invalid_type (ExpectedType ZodParsedType.string) ZodParsedType.null)
             [Key "tags"; Index 1] None;
       Issue (invalid_type (ExpectedType ZodParsedType.date) ZodParsedType.undefined)
             [Key "reminders"; Index 0; Key "reminderDate"] None].
Proof. reflexivity. Qed.

(** A valid task: defaults are filled in, in the order of the shape. *)
Example TaskSchema_on_valid_task :
  safeParse uuid_format url_format (Productivity.TaskSchema 1000%Z) 2000%Z
    (VObject [("title", VString "t"); ("status", VString "to-do");
              ("id", VString sample_uuid)])
  = SafeParseSuccess
      (VObject [("id", VString sample_uuid); ("createdAt", new_Date 1000%Z);
                ("title", VString "t"); ("status", VString "to-do");
                ("priority", VString "medium")]).
Proof. reflexivity. Qed.

(** [ReactionSchema] declares [createdAt] again: an input without it is
    given the date the extension captured (2000), not the base's (1000). *)
Example ReactionSchema_defaults_to_its_own_date :
  safeParse uuid_format url_format (Messaging.ReactionSchema 1000%Z 2000%Z) 3000%Z
    (VObject [("id", VString sample_uuid); ("messageId", VString sample_uuid);
              ("userId", VString sample_uuid); ("reactionType", VString "like")])
  = SafeParseSuccess
      (VObject [("id", VString sample_uuid); ("createdAt", new_Date 2000%Z);
                ("messageId", VString sample_uuid); ("userId", VString sample_uuid);
                ("reactionType", VString "like")]).
Proof. reflexivity. Qed.

(** A number below the minimum, and a number that is NaN. *)
Example TimeLogSchema_on_bad_durations :
  safeParse uuid_format url_format (Productivity.TimeLogSchema 1000%Z) 2000%Z
    (VObject [("id", VString sample_uuid); ("taskId", VString sample_uuid);
              ("duration", VNumber 0.5%float); ("logDate", VDate (Some 5%Z))])
  = SafeParseError
      [Issue (too_small (sized_number 1%float) true false) [Key "duration"]
             (Some "Duration must be at least 1 minute.")]
  /\ safeParse uuid_format url_format (Productivity.TimeLogSchema 1000%Z) 2000%Z
       (VObject [("id", VString sample_uuid); ("taskId", VString sample_uuid);
                 ("duration", VNumber PrimFloat.nan); ("logDate", VDate (Some 5%Z))])
     = SafeParseError
         [Issue (invalid_type (ExpectedType ZodParsedType.number) ZodParsedType.nan)
                [Key "duration"] None].
Proof. split; reflexivity. Qed.

(** The union of [CheatsheetSectionSchema]: the option whose literal
    matches is taken; when none is valid there is one [invalid_union]
    issue. *)
Example CheatsheetSectionSchema_on_list_content :
  safeParse uuid_format url_format Learning.CheatsheetSectionSchema 2000%Z
    (VObject [("title", VString "t");
              ("content", VObject [("type", VString "list");
                                   ("items", VArray [VString "a"])])])
  = SafeParseSuccess
      (VObject [("title", VString "t");
                ("content", VObject [("type", VString "list");
                                     ("items", VArray [VString "a"])])]).
Proof. reflexivity. Qed.

Example CheatsheetSectionSchema_on_unknown_content :
  exists unionErrors,
    safeParse uuid_format url_format Learning.CheatsheetSectionSchema 2000%Z
      (VObject [("title", VString "t"); ("content", VObject [("type", VString "x")])])
    = SafeParseError [Issue (invalid_union unionErrors) [Key "content"] None]
    /\ length unionErrors = 4%nat.
Proof. eexists. split; reflexivity. Qed.

(** * The record contract *)

Section RecordContract.

Variable isUuid : string -> bool.
Variable isUrl : string -> bool.

(** The clock reading captured by the default of [createdAt] when record.ts
    was evaluated. *)
Variable loaded : Time.

Abbreviation RecordSchema := (Record.RecordSchema loaded).
Abbreviation validate := (safeParse isUuid isUrl).
Abbreviation parse := (_parse isUuid isUrl).

(** An object schema fails, with an issue naming the field, as soon as one
    of its fields is not valid. *)
Lemma validate_object_fails : forall shape now props key schema,
  In (key, schema) shape ->
  field_fails isUuid isUrl schema now props key ->
  exists issues,
    validate (ZodObject shape) now (VObject props) = SafeParseError issues
    /\ issues = snd (parse (ZodObject shape) now [] (VObject props))
    /\ Exists (names key) issues.
Proof.
  intros shape now props key schema Hin Hf.
  destruct (safeParse_total isUuid isUrl (ZodObject shape) now (VObject props))
    as [(out & _ & Hok)|(issues & E & -> & _)].
  - pose proof (parse_object_field_invalid isUuid isUrl shape now [] props key schema Hin Hf) as H.
    rewrite Hok in H. discriminate.
  - eexists. split; [exact E|]. split; [reflexivity|].
    apply (parse_object_field_issue isUuid isUrl shape now [] props key schema Hin Hf).
Qed.


(** C5.  An input object without [id] fails validation against the base
    contract with an issue naming [id]; the empty object fails with exactly
    one issue, for [id]: [createdAt] is defaulted and the absence of
    [updatedAt] is no error. *)
Theorem missing_id_is_reported : forall now props,
  has props "id" = false ->
  (exists issues,
     validate RecordSchema now (VObject props) = SafeParseError issues
     /\ Exists (names "id") issues)
  /\ validate RecordSchema now (VObject [])
     = SafeParseError
         [Issue (invalid_type (ExpectedType ZodParsedType.string) ZodParsedType.undefined)
                [Key "id"] None].
Proof.
  intros now props H. split; [|reflexivity].
  destruct (validate_object_fails (shape_of RecordSchema) now props "id"
              (ZodString [check_uuid None])) as (issues & E & _ & N).
  - simpl. now left.
  - unfold field_fails, parse_field. now rewrite (get_absent _ _ H).
  - eauto.
Qed.

(** C6.  An input whose [updatedAt] has a value that is not a valid date
    fails validation against the base contract with an issue naming
    [updatedAt]; an input without [updatedAt] that is otherwise valid is
    accepted.  A property holding [undefined] has no value: zod reads it as
    an absent one. *)
Theorem updatedAt_is_optional_but_checked : forall now props,
  (get props "updatedAt" <> VUndefined ->
   (forall t, get props "updatedAt" <> VDate (Some t)) ->
   exists issues,
     validate RecordSchema now (VObject props) = SafeParseError issues
     /\ Exists (names "updatedAt") issues)
  /\ (has props "updatedAt" = false ->
      (exists u, get props "id" = VString u /\ isUuid u = true) ->
      (get props "createdAt" = VUndefined
       \/ exists t, get props "createdAt" = VDate (Some t)) ->
      exists out, validate RecordSchema now (VObject props) = SafeParseSuccess out).
Proof.
  intros now props. split.
  - intros Hdef Hdate.
    destruct (validate_object_fails (shape_of RecordSchema) now props "updatedAt"
                (ZodOptional ZodDate)) as (issues & E & _ & N); eauto.
    + simpl. tauto.
    + unfold field_fails, parse_field. simpl.
      destruct (get props "updatedAt") as [| | | | |[t|]| |]; try reflexivity.
      * now contradiction Hdef.
      * now contradiction (Hdate t).
  - intros Habs (u & Hid & Hu) Hcreated.
    unfold safeParse. simpl.
    rewrite Hid, (get_absent _ _ Habs), Habs. simpl. rewrite Hu. simpl.
    destruct Hcreated as [->|[t ->]]; simpl;
      destruct (has props "createdAt"); simpl; eauto.
Qed.

(** C7.  For a valid UUID [u] and a valid date, the input
    [{id: u, createdAt: date}] is accepted by the base contract, and the
    validated value has [id] equal to [u]. *)
Theorem valid_record_is_accepted : forall now u t,
  isUuid u = true ->
  exists out,
    validate RecordSchema now
      (VObject [("id", VString u); ("createdAt", VDate (Some t))])
    = SafeParseSuccess out
    /\ field out "id" = VString u.
Proof.
  intros now u t Hu. eexists. unfold safeParse. simpl. rewrite Hu. simpl.
  split; reflexivity.
Qed.

(** C4.  Against the base contract extended with a required string field
    [extraField]: an input with a valid [id], a valid [createdAt] and a
    string [extraField] is accepted; the same input without [extraField]
    fails with an issue naming [extraField]; and the base fields are
    validated as by the base contract: the extended contract holds the base
    contract's definition of each, and on every object its issues are those
    of the base contract followed by those of [extraField]. *)
Theorem extension_composition : forall now u t x,
  isUuid u = true ->
  (exists out,
     validate (ExtraSchema loaded) now
       (VObject [("id", VString u); ("createdAt", VDate (Some t));
                 ("extraField", VString x)])
     = SafeParseSuccess out)
  /\ (exists issues,
        validate (ExtraSchema loaded) now
          (VObject [("id", VString u); ("createdAt", VDate (Some t))])
        = SafeParseError issues
        /\ Exists (names "extraField") issues)
  /\ (forall key, In key (keys (shape_of RecordSchema)) ->
        lookup (shape_of (ExtraSchema loaded)) key = lookup (shape_of RecordSchema) key)
  /\ (forall props,
        snd (parse (ExtraSchema loaded) now [] (VObject props))
        = snd (parse RecordSchema now [] (VObject props))
          ++ snd (parse_field isUuid isUrl (ZodString []) now [] props "extraField")).
Proof.
  intros now u t x Hu. repeat split.
  - eexists. unfold safeParse. simpl. rewrite Hu. simpl. reflexivity.
  - eexists. unfold safeParse. simpl. rewrite Hu. simpl. split; [reflexivity|].
    constructor. exists []. reflexivity.
  - simpl. intros key [<-|[<-|[<-|[]]]]; reflexivity.
  - intros props. simpl. unfold parse_field. simpl.
    now rewrite <- !app_assoc, !app_nil_r.
Qed.

(** A field fails, as the parser finds it, exactly when the value the
    object holds for it breaks the rule of its schema. *)
Lemma field_fails_violates : forall schema now props key,
  field_fails isUuid isUrl schema now props key
  <-> conforms isUuid isUrl schema now (get props key) = false.
Proof.
  intros schema now props key. unfold field_fails, parse_field.
  now rewrite parse_decides.
Qed.

(** C3.  Against a contract that extends the base contract, an object in
    which fields break their rules is answered with one [ZodError] whose
    issues name every such field, not only the first: a field is named by
    an issue exactly when the value the object holds for it does not conform
    to the schema declared for it, and every issue names a field of the
    contract.  A field breaks its rule in the sense of [conforms], the
    reading of the declaration, whatever the parser does.  Validation ends
    with the validated value or with such an error, never with another
    error. *)
Theorem every_failing_field_is_named : forall augmentation now props,
  let combined := extend RecordSchema augmentation in
  ((exists key schema,
      In (key, schema) (shape_of combined)
      /\ conforms isUuid isUrl schema now (get props key) = false) ->
   exists issues,
     validate combined now (VObject props) = SafeParseError issues
     /\ (forall key schema,
           In (key, schema) (shape_of combined) ->
           (conforms isUuid isUrl schema now (get props key) = false
            <-> Exists (names key) issues))
     /\ (forall i, In i issues ->
           exists key schema, In (key, schema) (shape_of combined) /\ names key i))
  /\ forall data message, validate combined now data <> Thrown message.
Proof.
  intros augmentation now props combined.
  assert (Hc : combined = ZodObject (shape_of combined)) by reflexivity.
  assert (Hnd : NoDup (keys (shape_of combined))).
  { apply NoDup_keys_spread. simpl. repeat constructor; simpl; intuition discriminate. }
  split.
  - intros (key & schema & Hin & Hv). apply field_fails_violates in Hv. rewrite Hc.
    destruct (validate_object_fails _ now props key schema Hin Hv)
      as (issues & E & Hi & _).
    exists issues. split; [exact E|]. split.
    + intros key' schema' Hin'. rewrite Hi, <- field_fails_violates.
      now apply field_fails_named.
    + intros i Hi'. rewrite Hi in Hi'.
      apply (parse_object_issue_field isUuid isUrl _ now [] props i Hi').
  - intros data message.
    destruct (safeParse_total isUuid isUrl combined now data)
      as [(out & -> & _)|(issues & -> & _)]; discriminate.
Qed.

End RecordContract.

(** * The schemas of the repository *)

Lemma existsb_eqb_In : forall x l, existsb (String.eqb x) l = false -> ~ In x l.
Proof.
  induction l as [|y l IH]; simpl; intros H; [tauto|].
  apply orb_false_iff in H. destruct H as [H1 H2].
  apply String.eqb_neq in H1. intros [->|Hin]; [congruence|now apply IH].
Qed.

Lemma distinct_NoDup : forall l, distinct l = true -> NoDup l.
Proof.
  induction l as [|x l IH]; simpl; intros H; constructor.
  - apply andb_true_iff in H. destruct H as [H _].
    apply existsb_eqb_In. now destruct (existsb (String.eqb x) l).
  - apply IH. apply andb_true_iff in H. tauto.
Qed.

(** Proves that a schema of the repository is regular. *)
Ltac prove_regular :=
  cbn -[In];
  repeat match goal with
         | |- _ /\ _ => split
         | |- True => exact I
         | |- NoDup _ => apply distinct_NoDup; reflexivity
         | |- ~ In _ _ => apply existsb_eqb_In; reflexivity
         | |- forall _ _ : Time, _ = _ => reflexivity
         | |- ex _ =>
             exists "type";
             match goal with
             | |- discriminated_by _ ?options =>
                 let tags :=
                   eval cbv in
                     (flat_map (fun o => match tag_of "type" o with
                                         | Some t => [t]
                                         | None => []
                                         end) options) in
                 exists tags; split; [reflexivity|]
             end
         end.

Lemma Forall_In : forall (A : Type) (P : A -> Prop) l,
  Forall P l -> forall x, In x l -> P x.
Proof. intros A P l H. now rewrite Forall_forall in H. Qed.

Ltac find_in := solve [repeat first [left; reflexivity | right]].

Section RepositoryProperties.

Variable t_Record_createdAt : Time.
Variable t_Record_copy_createdAt : Time.
Variable t_Message_sentAt : Time.
Variable t_Notification_sentAt : Time.
Variable t_Reaction_createdAt : Time.
Variable t_TypingIndicator_startedAt : Time.
Variable t_FileVersion_createdAt : Time.
Variable t_FileHistory_timestamp : Time.
Variable t_UserActivity_timestamp : Time.
Variable t_FileComment_createdAt : Time.
Variable t_EventNotification_createdAt : Time.
Variable t_DownloadRequest_requestedAt : Time.
Variable t_AuditLog_timestamp : Time.
Variable t_FileMetadata_createdAt : Time.
Variable t_Quota_lastUpdated : Time.
Variable t_Comment_createdAt : Time.
Variable t_ContentEditorState_lastEditedAt : Time.
Variable t_ContentPreview_previewGeneratedAt : Time.

Abbreviation exported_schemas :=
  (all_exported t_Record_createdAt t_Record_copy_createdAt t_Message_sentAt
     t_Notification_sentAt t_Reaction_createdAt t_TypingIndicator_startedAt
     t_FileVersion_createdAt t_FileHistory_timestamp t_UserActivity_timestamp
     t_FileComment_createdAt t_EventNotification_createdAt
     t_DownloadRequest_requestedAt t_AuditLog_timestamp t_FileMetadata_createdAt
     t_Quota_lastUpdated t_Comment_createdAt t_ContentEditorState_lastEditedAt
     t_ContentPreview_previewGeneratedAt).

Abbreviation entity_schemas :=
  (all_entities t_Record_createdAt t_Record_copy_createdAt t_Message_sentAt
     t_Notification_sentAt t_Reaction_createdAt t_TypingIndicator_startedAt
     t_FileVersion_createdAt t_FileHistory_timestamp t_UserActivity_timestamp
     t_FileComment_createdAt t_EventNotification_createdAt
     t_DownloadRequest_requestedAt t_AuditLog_timestamp t_FileMetadata_createdAt
     t_Quota_lastUpdated t_Comment_createdAt t_ContentEditorState_lastEditedAt
     t_ContentPreview_previewGeneratedAt).

Abbreviation base_contracts :=
  [Record.RecordSchema t_Record_createdAt;
   Record.RecordSchema t_Record_copy_createdAt].

Abbreviation redeclaring_entities :=
  (redeclared_createdAt t_Record_copy_createdAt t_Reaction_createdAt
     t_FileVersion_createdAt t_FileComment_createdAt
     t_EventNotification_createdAt t_FileMetadata_createdAt t_Comment_createdAt).


Lemma exported_regular :
  Forall (fun e => regular (snd e)) exported_schemas.
Proof.
  repeat (apply Forall_cons; [prove_regular|]). apply Forall_nil.
Qed.

Lemma entities_fields :
  Forall (fun e => exists t, carries_record_fields t (snd e)) entity_schemas.
Proof.
  repeat (apply Forall_cons;
          [eexists; intros key [<-|[<-|[<-|[]]]]; reflexivity|]).
  apply Forall_nil.
Qed.

(** Every entity is exported, and is the base contract of its module
    extended with fields that leave [id] and [updatedAt] alone. *)
Lemma entities_declarations :
  Forall (fun e =>
            In e exported_schemas
            /\ exists base augmentation,
                 snd e = extend base augmentation
                 /\ In base base_contracts
                 /\ has augmentation "id" = false
                 /\ has augmentation "updatedAt" = false
                 /\ lookup (shape_of (snd e)) "id" = Some (ZodString [check_uuid None])
                 /\ lookup (shape_of (snd e)) "updatedAt" = Some (ZodOptional ZodDate)
                 /\ ((has augmentation "createdAt" = false
                      /\ lookup (shape_of (snd e)) "createdAt"
                         = lookup (shape_of base) "createdAt")
                     \/ exists t,
                          lookup augmentation "createdAt"
                          = Some (default ZodDate (new_Date t))
                          /\ lookup (shape_of (snd e)) "createdAt"
                             = Some (default ZodDate (new_Date t))
                          /\ In (fst e, snd e, t) redeclaring_entities))
         entity_schemas.
Proof.
  repeat (apply Forall_cons;
          [split;
           [find_in
           |cbn [fst snd]; eexists _, _; split; [reflexivity|];
            split; [find_in|]; split; [reflexivity|]; split; [reflexivity|];
            split; [reflexivity|]; split; [reflexivity|];
            first [left; split; reflexivity
                  |right; eexists; split; [reflexivity|];
                   split; [reflexivity|find_in]]]|]).
  apply Forall_nil.
Qed.

(** The six entities that declare [createdAt] again are entities, and each
    holds the default of its own declaration. *)
Lemma redeclaring_entities_own :
  Forall (fun e =>
            In (fst (fst e), snd (fst e)) entity_schemas
            /\ lookup (shape_of (snd (fst e))) "createdAt"
               = Some (default ZodDate (new_Date (snd e))))
         redeclaring_entities.
Proof.
  repeat (apply Forall_cons; [split; [find_in|reflexivity]|]).
  apply Forall_nil.
Qed.

(** Every exported schema is an entity, the base contract, or a value
    object without [createdAt] and [updatedAt]. *)
Lemma exported_classes :
  Forall (fun e =>
            In e entity_schemas
            \/ (fst e = "RecordSchema" /\ In (snd e) base_contracts)
            \/ (In (fst e) value_objects
                /\ has (shape_of (snd e)) "createdAt" = false
                /\ has (shape_of (snd e)) "updatedAt" = false
                /\ (fst e <> "MindmapNodeSchema"
                    -> has (shape_of (snd e)) "id" = false)))
         exported_schemas.
Proof.
  repeat (apply Forall_cons;
          [first [left; find_in
                 |right; left; split; [reflexivity|find_in]
                 |right; right; split; [find_in|];
                  split; [reflexivity|]; split; [reflexivity|];
                  first [intros _; reflexivity
                        |intros N; now contradiction N]]|]).
  apply Forall_nil.
Qed.

(** C2, as amended.  Every exported schema declared with
    [RecordSchema.extend] is exported, and is a base contract (the
    [RecordSchema] of record.ts, in one of its two copies) extended with
    fields that do not declare [id] or [updatedAt] again: it
    holds [id] as a required UUID string and [updatedAt] as an optional
    date, the base definitions, and [createdAt] as a date with a default.
    Its [createdAt] is the base's own definition when the extension does
    not declare one; six entities declare [createdAt] again, as a date with
    the default of their own declaration: [ReactionSchema],
    [FileVersionSchema], [FileCommentSchema], [EventNotificationSchema],
    [FileMetadataSchema] and the [CommentSchema] of the content module.
    Every other exported schema is the base contract itself or one of
    thirteen value objects declared directly with [z.object], which have
    neither [createdAt] nor [updatedAt] and, [MindmapNodeSchema] apart, no
    [id]. *)
Theorem entities_carry_the_record_fields :
  (forall name schema,
     In (name, schema) entity_schemas ->
     In (name, schema) exported_schemas
     /\ exists base augmentation,
          schema = extend base augmentation
          /\ In base base_contracts
          /\ has augmentation "id" = false
          /\ has augmentation "updatedAt" = false
          /\ lookup (shape_of schema) "id" = Some (ZodString [check_uuid None])
          /\ lookup (shape_of schema) "updatedAt" = Some (ZodOptional ZodDate)
          /\ ((has augmentation "createdAt" = false
               /\ lookup (shape_of schema) "createdAt"
                  = lookup (shape_of base) "createdAt")
              \/ exists t,
                   lookup augmentation "createdAt"
                   = Some (default ZodDate (new_Date t))
                   /\ lookup (shape_of schema) "createdAt"
                      = Some (default ZodDate (new_Date t))
                   /\ In (name, schema, t) redeclaring_entities))
  /\ (forall name schema t,
        In (name, schema, t) redeclaring_entities ->
        In (name, schema) entity_schemas
        /\ lookup (shape_of schema) "createdAt"
           = Some (default ZodDate (new_Date t)))
  /\ (forall name schema,
        In (name, schema) exported_schemas ->
        In (name, schema) entity_schemas
        \/ (name = "RecordSchema" /\ In schema base_contracts)
        \/ (In name value_objects
            /\ has (shape_of schema) "createdAt" = false
            /\ has (shape_of schema) "updatedAt" = false
            /\ (name <> "MindmapNodeSchema"
                -> has (shape_of schema) "id" = false))).
Proof.
  split; [|split].
  - intros name schema H.
    apply (Forall_In _ _ _ entities_declarations (name, schema) H).
  - intros name schema t H.
    apply (Forall_In _ _ _ redeclaring_entities_own (name, schema, t) H).
  - intros name schema H.
    apply (Forall_In _ _ _ exported_classes (name, schema) H).
Qed.


(** C9.  A value that validation returned is returned unchanged when it is
    validated again, at whatever time, against the same contract: so it is
    for every schema of the repository. *)
Theorem revalidation_is_idempotent : forall isUuid isUrl name schema,
  In (name, schema) exported_schemas ->
  forall now data out,
    safeParse isUuid isUrl schema now data = SafeParseSuccess out ->
    forall now', safeParse isUuid isUrl schema now' out = SafeParseSuccess out.
Proof.
  intros isUuid isUrl name schema H.
  apply safeParse_idempotent.
  pose proof exported_regular as F. rewrite Forall_forall in F.
  apply (F _ H).
Qed.

End RepositoryProperties.

(** C2, as stated, fails: [ReminderSchema] is exported by productivity.ts,
    is declared with [z.object], and has none of the three record fields. *)
Lemma ReminderSchema_lacks_the_record_fields :
  In ("ReminderSchema", Productivity.ReminderSchema) (Productivity.exported 0%Z)
  /\ forall t, ~ carries_record_fields t Productivity.ReminderSchema.
Proof.
  split.
  - simpl. tauto.
  - intros t H. specialize (H "id" (or_introl eq_refl)). discriminate.
Qed.

(** C8.  The contract that [extend] builds holds, for every key, the
    definition of the extension when the extension has the key, and the
    definition of the base otherwise; its keys are those of the base and
    those of the extension, each once; and it validates a field that the
    extension declares by the extension's definition: an issue names the
    field exactly when that definition fails. *)
Theorem extension_shadows_base : forall isUuid isUrl base augmentation key,
  NoDup (keys augmentation) ->
  lookup (shape_of (extend (ZodObject base) augmentation)) key
  = match lookup augmentation key with
    | Some schema => Some schema
    | None => lookup base key
    end
  /\ has (shape_of (extend (ZodObject base) augmentation)) key
     = has base key || has augmentation key
  /\ (NoDup (keys base) ->
      NoDup (keys (shape_of (extend (ZodObject base) augmentation)))
      /\ forall schema now props,
           lookup augmentation key = Some schema ->
           (field_fails isUuid isUrl schema now props key
            <-> Exists (names key)
                  (snd (_parse isUuid isUrl (extend (ZodObject base) augmentation)
                               now [] (VObject props))))).
Proof.
  intros isUuid isUrl base augmentation key H.
  assert (L : lookup (spread base augmentation) key
              = match lookup augmentation key with
                | Some schema => Some schema
                | None => lookup base key
                end) by now apply lookup_spread.
  simpl. split; [exact L|]. split; [apply has_spread|].
  intros Hbase. split; [now apply NoDup_keys_spread|].
  intros schema now props Hs.
  apply field_fails_named; [now apply NoDup_keys_spread|].
  apply lookup_In. rewrite L. now rewrite Hs.
Qed.

(** C1, on the code.  The default of [createdAt] is the date captured when
    record.ts was evaluated, not the clock reading at validation: with the
    schema declared at time 1000, an input without [createdAt] validated
    at time 2000 is given the date 1000. *)
Theorem createdAt_default_is_the_load_time :
  safeParse uuid_format url_format (Record.RecordSchema 1000%Z) 2000%Z
    (VObject [("id", VString sample_uuid)])
  = SafeParseSuccess
      (VObject [("id", VString sample_uuid); ("createdAt", new_Date 1000%Z)])
  /\ new_Date 1000%Z <> new_Date 2000%Z.
Proof. split; [reflexivity|discriminate]. Qed.

(** * The properties on concrete inputs *)

Lemma every_failing_field_is_named_witness :
  (exists key schema,
     In (key, schema) (shape_of (Productivity.TimeLogSchema 1000%Z))
     /\ conforms uuid_format url_format schema 2000%Z (get failing_time_log key) = false)
  /\ exists issues,
       safeParse uuid_format url_format (Productivity.TimeLogSchema 1000%Z) 2000%Z
         (VObject failing_time_log) = SafeParseError issues
       /\ Exists (names "id") issues
       /\ Exists (names "taskId") issues
       /\ Exists (names "duration") issues
       /\ Exists (names "logDate") issues
       /\ ~ Exists (names "createdAt") issues
       /\ ~ Exists (names "description") issues.
Proof.
  assert (Hid : In ("id", ZodString [check_uuid None])
                   (shape_of (Productivity.TimeLogSchema 1000%Z))) by (simpl; tauto).
  assert (Htask : In ("taskId", ZodString [check_uuid None])
                     (shape_of (Productivity.TimeLogSchema 1000%Z))) by (simpl; tauto).
  assert (Hduration :
            In ("duration",
                ZodNumber [check_number_min 1%float true
                             (Some "Duration must be at least 1 minute.")])
               (shape_of (Productivity.TimeLogSchema 1000%Z))) by (simpl; tauto).
  assert (Hdate : In ("logDate", ZodDate) (shape_of (Productivity.TimeLogSchema 1000%Z))) by (simpl; tauto).
  assert (Hcreated : In ("createdAt", default ZodDate (new_Date 1000%Z))
                        (shape_of (Productivity.TimeLogSchema 1000%Z))) by (simpl; tauto).
  assert (Hdescription : In ("description", ZodOptional (ZodString []))
                            (shape_of (Productivity.TimeLogSchema 1000%Z))) by (simpl; tauto).
  assert (H : exists key schema,
            In (key, schema) (shape_of (Productivity.TimeLogSchema 1000%Z))
            /\ conforms uuid_format url_format schema 2000%Z
                 (get failing_time_log key) = false).
  { exists "duration", (ZodNumber [check_number_min 1%float true
                                     (Some "Duration must be at least 1 minute.")]).
    split; [exact Hduration|reflexivity]. }
  split; [exact H|].
  destruct (every_failing_field_is_named uuid_format url_format 1000%Z
              (skipn 3 (shape_of (Productivity.TimeLogSchema 1000%Z))) 2000%Z failing_time_log)
    as [F _].
  destruct (F H) as (issues & E & N & _).
  exists issues. split; [exact E|].
  repeat split.
  - exact (proj1 (N _ _ Hid) eq_refl).
  - exact (proj1 (N _ _ Htask) eq_refl).
  - exact (proj1 (N _ _ Hduration) eq_refl).
  - exact (proj1 (N _ _ Hdate) eq_refl).
  - intros X. apply (proj2 (N _ _ Hcreated)) in X. discriminate X.
  - intros X. apply (proj2 (N _ _ Hdescription)) in X. discriminate X.
Defined.

Lemma extension_composition_witness :
  uuid_format sample_uuid = true
  /\ (exists out,
        safeParse uuid_format url_format (ExtraSchema 1000%Z) 2000%Z
          (VObject [("id", VString sample_uuid); ("createdAt", VDate (Some 5%Z));
                    ("extraField", VString "x")])
        = SafeParseSuccess out)
  /\ (exists issues,
        safeParse uuid_format url_format (ExtraSchema 1000%Z) 2000%Z
          (VObject [("id", VString sample_uuid); ("createdAt", VDate (Some 5%Z))])
        = SafeParseError issues
        /\ Exists (names "extraField") issues).
Proof.
  split; [reflexivity|].
  destruct (extension_composition uuid_format url_format 1000%Z 2000%Z
              sample_uuid 5%Z "x" eq_refl) as (H1 & H2 & _).
  split; [exact H1|exact H2].
Defined.

Lemma missing_id_is_reported_witness :
  has [("createdAt", VDate (Some 5%Z))] "id" = false
  /\ exists issues,
       safeParse uuid_format url_format (Record.RecordSchema 1000%Z) 2000%Z
         (VObject [("createdAt", VDate (Some 5%Z))]) = SafeParseError issues
       /\ Exists (names "id") issues.
Proof.
  split; [reflexivity|].
  exact (proj1 (missing_id_is_reported uuid_format url_format 1000%Z 2000%Z
                  [("createdAt", VDate (Some 5%Z))] eq_refl)).
Defined.

Lemma updatedAt_is_optional_but_checked_witness :
  (exists issues,
     safeParse uuid_format url_format (Record.RecordSchema 1000%Z) 2000%Z
       (VObject [("id", VString sample_uuid); ("updatedAt", VString "yesterday")])
     = SafeParseError issues
     /\ Exists (names "updatedAt") issues)
  /\ exists out,
       safeParse uuid_format url_format (Record.RecordSchema 1000%Z) 2000%Z
         (VObject [("id", VString sample_uuid)]) = SafeParseSuccess out.
Proof.
  split.
  - apply (proj1 (updatedAt_is_optional_but_checked uuid_format url_format 1000%Z 2000%Z
                    [("id", VString sample_uuid); ("updatedAt", VString "yesterday")])).
    + simpl. discriminate.
    + simpl. discriminate.
  - apply (proj2 (updatedAt_is_optional_but_checked uuid_format url_format 1000%Z 2000%Z
                    [("id", VString sample_uuid)])).
    + reflexivity.
    + exists sample_uuid. split; reflexivity.
    + left. reflexivity.
Defined.

Lemma valid_record_is_accepted_witness :
  uuid_format sample_uuid = true
  /\ exists out,
       safeParse uuid_format url_format (Record.RecordSchema 1000%Z) 2000%Z
         (VObject [("id", VString sample_uuid); ("createdAt", VDate (Some 5%Z))])
       = SafeParseSuccess out
       /\ field out "id" = VString sample_uuid.
Proof.
  split; [reflexivity|].
  exact (valid_record_is_accepted uuid_format url_format 1000%Z 2000%Z
           sample_uuid 5%Z eq_refl).
Defined.

Lemma extension_shadows_base_witness :
  NoDup (keys (reaction_fields 2000%Z))
  /\ lookup (shape_of (Messaging.ReactionSchema 1000%Z 2000%Z)) "createdAt"
     = Some (default ZodDate (new_Date 2000%Z))
  /\ Exists (names "createdAt")
       (snd (_parse uuid_format url_format (Messaging.ReactionSchema 1000%Z 2000%Z)
                    3000%Z [] (VObject [("createdAt", VNull)]))).
Proof.
  assert (H : NoDup (keys (reaction_fields 2000%Z))).
  { simpl. repeat constructor; simpl; intuition discriminate. }
  assert (Hbase : NoDup (keys (shape_of (Record.RecordSchema 1000%Z)))).
  { simpl. repeat constructor; simpl; intuition discriminate. }
  split; [exact H|].
  destruct (extension_shadows_base uuid_format url_format
              (shape_of (Record.RecordSchema 1000%Z))
              (reaction_fields 2000%Z) "createdAt" H) as (L & _ & S).
  split; [exact L|].
  destruct (S Hbase) as [_ F].
  exact (proj1 (F (default ZodDate (new_Date 2000%Z)) 3000%Z
                  [("createdAt", VNull)] eq_refl) eq_refl).
Defined.

Lemma revalidation_is_idempotent_witness :
  In ("RecordSchema", Record.RecordSchema 1%Z)
     (all_exported 1%Z 2%Z 3%Z 4%Z 5%Z 6%Z 7%Z 8%Z 9%Z
        10%Z 11%Z 12%Z 13%Z 14%Z 15%Z 16%Z 17%Z 18%Z)
  /\ safeParse uuid_format url_format (Record.RecordSchema 1%Z) 2000%Z
       (VObject [("id", VString sample_uuid)])
     = SafeParseSuccess
         (VObject [("id", VString sample_uuid); ("createdAt", new_Date 1%Z)])
  /\ safeParse uuid_format url_format (Record.RecordSchema 1%Z) 3000%Z
       (VObject [("id", VString sample_uuid); ("createdAt", new_Date 1%Z)])
     = SafeParseSuccess
         (VObject [("id", VString sample_uuid); ("createdAt", new_Date 1%Z)]).
Proof.
  assert (H : In ("RecordSchema", Record.RecordSchema 1%Z)
                 (all_exported 1%Z 2%Z 3%Z 4%Z 5%Z 6%Z 7%Z 8%Z 9%Z
                    10%Z 11%Z 12%Z 13%Z 14%Z 15%Z 16%Z 17%Z 18%Z)).
  { simpl. tauto. }
  split; [exact H|]. split; [reflexivity|].
  exact (revalidation_is_idempotent 1%Z 2%Z 3%Z 4%Z 5%Z 6%Z 7%Z 8%Z 9%Z
           10%Z 11%Z 12%Z 13%Z 14%Z 15%Z 16%Z 17%Z 18%Z
           uuid_format url_format "RecordSchema" _ H
           2000%Z (VObject [("id", VString sample_uuid)]) _ eq_refl 3000%Z).
Defined.


Lemma entities_carry_the_record_fields_witness :
  In ("ReactionSchema", Messaging.ReactionSchema 2%Z 5%Z)
     (all_entities 1%Z 2%Z 3%Z 4%Z 5%Z 6%Z 7%Z 8%Z 9%Z 10%Z 11%Z 12%Z 13%Z 14%Z 15%Z 16%Z 17%Z 18%Z)
  /\ In ("ReactionSchema", Messaging.ReactionSchema 2%Z 5%Z)
        (all_exported 1%Z 2%Z 3%Z 4%Z 5%Z 6%Z 7%Z 8%Z 9%Z 10%Z 11%Z 12%Z 13%Z 14%Z 15%Z 16%Z 17%Z 18%Z)
  /\ exists base augmentation,
       Messaging.ReactionSchema 2%Z 5%Z = extend base augmentation
       /\ In base [Record.RecordSchema 1%Z; Record.RecordSchema 2%Z]
       /\ has augmentation "id" = false
       /\ has augmentation "updatedAt" = false
       /\ lookup (shape_of (Messaging.ReactionSchema 2%Z 5%Z)) "id" = Some (ZodString [check_uuid None])
       /\ lookup (shape_of (Messaging.ReactionSchema 2%Z 5%Z)) "updatedAt" = Some (ZodOptional ZodDate)
       /\ ((has augmentation "createdAt" = false
            /\ lookup (shape_of (Messaging.ReactionSchema 2%Z 5%Z)) "createdAt"
               = lookup (shape_of base) "createdAt")
           \/ exists t,
                lookup augmentation "createdAt" = Some (default ZodDate (new_Date t))
                /\ lookup (shape_of (Messaging.ReactionSchema 2%Z 5%Z)) "createdAt"
                   = Some (default ZodDate (new_Date t))
                /\ In ("ReactionSchema", Messaging.ReactionSchema 2%Z 5%Z, t)
                      (redeclared_createdAt 2%Z 5%Z 7%Z 10%Z 11%Z 14%Z 16%Z)).
Proof.
  assert (H : In ("ReactionSchema", Messaging.ReactionSchema 2%Z 5%Z)
                 (all_entities 1%Z 2%Z 3%Z 4%Z 5%Z 6%Z 7%Z 8%Z 9%Z 10%Z 11%Z 12%Z 13%Z 14%Z 15%Z 16%Z 17%Z 18%Z)).
  { simpl. tauto. }
  split; [exact H|].
  exact (proj1 (entities_carry_the_record_fields 1%Z 2%Z 3%Z 4%Z 5%Z 6%Z 7%Z 8%Z 9%Z 10%Z 11%Z 12%Z 13%Z 14%Z 15%Z 16%Z 17%Z 18%Z)
               "ReactionSchema" _ H).
Defined.

(** * Object schemas, field by field *)

(** ** Properties of an input: insertion and order *)

Lemma get_insert : forall p1 p2 key v k,
  k <> key -> get (p1 ++ (key, v) :: p2) k = get (p1 ++ p2) k.
Proof.
  induction p1 as [|[k0 v0] p1 IH]; simpl; intros p2 key v k Hne.
  - destruct (String.eqb_spec key k); [congruence|reflexivity].
  - destruct (String.eqb k0 k); auto.
Qed.

Lemma has_insert : forall (p1 p2 : list (string * value)) key v k,
  k <> key -> has (p1 ++ (key, v) :: p2) k = has (p1 ++ p2) k.
Proof.
  intros. rewrite !has_app. simpl.
  destruct (String.eqb_spec key k); [congruence|reflexivity].
Qed.

Lemma keys_Permutation : forall (p p' : list (string * value)),
  Permutation p p' -> Permutation (keys p) (keys p').
Proof. intros. unfold keys. now apply Permutation_map. Qed.

Lemma get_Permutation : forall p p',
  Permutation p p' -> NoDup (keys p) ->
  forall k, get p k = get p' k /\ has p k = has p' k.
Proof.
  induction 1 as [|[k0 v0] p p' Hp IH|[k1 v1] [k2 v2] p|p p' p'' H1 IH1 H2 IH2];
    intros Hnd k.
  - now split.
  - inversion Hnd as [|? ? Hn Hnd']; subst. simpl.
    destruct (IH Hnd' k) as [-> ->]. now split.
  - simpl. inversion Hnd as [|? ? Hn Hnd']; subst.
    assert (k1 <> k2) by (intros ->; apply Hn; now left).
    destruct (String.eqb_spec k1 k), (String.eqb_spec k2 k); subst;
      try congruence; now split.
  - destruct (IH1 Hnd k) as [-> ->]. apply IH2.
    eapply Permutation_NoDup; [|exact Hnd]. now apply keys_Permutation.
Qed.

Ltac prove_each tac :=
  repeat (apply Forall_cons; [tac|]); apply Forall_nil.

Section ObjectSchemas.

Variable isUuid : string -> bool.
Variable isUrl : string -> bool.

Abbreviation parse := (_parse isUuid isUrl).

(** An object schema reads its input only at the keys of its shape. *)
Lemma parse_object_ext : forall shape now path p1 p2,
  (forall k, In k (keys shape) -> get p1 k = get p2 k /\ has p1 k = has p2 k) ->
  parse (ZodObject shape) now path (VObject p1)
  = parse (ZodObject shape) now path (VObject p2).
Proof.
  intros shape now path p1 p2 H. simpl.
  match goal with
  | |- (mergeObjectSync _ (map fst ?A) _, _) = (mergeObjectSync _ (map fst ?B) _, _) =>
      assert (E : A = B); [|now rewrite E]
  end.
  apply map_ext_in. intros [k s] Hin. simpl.
  destruct (H k) as [-> ->]; [|reflexivity].
  change k with (fst (k, s)). now apply in_map.
Qed.

Lemma safeParse_object_ext : forall shape now p1 p2,
  (forall k, In k (keys shape) -> get p1 k = get p2 k /\ has p1 k = has p2 k) ->
  safeParse isUuid isUrl (ZodObject shape) now (VObject p1)
  = safeParse isUuid isUrl (ZodObject shape) now (VObject p2).
Proof.
  intros. unfold safeParse. now rewrite (parse_object_ext shape now [] p1 p2).
Qed.

Lemma safeParse_success : forall schema now data out,
  safeParse isUuid isUrl schema now data = SafeParseSuccess out ->
  fst (parse schema now [] data) = OK out.
Proof.
  intros schema now data out. unfold safeParse.
  destruct (parse schema now [] data) as [[|v|v] issues]; simpl;
    try (destruct issues; discriminate).
  now intros [= ->].
Qed.

Lemma safeParse_failure : forall schema now data issues,
  safeParse isUuid isUrl schema now data = SafeParseError issues ->
  issues = snd (parse schema now [] data).
Proof.
  intros schema now data issues. unfold safeParse.
  destruct (parse schema now [] data) as [[|v|v] i]; simpl;
    try discriminate; destruct i; try discriminate; now intros [= <-].
Qed.

(** What an accepted object holds: at each key of the shape the valid
    result of the field, and no other key. *)
Lemma parse_object_OK : forall shape now path props out,
  NoDup (keys shape) -> ~ In "__proto__" (keys shape) ->
  fst (parse (ZodObject shape) now path (VObject props)) = OK out ->
  (forall key schema,
     In (key, schema) shape ->
     fst (parse_field isUuid isUrl schema now path props key) = OK (field out key))
  /\ (forall key, owns out key = true -> In key (keys shape)).
Proof.
  intros shape now path props out Hnd Hp E.
  simpl in E. rewrite map_map in E. simpl in E.
  change (mergeObjectSync valid
            (pairs_of shape
               (fun f => fst (parse (snd f) now (path ++ [Key (fst f)])
                                (get props (fst f))))
               (fun f => has props (fst f))) [] = OK out) in E.
  apply mergeObjectSync_written in E; auto.
  destruct E as (_ & HR & ->). simpl. split.
  - intros key schema Hin.
    destruct (get_written isUuid isUrl shape
                (fun f => fst (parse (snd f) now (path ++ [Key (fst f)])
                                 (get props (fst f))))
                (fun f => has props (fst f)) (key, schema) Hnd Hin) as [Hget _].
    simpl in Hget. specialize (HR _ Hin). simpl in HR.
    unfold parse_field. rewrite HR at 1. f_equal. rewrite Hget.
    destruct (kept _ _) eqn:K; [reflexivity|].
    unfold kept in K. apply orb_false_iff in K. destruct K as [K _].
    destruct (result_value _); simpl in K; try discriminate. reflexivity.
  - intros key Ho.
    destruct (in_dec string_dec key (keys shape)) as [Hin|Hn]; [exact Hin|].
    rewrite (has_written_absent isUuid isUrl) in Ho by exact Hn. discriminate.
Qed.

(** A field of the shape is a property of the validated object when its
    value is not [undefined] or the input had the property. *)
Lemma parse_object_owns : forall shape now path props out key schema,
  NoDup (keys shape) -> ~ In "__proto__" (keys shape) ->
  fst (parse (ZodObject shape) now path (VObject props)) = OK out ->
  In (key, schema) shape ->
  owns out key = kept (field out key) (has props key).
Proof.
  intros shape now path props out key schema Hnd Hp E Hin.
  destruct (parse_object_OK shape now path props out Hnd Hp E) as [F _].
  specialize (F key schema Hin).
  simpl in E. rewrite map_map in E. simpl in E.
  change (mergeObjectSync valid
            (pairs_of shape
               (fun f => fst (parse (snd f) now (path ++ [Key (fst f)])
                                (get props (fst f))))
               (fun f => has props (fst f))) [] = OK out) in E.
  apply mergeObjectSync_written in E; auto.
  destruct E as (_ & _ & ->). simpl in *.
  destruct (get_written isUuid isUrl shape
              (fun f => fst (parse (snd f) now (path ++ [Key (fst f)])
                               (get props (fst f))))
              (fun f => has props (fst f)) (key, schema) Hnd Hin) as [_ Hhas].
  simpl in Hhas. rewrite Hhas. unfold parse_field in F. rewrite F. reflexivity.
Qed.

(** An object whose fields are all valid is accepted. *)
Lemma parse_object_accepts : forall shape now path props,
  NoDup (keys shape) -> ~ In "__proto__" (keys shape) ->
  (forall key schema,
     In (key, schema) shape ->
     isValid (fst (parse_field isUuid isUrl schema now path props key)) = true) ->
  exists out, parse (ZodObject shape) now path (VObject props) = (OK out, []).
Proof.
  intros shape now path props Hnd Hp H.
  pose proof (parse_quiet isUuid isUrl (ZodObject shape) now path (VObject props)) as Q.
  destruct (parse (ZodObject shape) now path (VObject props)) as [r issues] eqn:E.
  assert (Er : fst (parse (ZodObject shape) now path (VObject props)) = r)
    by now rewrite E.
  simpl in Er. rewrite map_map in Er. simpl in Er.
  change (mergeObjectSync valid
            (pairs_of shape
               (fun f => fst (parse (snd f) now (path ++ [Key (fst f)])
                                (get props (fst f))))
               (fun f => has props (fst f))) [] = r) in Er.
  rewrite mergeObjectSync_writes in Er; auto.
  - subst r. unfold quiet in Q. simpl in Q. rewrite (Q eq_refl). eauto.
  - intros [k s] Hin. specialize (H k s Hin). unfold parse_field in H. simpl.
    destruct (fst (parse s now (path ++ [Key k]) (get props k)));
      simpl in *; try discriminate. reflexivity.
Qed.

End ObjectSchemas.

Section FieldSchemas.

Variable isUuid : string -> bool.
Variable isUrl : string -> bool.

Abbreviation parse := (_parse isUuid isUrl).

Lemma merge_union_INVALID : forall path results,
  Forall (fun r => fst r = INVALID) results ->
  fst (merge_union path results) = INVALID.
Proof.
  intros path results H. unfold merge_union.
  assert (first_valid results = None /\ first_dirty results = None) as [-> ->];
    [|reflexivity].
  induction H as [|[r i] rest Hr _ [IH1 IH2]]; [now split|].
  simpl in Hr. subst r. simpl. now split.
Qed.

Lemma required_rejects_undefined : forall schema now path,
  required schema = true -> fst (parse schema now path VUndefined) = INVALID.
Proof.
  induction schema using ZodType_induction; intros now path R;
    try reflexivity; try discriminate R.
  simpl in *. apply merge_union_INVALID. apply Forall_map.
  rewrite forallb_forall in R. rewrite Forall_forall in *.
  intros s Hs. apply H; auto.
Qed.

Lemma parse_string_OK : forall checks now path data out,
  fst (parse (ZodString checks) now path data) = OK out ->
  exists s, data = VString s /\ out = VString s
            /\ forallb (satisfies isUuid isUrl s) checks = true.
Proof.
  intros checks now path data out. simpl.
  destruct data; simpl; try discriminate.
  pose proof (run_string_checks_valid isUuid isUrl checks path s) as V.
  destruct (run_string_checks isUuid isUrl checks path s valid) as [[| |] ?];
    simpl in *; try discriminate.
  intros [= <-]. eauto.
Qed.

(** A failing check of a string adds its issue, whatever the checks before
    it did. *)
Lemma run_string_checks_violation : forall checks path s st check,
  In check checks -> satisfies isUuid isUrl s check = false ->
  In (violation check path)
     (snd (run_string_checks isUuid isUrl checks path s st)).
Proof.
  induction checks as [|c checks IH]; intros path s st check; simpl; [tauto|].
  intros [->|Hin] L.
  - destruct check as [n m|n m|m|m]; simpl in *.
    + apply Nat.leb_gt in L. destruct (Nat.ltb_spec (String.length s) n); [|lia].
      destruct (run_string_checks isUuid isUrl checks path s (mark_dirty st)).
      now left.
    + apply Nat.leb_gt in L. destruct (Nat.ltb_spec n (String.length s)); [|lia].
      destruct (run_string_checks isUuid isUrl checks path s (mark_dirty st)).
      now left.
    + rewrite L.
      destruct (run_string_checks isUuid isUrl checks path s (mark_dirty st)).
      now left.
    + rewrite L.
      destruct (run_string_checks isUuid isUrl checks path s (mark_dirty st)).
      now left.
  - specialize (IH path s).
    destruct c; simpl;
      match goal with
      | |- context [if ?b then _ else _] => destruct b
      end; simpl; auto;
      match goal with
      | |- context [run_string_checks _ _ ?cs ?p ?d ?x] =>
          specialize (IH x check Hin L);
          destruct (run_string_checks isUuid isUrl cs p d x)
      end; simpl in *; now right.
Qed.

Lemma parse_optional : forall inner now path data,
  data <> VUndefined ->
  parse (ZodOptional inner) now path data = parse inner now path data.
Proof. intros inner now path data H. destruct data; try reflexivity. now contradiction H. Qed.

Lemma parse_default : forall inner d now path data,
  data <> VUndefined ->
  parse (ZodDefault inner d) now path data = parse inner now path data.
Proof. intros inner d now path data H. destruct data; try reflexivity. now contradiction H. Qed.

Lemma scalar_keeps : forall schema now path data out,
  scalar schema = true -> data <> VUndefined ->
  fst (parse schema now path data) = OK out -> out = data.
Proof.
  induction schema using ZodType_induction; intros now path data out Sc Hd;
    try discriminate Sc; simpl.
  - destruct data; simpl; try discriminate.
    destruct (run_string_checks isUuid isUrl checks path s valid) as [[| |] ?];
      simpl; try discriminate. now intros [= <-].
  - destruct data; simpl; try discriminate.
    destruct (PrimFloat.is_nan x); simpl; try discriminate.
    destruct (run_number_checks checks path x valid) as [[| |] ?];
      simpl; try discriminate. now intros [= <-].
  - destruct data; simpl; try discriminate. now intros [= <-].
  - destruct data as [| | | | |[t|]| |]; simpl; try discriminate. now intros [= <-].
  - now intros [= <-].
  - destruct data; simpl; try discriminate.
    destruct (String.eqb s lit); simpl; try discriminate. now intros [= <-].
  - destruct data; simpl; try discriminate.
    destruct (existsb (String.eqb s) values); simpl; try discriminate. now intros [= <-].
  - destruct data; try (now apply IHschema); now contradiction Hd.
  - destruct data; try (now apply IHschema); now contradiction Hd.
Qed.

End FieldSchemas.

Lemma existsb_eqb_true : forall x l, existsb (String.eqb x) l = true <-> In x l.
Proof.
  intros x l. rewrite existsb_exists. split.
  - intros (y & Hin & E). apply String.eqb_eq in E. now subst.
  - intros Hin. exists x. split; [exact Hin|apply String.eqb_refl].
Qed.

Section CompoundSchemas.

Variable isUuid : string -> bool.
Variable isUrl : string -> bool.

Abbreviation parse := (_parse isUuid isUrl).

Lemma parse_enum_OK : forall values now path data out,
  fst (parse (ZodEnum values) now path data) = OK out ->
  exists s, data = VString s /\ out = VString s /\ In s values.
Proof.
  intros values now path data out. simpl.
  destruct data; simpl; try discriminate.
  destruct (existsb (String.eqb s) values) eqn:E; simpl; try discriminate.
  intros [= <-]. apply existsb_eqb_true in E. eauto.
Qed.

Lemma parse_literal_OK : forall lit now path data out,
  fst (parse (ZodLiteral lit) now path data) = OK out ->
  data = VString lit /\ out = VString lit.
Proof.
  intros lit now path data out. simpl.
  destruct data; simpl; try discriminate.
  destruct (String.eqb s lit) eqn:E; simpl; try discriminate.
  intros [= <-]. apply String.eqb_eq in E. now subst.
Qed.

Lemma run_number_checks_min : forall checks path x st b incl m,
  In (check_number_min b incl m) checks ->
  (if incl then PrimFloat.ltb x b else PrimFloat.leb x b) = true ->
  In (Issue (too_small (sized_number b) incl false) path m)
     (snd (run_number_checks checks path x st)).
Proof.
  induction checks as [|[b' incl' m'] checks IH]; intros path x st b incl m; simpl; [tauto|].
  intros [E|Hin] L.
  - injection E as -> -> ->. rewrite L.
    destruct (run_number_checks checks path x (mark_dirty st)). now left.
  - destruct (if incl' then PrimFloat.ltb x b' else PrimFloat.leb x b').
    + specialize (IH path x (mark_dirty st) b incl m Hin L).
      destruct (run_number_checks checks path x (mark_dirty st)). now right.
    + now apply IH.
Qed.

Lemma parse_number_OK : forall checks now path data out,
  fst (parse (ZodNumber checks) now path data) = OK out ->
  exists x, data = VNumber x /\ out = VNumber x
            /\ PrimFloat.is_nan x = false
            /\ forallb (above x) checks = true.
Proof.
  intros checks now path data out. simpl.
  destruct data; simpl; try discriminate.
  destruct (PrimFloat.is_nan x) eqn:N; simpl; try discriminate.
  pose proof (run_number_checks_valid checks path x) as V.
  destruct (run_number_checks checks path x valid) as [[| |] ?];
    simpl in *; try discriminate.
  intros [= <-]. exists x. auto.
Qed.

(** ** Arrays *)

Lemma nth_error_parse_items : forall f path items i k,
  nth_error (parse_items f path items i) k
  = option_map (fun item => f (path ++ [Index (i + k)]) item) (nth_error items k).
Proof.
  induction items as [|item items IH]; intros i k; simpl.
  - now destruct k.
  - destruct k as [|k]; simpl.
    + now rewrite Nat.add_0_r.
    + rewrite IH. now rewrite Nat.add_succ_comm.
Qed.

Lemma length_parse_items : forall f path items i,
  List.length (parse_items f path items i) = List.length items.
Proof. induction items; intros; simpl; auto. Qed.

Lemma parse_array_OK : forall type minLength now path items out,
  fst (parse (ZodArray type minLength) now path (VArray items)) = OK out ->
  exists vs,
    out = VArray vs
    /\ List.length vs = List.length items
    /\ (forall n m, minLength = Some (n, m) -> n <= List.length items)
    /\ (forall i item, nth_error items i = Some item ->
          exists v, nth_error vs i = Some v
                    /\ fst (parse type now (path ++ [Index i]) item) = OK v).
Proof.
  intros type minLength now path items out. simpl.
  set (results := parse_items (fun p item => parse type now p item) path items 0).
  destruct (match minLength with
            | Some (n, m) =>
                if Nat.ltb (List.length items) n
                then (dirty, [Issue (too_small (sized_array n) true false) path m])
                else (valid, [])
            | None => (valid, [])
            end) as [st own] eqn:M.
  simpl. intros E. apply mergeArray_OK in E.
  destruct E as (-> & vs & Hr & ->). exists vs. simpl.
  assert (Hlen : List.length vs = List.length items).
  { apply (f_equal (@List.length _)) in Hr.
    rewrite !length_map in Hr. unfold results in Hr.
    now rewrite length_parse_items in Hr. }
  repeat split; auto.
  - intros n m ->. destruct (Nat.ltb_spec (List.length items) n); [discriminate|lia].
  - intros i item Hi.
    apply (f_equal (fun l => nth_error l i)) in Hr.
    rewrite !nth_error_map in Hr. unfold results in Hr.
    rewrite nth_error_parse_items, Hi in Hr. simpl in Hr.
    destruct (nth_error vs i) as [v|]; simpl in Hr; [|discriminate].
    exists v. split; [reflexivity|]. congruence.
Qed.

Lemma parse_array_short : forall type n m now path items,
  List.length items < n ->
  isValid (fst (parse (ZodArray type (Some (n, m))) now path (VArray items))) = false
  /\ In (Issue (too_small (sized_array n) true false) path m)
        (snd (parse (ZodArray type (Some (n, m))) now path (VArray items))).
Proof.
  intros type n m now path items L. split.
  - destruct (fst (parse (ZodArray type (Some (n, m))) now path (VArray items)))
      as [| |out] eqn:E; try reflexivity.
    apply parse_array_OK in E. destruct E as (vs & _ & _ & Hm & _).
    specialize (Hm n m eq_refl). lia.
  - simpl. destruct (Nat.ltb_spec (List.length items) n); [|lia]. simpl. now left.
Qed.

Lemma parse_array_item : forall type minLength now path items i item,
  nth_error items i = Some item ->
  isValid (fst (parse type now (path ++ [Index i]) item)) = false ->
  isValid (fst (parse (ZodArray type minLength) now path (VArray items))) = false
  /\ Exists (below (path ++ [Index i]))
            (snd (parse (ZodArray type minLength) now path (VArray items))).
Proof.
  intros type minLength now path items i item Hi Hf. split.
  - destruct (fst (parse (ZodArray type minLength) now path (VArray items)))
      as [| |out] eqn:E; try reflexivity.
    apply parse_array_OK in E. destruct E as (vs & _ & _ & _ & Hitems).
    destruct (Hitems i item Hi) as (v & _ & Hv). rewrite Hv in Hf. discriminate.
  - pose proof (parse_reports isUuid isUrl type now (path ++ [Index i]) item Hf) as Hne.
    pose proof (parse_below isUuid isUrl type now (path ++ [Index i]) item) as Hb.
    destruct (snd (parse type now (path ++ [Index i]) item)) as [|i0 rest] eqn:Ei;
      [congruence|].
    apply Exists_exists. exists i0. split.
    + simpl.
      match goal with
      | |- context [let (_, _) := ?m in _] => destruct m
      end.
      simpl. apply in_or_app. right. apply in_concat.
      exists (i0 :: rest). split; [|now left].
      apply in_map_iff. exists (parse type now (path ++ [Index i]) item).
      split; [exact Ei|].
      apply (nth_error_In _ i). rewrite nth_error_parse_items, Hi. reflexivity.
    + rewrite Forall_forall in Hb. apply Hb. now left.
Qed.

(** ** Records of any values under string keys *)

Lemma parse_free_record : forall now path entries,
  parse (ZodRecord (ZodString []) ZodAny) now path (VObject entries)
  = (OK (VObject (store (get entries) (keys entries) [])), []).
Proof.
  intros now path entries.
  rewrite (surjective_pairing (parse _ now path (VObject entries))). f_equal.
  - rewrite parse_record_unfold.
    apply (mergeObjectSync_stores
             (fun k => fst (parse (ZodString []) now (path ++ [Key k]) (VString k)))
             (fun k => fst (parse ZodAny now (path ++ [Key k]) (get entries k)))
             (fun k => has entries k)).
    intros k Hk. repeat split. now apply has_keys.
  - simpl. rewrite map_map. simpl.
    induction entries as [|e entries IH]; simpl; auto.
Qed.

Lemma parse_free_record_keeps : forall now path entries,
  NoDup (keys entries) -> ~ In "__proto__" (keys entries) ->
  parse (ZodRecord (ZodString []) ZodAny) now path (VObject entries)
  = (OK (VObject entries), []).
Proof.
  intros now path entries Hnd Hp. rewrite parse_free_record.
  rewrite store_again; auto.
  intros k v Hin. now apply In_get.
Qed.

(** ** Pairs of numbers *)

Lemma parse_number_pair_OK : forall now path data out,
  fst (parse (ZodTuple [ZodNumber []; ZodNumber []]) now path data) = OK out ->
  exists x y, data = VArray [VNumber x; VNumber y] /\ out = data
              /\ PrimFloat.is_nan x = false /\ PrimFloat.is_nan y = false.
Proof.
  intros now path data out.
  destruct data as [| | | | | |items|]; try discriminate.
  destruct items as [|a [|b [|c rest]]]; try discriminate.
  - simpl. destruct a; simpl; try discriminate;
      destruct (PrimFloat.is_nan x) eqn:Nx; simpl; try discriminate;
      destruct b; simpl; try discriminate;
      destruct (PrimFloat.is_nan x0) eqn:Ny; simpl; try discriminate.
    intros [= <-]. eauto 10.
  - simpl. destruct a; simpl; try discriminate;
      destruct (PrimFloat.is_nan x) eqn:Nx; simpl; try discriminate;
      destruct b; simpl; try discriminate;
      destruct (PrimFloat.is_nan x0) eqn:Ny; simpl; discriminate.
Qed.

(** ** Fields of an accepted object *)

Lemma object_accepts_field : forall shape now props out key fieldSchema,
  distinct (keys shape) = true ->
  existsb (String.eqb "__proto__") (keys shape) = false ->
  In (key, fieldSchema) shape ->
  safeParse isUuid isUrl (ZodObject shape) now (VObject props) = SafeParseSuccess out ->
  fst (parse_field isUuid isUrl fieldSchema now [] props key) = OK (field out key).
Proof.
  intros shape now props out key fieldSchema Hnd Hp Hin E.
  apply distinct_NoDup in Hnd. apply existsb_eqb_In in Hp.
  apply safeParse_success in E.
  destruct (parse_object_OK isUuid isUrl _ now [] props out Hnd Hp E) as [F _].
  now apply F.
Qed.

Lemma nested_object_field : forall shape now path data out key fieldSchema,
  distinct (keys shape) = true ->
  existsb (String.eqb "__proto__") (keys shape) = false ->
  In (key, fieldSchema) shape ->
  fst (parse (ZodObject shape) now path data) = OK out ->
  exists props,
    data = VObject props
    /\ fst (parse fieldSchema now (path ++ [Key key]) (get props key))
       = OK (field out key).
Proof.
  intros shape now path data out key fieldSchema Hnd Hp Hin E.
  apply distinct_NoDup in Hnd. apply existsb_eqb_In in Hp.
  destruct data as [| | | | | | |props]; try discriminate E.
  exists props. split; [reflexivity|].
  destruct (parse_object_OK isUuid isUrl _ now path props out Hnd Hp E) as [F _].
  now apply F.
Qed.

(** ** The order of the validated properties *)

(** The properties written for a shape are those of its fields that are
    kept, in the order of the shape. *)
Lemma keys_written : forall shape R A,
  NoDup (keys shape) ->
  keys (written shape R A) = filter (has (written shape R A)) (keys shape).
Proof.
  unfold keys.
  induction shape as [|[k s] shape IH]; intros R A Hnd; [reflexivity|].
  inversion Hnd as [|? ? Hk Hnd']; subst.
  specialize (IH R A Hnd').
  change (written ((k, s) :: shape) R A)
    with ((if kept (result_value (R (k, s))) (A (k, s))
           then [(k, result_value (R (k, s)))] else []) ++ written shape R A).
  set (w := if kept (result_value (R (k, s))) (A (k, s))
            then [(k, result_value (R (k, s)))] else []) in *.
  assert (T : filter (has (w ++ written shape R A)) (map fst shape)
              = filter (has (written shape R A)) (map fst shape)).
  { apply filter_ext_in. intros k' Hin. rewrite has_app. unfold w.
    destruct (kept _ _); [|reflexivity]. simpl.
    destruct (String.eqb_spec k k'); [subst; contradiction|reflexivity]. }
  change (map fst ((k, s) :: shape)) with (k :: map fst shape).
  cbn [filter]. rewrite T, has_app.
  rewrite (has_written_absent isUuid isUrl shape R A k Hk), orb_false_r.
  rewrite map_app, IH. unfold w.
  destruct (kept _ _); simpl.
  - now rewrite String.eqb_refl.
  - reflexivity.
Qed.

Lemma parse_object_keys : forall shape now path props o,
  NoDup (keys shape) -> ~ In "__proto__" (keys shape) ->
  fst (parse (ZodObject shape) now path (VObject props)) = OK (VObject o) ->
  keys o = filter (has o) (keys shape).
Proof.
  intros shape now path props o Hnd Hp E.
  simpl in E. rewrite map_map in E. simpl in E.
  change (mergeObjectSync valid
            (pairs_of shape
               (fun f => fst (parse (snd f) now (path ++ [Key (fst f)])
                                (get props (fst f))))
               (fun f => has props (fst f))) [] = OK (VObject o)) in E.
  apply mergeObjectSync_written in E; auto.
  destruct E as (_ & _ & [= ->]). simpl. now apply keys_written.
Qed.

End CompoundSchemas.

(** * Properties of the exported schemas *)

Section SchemaProperties.

Variable isUuid : string -> bool.
Variable isUrl : string -> bool.

Variable t_Record_createdAt : Time.
Variable t_Record_copy_createdAt : Time.
Variable t_Message_sentAt : Time.
Variable t_Notification_sentAt : Time.
Variable t_Reaction_createdAt : Time.
Variable t_TypingIndicator_startedAt : Time.
Variable t_FileVersion_createdAt : Time.
Variable t_FileHistory_timestamp : Time.
Variable t_UserActivity_timestamp : Time.
Variable t_FileComment_createdAt : Time.
Variable t_EventNotification_createdAt : Time.
Variable t_DownloadRequest_requestedAt : Time.
Variable t_AuditLog_timestamp : Time.
Variable t_FileMetadata_createdAt : Time.
Variable t_Quota_lastUpdated : Time.
Variable t_Comment_createdAt : Time.
Variable t_ContentEditorState_lastEditedAt : Time.
Variable t_ContentPreview_previewGeneratedAt : Time.

Abbreviation exported_schemas :=
  (all_exported t_Record_createdAt t_Record_copy_createdAt t_Message_sentAt
     t_Notification_sentAt t_Reaction_createdAt t_TypingIndicator_startedAt
     t_FileVersion_createdAt t_FileHistory_timestamp t_UserActivity_timestamp
     t_FileComment_createdAt t_EventNotification_createdAt
     t_DownloadRequest_requestedAt t_AuditLog_timestamp t_FileMetadata_createdAt
     t_Quota_lastUpdated t_Comment_createdAt t_ContentEditorState_lastEditedAt
     t_ContentPreview_previewGeneratedAt).

Abbreviation entity_schemas :=
  (all_entities t_Record_createdAt t_Record_copy_createdAt t_Message_sentAt
     t_Notification_sentAt t_Reaction_createdAt t_TypingIndicator_startedAt
     t_FileVersion_createdAt t_FileHistory_timestamp t_UserActivity_timestamp
     t_FileComment_createdAt t_EventNotification_createdAt
     t_DownloadRequest_requestedAt t_AuditLog_timestamp t_FileMetadata_createdAt
     t_Quota_lastUpdated t_Comment_createdAt t_ContentEditorState_lastEditedAt
     t_ContentPreview_previewGeneratedAt).

Abbreviation validate := (safeParse isUuid isUrl).

(** Every exported schema is an object schema that names each field once,
    none of them [__proto__]. *)
Lemma exported_objects :
  Forall (fun e => snd e = ZodObject (shape_of (snd e))
                   /\ NoDup (keys (shape_of (snd e)))
                   /\ ~ In "__proto__" (keys (shape_of (snd e))))
         exported_schemas.
Proof.
  prove_each ltac:(cbn -[In]; repeat split;
                   [apply distinct_NoDup; reflexivity
                   |apply existsb_eqb_In; reflexivity]).
Qed.

Lemma exported_object : forall name schema,
  In (name, schema) exported_schemas ->
  schema = ZodObject (shape_of schema)
  /\ NoDup (keys (shape_of schema))
  /\ ~ In "__proto__" (keys (shape_of schema)).
Proof.
  intros name schema H. pose proof exported_objects as F.
  rewrite Forall_forall in F. apply (F _ H).
Qed.

Lemma entity_object : forall name schema,
  In (name, schema) entity_schemas ->
  (schema = ZodObject (shape_of schema)
   /\ NoDup (keys (shape_of schema))
   /\ ~ In "__proto__" (keys (shape_of schema)))
  /\ exists t, carries_record_fields t schema.
Proof.
  intros name schema H.
  assert (F : Forall (fun e => (snd e = ZodObject (shape_of (snd e))
                                /\ NoDup (keys (shape_of (snd e)))
                                /\ ~ In "__proto__" (keys (shape_of (snd e))))
                               /\ exists t, carries_record_fields t (snd e))
                     entity_schemas).
  { prove_each ltac:(split;
      [cbn -[In]; repeat split;
       [apply distinct_NoDup; reflexivity|apply existsb_eqb_In; reflexivity]
      |eexists; intros key [<-|[<-|[<-|[]]]]; reflexivity]). }
  rewrite Forall_forall in F. apply (F _ H).
Qed.

(** Every field of an exported schema that is declared optional, with a
    default or as [z.any()] accepts [undefined]. *)
Lemma exported_omissible :
  Forall (fun e =>
            Forall (fun f => required (snd f) = false ->
                             forall now path,
                               isValid (fst (_parse isUuid isUrl (snd f) now path VUndefined))
                               = true)
                   (shape_of (snd e)))
         exported_schemas.
Proof.
  prove_each ltac:(cbn [snd shape_of]; unfold extend; cbn [spread fold_left set String.eqb Ascii.eqb Bool.eqb shape_of];
                   prove_each ltac:(cbn [snd]; intros R now path;
                                    first [discriminate R|reflexivity])).
Qed.

(** Every default an exported schema declares is a value its field accepts
    unchanged. *)
Lemma exported_defaults :
  Forall (fun e =>
            Forall (fun f => forall inner d,
                      snd f = ZodDefault inner d ->
                      forall now path,
                        fst (_parse isUuid isUrl inner now path (d now)) = OK (d now))
                   (shape_of (snd e)))
         exported_schemas.
Proof.
  prove_each ltac:(cbn [snd shape_of]; unfold extend; cbn [spread fold_left set String.eqb Ascii.eqb Bool.eqb shape_of];
                   prove_each ltac:(cbn [snd]; intros inner d E now path;
                                    first [discriminate E
                                          |injection E as <- <-; reflexivity])).
Qed.

Lemma exported_field : forall (P : string * ZodType -> Prop),
  Forall (fun e => Forall P (shape_of (snd e))) exported_schemas ->
  forall name schema key fieldSchema,
    In (name, schema) exported_schemas ->
    In (key, fieldSchema) (shape_of schema) ->
    P (key, fieldSchema).
Proof.
  intros P F name schema key fieldSchema H Hin.
  rewrite Forall_forall in F. specialize (F _ H). simpl in F.
  rewrite Forall_forall in F. apply (F _ Hin).
Qed.

(** What an accepted object says of a field of an exported schema. *)
Lemma exported_accepts_field : forall name schema key fieldSchema now props out,
  In (name, schema) exported_schemas ->
  In (key, fieldSchema) (shape_of schema) ->
  validate schema now (VObject props) = SafeParseSuccess out ->
  fst (parse_field isUuid isUrl fieldSchema now [] props key) = OK (field out key).
Proof.
  intros name schema key fieldSchema now props out H Hin E.
  destruct (exported_object name schema H) as (Es & Hnd & Hp).
  apply safeParse_success in E. rewrite Es in E.
  destruct (parse_object_OK isUuid isUrl _ now [] props out Hnd Hp E) as [F _].
  now apply F.
Qed.

(** What a failing field of an exported schema does to the result. *)
Lemma exported_rejects_field : forall name schema key fieldSchema now props,
  In (name, schema) exported_schemas ->
  In (key, fieldSchema) (shape_of schema) ->
  field_fails isUuid isUrl fieldSchema now props key ->
  exists issues,
    validate schema now (VObject props) = SafeParseError issues
    /\ Exists (names key) issues
    /\ forall i, In i (snd (parse_field isUuid isUrl fieldSchema now [] props key)) ->
                 In i issues.
Proof.
  intros name schema key fieldSchema now props H Hin Hf.
  destruct (exported_object name schema H) as (Es & Hnd & Hp).
  rewrite Es.
  destruct (validate_object_fails isUuid isUrl _ now props key fieldSchema Hin Hf)
    as (issues & E & Hi & N).
  exists issues. repeat split; auto.
  intros i Hin'. rewrite Hi, parse_object_issues. apply in_concat.
  eexists. split; [|exact Hin'].
  apply in_map_iff. exists (key, fieldSchema). now split.
Qed.

(** What validation leaves in the record fields of an entity. *)
Lemma entity_record_fields : forall name schema now data out,
  In (name, schema) entity_schemas ->
  validate schema now data = SafeParseSuccess out ->
  (exists props, out = VObject props)
  /\ (exists u, field out "id" = VString u /\ isUuid u = true)
  /\ (exists t, field out "createdAt" = VDate (Some t))
  /\ (field out "updatedAt" = VUndefined
      \/ exists t, field out "updatedAt" = VDate (Some t)).
Proof.
  intros name schema now data out H E.
  destruct (entity_object name schema H) as ((Es & Hnd & Hp) & t0 & C).
  apply safeParse_success in E. rewrite Es in E.
  destruct data as [| | | | | | |props]; try discriminate E.
  destruct (parse_object_OK isUuid isUrl _ now [] props out Hnd Hp E) as [F _].
  assert (L : forall key s, lookup (shape_of (Record.RecordSchema t0)) key = Some s ->
                fst (parse_field isUuid isUrl s now [] props key) = OK (field out key)).
  { intros key s Hl. apply F. apply lookup_In. rewrite C; [exact Hl|].
    apply lookup_In in Hl. apply (in_map fst) in Hl. exact Hl. }
  split; [|split; [|split]].
  - simpl in E. apply mergeObjectSync_object in E. exact E.
  - specialize (L "id" _ eq_refl). unfold parse_field in L.
    apply (parse_string_OK isUuid isUrl _ now) in L.
    destruct L as (u & _ & -> & Hu). simpl in Hu.
    rewrite andb_true_r in Hu. exists u. now split.
  - specialize (L "createdAt" _ eq_refl). unfold parse_field in L. simpl in L.
    destruct (get props "createdAt") as [| | | | |[t|]| |]; simpl in L;
      try discriminate L; injection L as <-; eauto.
  - specialize (L "updatedAt" _ eq_refl). unfold parse_field in L. simpl in L.
    destruct (get props "updatedAt") as [| | | | |[t|]| |]; simpl in L;
      try discriminate L; injection L as <-; eauto.
Qed.

Lemma regular_field : forall shape key fieldSchema,
  regular (ZodObject shape) -> In (key, fieldSchema) shape -> regular fieldSchema.
Proof.
  intros shape key fieldSchema (_ & _ & R) Hin.
  apply fold_right_and_Forall in R. rewrite Forall_forall in R.
  apply (R _ Hin).
Qed.

Lemma regular_option : forall options option,
  regular (ZodUnion options) -> In option options -> regular option.
Proof.
  intros options option (_ & R) Hin.
  apply fold_right_and_Forall in R. rewrite Forall_forall in R.
  apply (R _ Hin).
Qed.

Lemma exported_field_regular : forall name schema key fieldSchema,
  In (name, schema) exported_schemas ->
  In (key, fieldSchema) (shape_of schema) ->
  regular fieldSchema.
Proof.
  intros name schema key fieldSchema H Hin.
  pose proof (exported_regular t_Record_createdAt t_Record_copy_createdAt
                t_Message_sentAt t_Notification_sentAt t_Reaction_createdAt
                t_TypingIndicator_startedAt t_FileVersion_createdAt
                t_FileHistory_timestamp t_UserActivity_timestamp
                t_FileComment_createdAt t_EventNotification_createdAt
                t_DownloadRequest_requestedAt t_AuditLog_timestamp
                t_FileMetadata_createdAt t_Quota_lastUpdated t_Comment_createdAt
                t_ContentEditorState_lastEditedAt
                t_ContentPreview_previewGeneratedAt) as R.
  rewrite Forall_forall in R. specialize (R _ H). simpl in R.
  destruct (exported_object name schema H) as (Es & _ & _).
  rewrite Es in R. eapply regular_field; eauto.
Qed.

(** X1.  Against every exported schema, a property that the schema does
    not declare is ignored: adding one to an object, anywhere among its
    properties and with any value, does not change the outcome of
    validation. *)
Theorem unknown_properties_are_ignored : forall name schema,
  In (name, schema) exported_schemas ->
  forall key v p1 p2 now,
    has (shape_of schema) key = false ->
    validate schema now (VObject (p1 ++ (key, v) :: p2))
    = validate schema now (VObject (p1 ++ p2)).
Proof.
  intros name schema H key v p1 p2 now Hk.
  destruct (exported_object name schema H) as (-> & _ & _). simpl shape_of in Hk.
  apply safeParse_object_ext. intros k Hin.
  assert (k <> key).
  { intros ->. apply has_keys in Hin. congruence. }
  split; [now apply get_insert|now apply has_insert].
Qed.

(** X2.  The value that an exported schema returns has no property but
    the declared ones: every key of the validated object is a field of the
    schema. *)
Theorem validated_value_has_declared_keys_only : forall name schema,
  In (name, schema) exported_schemas ->
  forall now props out key,
    validate schema now (VObject props) = SafeParseSuccess out ->
    owns out key = true ->
    has (shape_of schema) key = true.
Proof.
  intros name schema H now props out key E Ho.
  destruct (exported_object name schema H) as (Es & Hnd & Hp).
  apply safeParse_success in E. rewrite Es in E.
  destruct (parse_object_OK isUuid isUrl _ now [] props out Hnd Hp E) as [_ K].
  apply has_keys. now apply K.
Qed.

(** X3.  Against every exported schema, the order in which an object
    lists its properties does not matter: two objects with the same
    properties, no key twice, have the same outcome. *)
Theorem property_order_is_irrelevant : forall name schema,
  In (name, schema) exported_schemas ->
  forall now props props',
    NoDup (keys props) -> Permutation props props' ->
    validate schema now (VObject props) = validate schema now (VObject props').
Proof.
  intros name schema H now props props' Hnd Hperm.
  destruct (exported_object name schema H) as (-> & _ & _).
  apply safeParse_object_ext. intros k _. now apply get_Permutation.
Qed.

(** X4.  Against every exported schema, an object in which a required
    field (one declared without [.optional()] and without [.default()], and
    not as [z.any()]) is absent or [undefined] fails, with an issue naming
    the field. *)
Theorem missing_required_field_is_reported : forall name schema,
  In (name, schema) exported_schemas ->
  forall key fieldSchema now props,
    In (key, fieldSchema) (shape_of schema) ->
    required fieldSchema = true ->
    get props key = VUndefined ->
    exists issues,
      validate schema now (VObject props) = SafeParseError issues
      /\ Exists (names key) issues.
Proof.
  intros name schema H key fieldSchema now props Hin R Hg.
  destruct (exported_rejects_field name schema key fieldSchema now props H Hin)
    as (issues & E & N & _).
  - unfold field_fails, parse_field. rewrite Hg.
    now rewrite required_rejects_undefined.
  - eauto.
Qed.

(** X5.  Against every exported schema, a field declared optional, with
    a default or as [z.any()] may be left out: when validation fails on an
    object in which the field is absent or [undefined], no issue names
    it. *)
Theorem omitted_optional_field_is_no_error : forall name schema,
  In (name, schema) exported_schemas ->
  forall key fieldSchema now props issues,
    In (key, fieldSchema) (shape_of schema) ->
    required fieldSchema = false ->
    get props key = VUndefined ->
    validate schema now (VObject props) = SafeParseError issues ->
    ~ Exists (names key) issues.
Proof.
  intros name schema H key fieldSchema now props issues Hin R Hg E N.
  destruct (exported_object name schema H) as (Es & Hnd & Hp).
  apply safeParse_failure in E. rewrite Es in E. subst issues.
  apply (field_fails_named isUuid isUrl _ now props key fieldSchema Hnd Hin) in N.
  unfold field_fails, parse_field in N. rewrite Hg in N.
  pose proof (exported_field _ exported_omissible name schema key fieldSchema H Hin) as O.
  simpl in O. rewrite (O R) in N. discriminate.
Qed.

(** X6.  Against every exported schema, a field declared with
    [.default(d)] that the input leaves out holds [d] in the validated
    value; for a default written [new Date()] this is the date read when the
    module was loaded. *)
Theorem omitted_field_takes_its_default : forall name schema,
  In (name, schema) exported_schemas ->
  forall key inner defaultValue now props out,
    In (key, ZodDefault inner defaultValue) (shape_of schema) ->
    get props key = VUndefined ->
    validate schema now (VObject props) = SafeParseSuccess out ->
    field out key = defaultValue now.
Proof.
  intros name schema H key inner d now props out Hin Hg E.
  pose proof (exported_accepts_field name schema key _ now props out H Hin E) as F.
  unfold parse_field in F. rewrite Hg in F. simpl in F.
  pose proof (exported_field _ exported_defaults name schema key _ H Hin) as D.
  simpl in D. rewrite (D inner d eq_refl) in F. congruence.
Qed.

(** X7.  A value returned by an entity schema (one declared with
    [RecordSchema.extend]) has the type [Record]: its [id] is a string in
    UUID format, its [createdAt] a valid date, and its [updatedAt] is
    [undefined] or a valid date. *)
Theorem validated_entity_is_a_record : forall name schema,
  In (name, schema) entity_schemas ->
  forall now data out,
    validate schema now data = SafeParseSuccess out ->
    (exists u, field out "id" = VString u /\ isUuid u = true)
    /\ (exists t, field out "createdAt" = VDate (Some t))
    /\ (field out "updatedAt" = VUndefined
        \/ exists t, field out "updatedAt" = VDate (Some t)).
Proof.
  intros name schema H now data out E.
  apply (entity_record_fields name schema now data out H E).
Qed.

(** X8.  A value returned by an entity schema is accepted by the base
    contract [RecordSchema], whenever that was loaded and at any later time,
    and the record it returns has the same [id], [createdAt] and
    [updatedAt]. *)
Theorem validated_entity_passes_the_base_contract : forall name schema,
  In (name, schema) entity_schemas ->
  forall now data out loaded later,
    validate schema now data = SafeParseSuccess out ->
    exists record,
      validate (Record.RecordSchema loaded) later out = SafeParseSuccess record
      /\ forall key, In key ["id"; "createdAt"; "updatedAt"] ->
                     field record key = field out key.
Proof.
  intros name schema H now data out loaded later E.
  destruct (entity_record_fields name schema now data out H E)
    as ([props ->] & (u & Hid & Hu) & (t & Hc) & Hup).
  simpl in Hid, Hc, Hup. unfold safeParse. simpl.
  rewrite Hid, Hc. simpl. rewrite Hu. simpl.
  destruct Hup as [Hup|[t' Hup]]; rewrite Hup; simpl;
    destruct (has props "updatedAt"); simpl;
    eexists; (split; [reflexivity|]);
    intros key [<-|[<-|[<-|[]]]]; simpl; congruence.
Qed.

(** X9.  Against every exported schema, a string field, required or
    optional, whose string fails one of its checks ([.min], [.max], [.uuid],
    [.url]) makes validation fail with the issue of that check, at the path
    of the field and with the message the check was declared with, whatever
    the other checks and fields do. *)
Theorem failed_string_check_is_reported_with_its_message : forall name schema,
  In (name, schema) exported_schemas ->
  forall key fieldSchema checks check now props s,
    In (key, fieldSchema) (shape_of schema) ->
    (fieldSchema = ZodString checks \/ fieldSchema = ZodOptional (ZodString checks)) ->
    In check checks ->
    get props key = VString s ->
    satisfies isUuid isUrl s check = false ->
    exists issues,
      validate schema now (VObject props) = SafeParseError issues
      /\ In (violation check [Key key]) issues.
Proof.
  intros name schema H key fieldSchema checks check now props s Hin Hs Hc Hg L.
  pose proof (run_string_checks_violation isUuid isUrl checks [Key key] s valid check Hc L) as I.
  assert (P : snd (parse_field isUuid isUrl fieldSchema now [] props key)
              = snd (run_string_checks isUuid isUrl checks [Key key] s valid)).
  { unfold parse_field. rewrite Hg.
    destruct Hs as [->| ->]; simpl;
      now destruct (run_string_checks isUuid isUrl checks [Key key] s valid). }
  destruct (exported_rejects_field name schema key _ now props H Hin)
    as (issues & E & _ & Sub).
  - apply field_fails_issues. rewrite P. intros N. rewrite N in I. contradiction.
  - exists issues. split; [exact E|]. apply Sub. now rewrite P.
Qed.

(** X10.  In a value returned by an exported schema, a required string
    field holds a string that passes every check of the field, and an
    optional string field is [undefined] or holds such a string. *)
Theorem accepted_strings_pass_their_checks : forall name schema,
  In (name, schema) exported_schemas ->
  forall key checks now props out,
    validate schema now (VObject props) = SafeParseSuccess out ->
    (In (key, ZodString checks) (shape_of schema) ->
     exists s, field out key = VString s
               /\ forallb (satisfies isUuid isUrl s) checks = true)
    /\ (In (key, ZodOptional (ZodString checks)) (shape_of schema) ->
        field out key = VUndefined
        \/ exists s, field out key = VString s
                     /\ forallb (satisfies isUuid isUrl s) checks = true).
Proof.
  intros name schema H key checks now props out E. split; intros Hin.
  - pose proof (exported_accepts_field name schema key _ now props out H Hin E) as F.
    unfold parse_field in F. apply (parse_string_OK isUuid isUrl _ now) in F.
    destruct F as (s & _ & -> & Hs). eauto.
  - pose proof (exported_accepts_field name schema key _ now props out H Hin E) as F.
    unfold parse_field in F.
    destruct (get props key) eqn:G;
      try (rewrite parse_optional in F by discriminate;
           apply (parse_string_OK isUuid isUrl _ now) in F;
           destruct F as (s' & _ & -> & Hs); right; exists s'; now split).
    left. now injection F as <-.
Qed.

(** X11.  In a value returned by an exported schema, a field of a scalar
    type (string, number, boolean, date, enum, literal or any; optional or
    defaulted) holds the value the input supplied for it, unchanged. *)
Theorem supplied_scalar_value_is_kept : forall name schema,
  In (name, schema) exported_schemas ->
  forall key fieldSchema now props out,
    In (key, fieldSchema) (shape_of schema) ->
    scalar fieldSchema = true ->
    get props key <> VUndefined ->
    validate schema now (VObject props) = SafeParseSuccess out ->
    field out key = get props key.
Proof.
  intros name schema H key fieldSchema now props out Hin Sc Hg E.
  pose proof (exported_accepts_field name schema key _ now props out H Hin E) as F.
  unfold parse_field in F. now apply (scalar_keeps isUuid isUrl _ now) in F.
Qed.

(** X12.  Against every exported schema, an enum field, declared with a
    default or without, holds one of the enumerated strings in the validated
    value; a string that is none of them makes validation fail with an
    [invalid_enum_value] issue at the field, listing the options and the
    string received. *)
Theorem enum_field_takes_a_declared_value : forall name schema,
  In (name, schema) exported_schemas ->
  forall key fieldSchema values now props,
    In (key, fieldSchema) (shape_of schema) ->
    (fieldSchema = ZodEnum values
     \/ exists d, fieldSchema = default (ZodEnum values) d) ->
    (forall out,
       validate schema now (VObject props) = SafeParseSuccess out ->
       exists s, field out key = VString s /\ In s values)
    /\ (forall s,
          get props key = VString s -> ~ In s values ->
          exists issues,
            validate schema now (VObject props) = SafeParseError issues
            /\ In (Issue (invalid_enum_value values s) [Key key] None) issues).
Proof.
  intros name schema H key fieldSchema values now props Hin Hs. split.
  - intros out E.
    pose proof (exported_accepts_field name schema key _ now props out H Hin E) as F.
    unfold parse_field in F.
    destruct Hs as [->|[d ->]].
    + apply (parse_enum_OK isUuid isUrl _ now) in F.
      destruct F as (s & _ & -> & Hv). eauto.
    + unfold default in F.
      destruct (get props key) eqn:G;
        [change (fst (_parse isUuid isUrl (ZodEnum values) now ([] ++ [Key key]) d)
                 = OK (field out key)) in F
        |rewrite parse_default in F by discriminate..];
        apply (parse_enum_OK isUuid isUrl _ now) in F;
        destruct F as (s' & _ & -> & Hv); eauto.
  - intros s Hg Hn.
    assert (P : parse_field isUuid isUrl fieldSchema now [] props key
                = (INVALID, [Issue (invalid_enum_value values s) [Key key] None])).
    { unfold parse_field. rewrite Hg.
      destruct Hs as [->|[d ->]]; simpl;
        destruct (existsb (String.eqb s) values) eqn:E; try reflexivity;
        apply existsb_eqb_true in E; contradiction. }
    destruct (exported_rejects_field name schema key _ now props H Hin)
      as (issues & E & _ & Sub).
    + unfold field_fails. now rewrite P.
    + exists issues. split; [exact E|]. apply Sub. rewrite P. now left.
Qed.

(** X13.  Against every exported schema, a required number field holds
    in the validated value a number that is not NaN and passes every [.min]
    check of the field; a number below a declared minimum makes validation
    fail with a [too_small] issue at the field, with the declared
    message. *)
Theorem number_field_respects_its_minimum : forall name schema,
  In (name, schema) exported_schemas ->
  forall key checks now props,
    In (key, ZodNumber checks) (shape_of schema) ->
    (forall out,
       validate schema now (VObject props) = SafeParseSuccess out ->
       exists x, field out key = VNumber x
                 /\ PrimFloat.is_nan x = false
                 /\ forallb (above x) checks = true)
    /\ (forall x bound inclusive message,
          get props key = VNumber x ->
          PrimFloat.is_nan x = false ->
          In (check_number_min bound inclusive message) checks ->
          above x (check_number_min bound inclusive message) = false ->
          exists issues,
            validate schema now (VObject props) = SafeParseError issues
            /\ In (Issue (too_small (sized_number bound) inclusive false)
                         [Key key] message) issues).
Proof.
  intros name schema H key checks now props Hin. split.
  - intros out E.
    pose proof (exported_accepts_field name schema key _ now props out H Hin E) as F.
    unfold parse_field in F. apply (parse_number_OK isUuid isUrl _ now) in F.
    destruct F as (x & _ & -> & Hx & Hc). eauto.
  - intros x bound inclusive message Hg Hx Hc Ha.
    unfold above in Ha. apply negb_false_iff in Ha.
    pose proof (run_number_checks_min checks [Key key] x valid bound inclusive message Hc Ha) as I.
    assert (P : snd (parse_field isUuid isUrl (ZodNumber checks) now [] props key)
                = snd (run_number_checks checks [Key key] x valid)).
    { unfold parse_field. rewrite Hg. simpl. rewrite Hx.
      now destruct (run_number_checks checks [Key key] x valid). }
    destruct (exported_rejects_field name schema key _ now props H Hin)
      as (issues & E & _ & Sub).
    + apply field_fails_issues. rewrite P. intros N. rewrite N in I. contradiction.
    + exists issues. split; [exact E|]. apply Sub. now rewrite P.
Qed.

(** X14.  Against every exported schema, an array field declared with
    [.min(n, message)] holds at least [n] items in the validated value; an
    array of fewer items makes validation fail with a [too_small] issue at
    the field, with the declared message. *)
Theorem array_field_respects_its_minimum_length : forall name schema,
  In (name, schema) exported_schemas ->
  forall key type n message now props,
    In (key, ZodArray type (Some (n, message))) (shape_of schema) ->
    (forall out,
       validate schema now (VObject props) = SafeParseSuccess out ->
       exists items, field out key = VArray items /\ n <= List.length items)
    /\ (forall items,
          get props key = VArray items ->
          List.length items < n ->
          exists issues,
            validate schema now (VObject props) = SafeParseError issues
            /\ In (Issue (too_small (sized_array n) true false) [Key key] message)
                  issues).
Proof.
  intros name schema H key type n message now props Hin. split.
  - intros out E.
    pose proof (exported_accepts_field name schema key _ now props out H Hin E) as F.
    unfold parse_field in F.
    destruct (get props key) as [| | | | | |items|]; try discriminate F.
    apply parse_array_OK in F. destruct F as (vs & -> & Hl & Hm & _).
    exists vs. split; [reflexivity|]. rewrite Hl. now apply (Hm n message).
  - intros items Hg L.
    destruct (parse_array_short isUuid isUrl type n message now [Key key] items L)
      as [V I].
    destruct (exported_rejects_field name schema key _ now props H Hin)
      as (issues & E & _ & Sub).
    + unfold field_fails, parse_field. rewrite Hg. exact V.
    + exists issues. split; [exact E|]. apply Sub.
      unfold parse_field. rewrite Hg. exact I.
Qed.

(** X15.  Against every exported schema, an item of an array field,
    required or optional, that its item schema rejects makes validation
    fail, with an issue whose path starts with the field and the index of
    the item. *)
Theorem failing_array_item_is_reported_at_its_index : forall name schema,
  In (name, schema) exported_schemas ->
  forall key fieldSchema type minLength now props items i item,
    In (key, fieldSchema) (shape_of schema) ->
    (fieldSchema = ZodArray type minLength
     \/ fieldSchema = ZodOptional (ZodArray type minLength)) ->
    get props key = VArray items ->
    nth_error items i = Some item ->
    isValid (fst (_parse isUuid isUrl type now [Key key; Index i] item)) = false ->
    exists issues,
      validate schema now (VObject props) = SafeParseError issues
      /\ Exists (below [Key key; Index i]) issues.
Proof.
  intros name schema H key fieldSchema type minLength now props items i item
         Hin Hs Hg Hi Hf.
  destruct (parse_array_item isUuid isUrl type minLength now [Key key] items i item Hi Hf)
    as [V I].
  assert (P : parse_field isUuid isUrl fieldSchema now [] props key
              = _parse isUuid isUrl (ZodArray type minLength) now [Key key] (VArray items)).
  { unfold parse_field. rewrite Hg. now destruct Hs as [->| ->]. }
  destruct (exported_rejects_field name schema key _ now props H Hin)
    as (issues & E & _ & Sub).
  - unfold field_fails. rewrite P. exact V.
  - exists issues. split; [exact E|].
    apply Exists_exists in I. destruct I as (x & Hx & Hb).
    apply Exists_exists. exists x. split; [|exact Hb].
    apply Sub. now rewrite P.
Qed.

(** X16.  Against every exported schema, a field declared as a union of
    object schemas tagged by literals of one key holds in the validated
    value an object whose tag is one of the declared literals; an input
    whose tag is none of them makes validation fail with an issue naming the
    field. *)
Theorem union_field_takes_a_declared_variant : forall name schema,
  In (name, schema) exported_schemas ->
  forall key options tagKey tags now props,
    In (key, ZodUnion options) (shape_of schema) ->
    map (tag_of tagKey) options = map Some tags ->
    (forall out,
       validate schema now (VObject props) = SafeParseSuccess out ->
       exists tag, In tag tags /\ field (field out key) tagKey = VString tag)
    /\ ((forall tag, In tag tags -> field (get props key) tagKey <> VString tag) ->
        exists issues,
          validate schema now (VObject props) = SafeParseError issues
          /\ Exists (names key) issues).
Proof.
  intros name schema H key options tagKey tags now props Hin Ht.
  assert (T : forall option, In option options ->
                exists tag shape, In tag tags /\ option = ZodObject shape
                                  /\ In (tagKey, ZodLiteral tag) shape).
  { intros option Ho. apply (in_map (tag_of tagKey)) in Ho. rewrite Ht in Ho.
    apply in_map_iff in Ho. destruct Ho as (tag & Etag & Htag).
    symmetry in Etag. apply tag_of_inv in Etag.
    destruct Etag as (shape & -> & Hl). eauto 6. }
  split.
  - intros out E.
    pose proof (exported_accepts_field name schema key _ now props out H Hin E) as F.
    unfold parse_field in F. simpl in F.
    apply merge_union_OK in F. apply first_valid_OK in F.
    destruct F as (v & issues & [= <-] & Hr).
    apply in_map_iff in Hr. destruct Hr as (option & Er & Ho).
    destruct (T option Ho) as (tag & shape & Htag & -> & Hl).
    pose proof (exported_field_regular name schema key _ H Hin) as R.
    pose proof (regular_option _ _ R Ho) as (Hnd & Hp & _).
    exists tag. split; [exact Htag|].
    apply (tagged_result isUuid isUrl shape tagKey tag now ([] ++ [Key key])
             (get props key)); auto.
    cbn [app]. now rewrite Er.
  - intros Hnone.
    destruct (exported_rejects_field name schema key _ now props H Hin)
      as (issues & E & N & _); [|eauto].
    unfold field_fails, parse_field.
    destruct (fst (_parse isUuid isUrl (ZodUnion options) now ([] ++ [Key key])
                     (get props key))) as [| |v] eqn:F; try reflexivity.
    simpl in F. apply merge_union_OK in F. apply first_valid_OK in F.
    destruct F as (v' & issues & [= <-] & Hr).
    apply in_map_iff in Hr. destruct Hr as (option & Er & Ho).
    destruct (T option Ho) as (tag & shape & Htag & -> & Hl).
    pose proof (tagged_rejects isUuid isUrl shape tagKey tag now ([] ++ [Key key])
                  (get props key) Hl (Hnone tag Htag)) as V.
    cbn [app] in V. rewrite Er in V. discriminate.
Qed.

(** X17.  Against every exported schema, a field declared
    [z.record(z.string(), z.any())] accepts every object: no issue names the
    field when the input holds an object for it, and when validation
    succeeds the object, if it lists no key twice and has no key
    [__proto__], is returned as it was given. *)
Theorem free_form_record_field_is_kept : forall name schema,
  In (name, schema) exported_schemas ->
  forall key now props entries,
    In (key, ZodRecord (ZodString []) ZodAny) (shape_of schema) ->
    get props key = VObject entries ->
    (forall issues,
       validate schema now (VObject props) = SafeParseError issues ->
       ~ Exists (names key) issues)
    /\ (forall out,
          NoDup (keys entries) -> ~ In "__proto__" (keys entries) ->
          validate schema now (VObject props) = SafeParseSuccess out ->
          field out key = VObject entries).
Proof.
  intros name schema H key now props entries Hin Hg. split.
  - intros issues E N.
    destruct (exported_object name schema H) as (Es & Hnd & Hp).
    apply safeParse_failure in E. rewrite Es in E. subst issues.
    apply (field_fails_named isUuid isUrl _ now props key _ Hnd Hin) in N.
    unfold field_fails, parse_field in N. rewrite Hg, parse_free_record in N.
    discriminate.
  - intros out Hnd Hp E.
    pose proof (exported_accepts_field name schema key _ now props out H Hin E) as F.
    unfold parse_field in F. rewrite Hg, parse_free_record_keeps in F by assumption.
    simpl in F. congruence.
Qed.

(** X18.  Every element of a diagram accepted by [DiagramSchema] has
    for [coordinates] an array of exactly two numbers, neither of them
    NaN. *)
Theorem diagram_element_has_two_coordinates : forall t now props out items i element,
  validate (Learning.DiagramSchema t) now (VObject props) = SafeParseSuccess out ->
  get props "elements" = VArray items ->
  nth_error items i = Some element ->
  exists x y,
    field element "coordinates" = VArray [VNumber x; VNumber y]
    /\ PrimFloat.is_nan x = false /\ PrimFloat.is_nan y = false.
Proof.
  intros t now props out items i element E Hg Hi.
  eapply (object_accepts_field isUuid isUrl _ now props out "elements") in E;
    [|reflexivity|reflexivity|simpl; tauto].
  unfold parse_field in E. rewrite Hg in E.
  apply parse_array_OK in E. destruct E as (vs & _ & _ & _ & Hitems).
  destruct (Hitems i element Hi) as (v & _ & Hv).
  eapply (nested_object_field isUuid isUrl _ now _ element v "coordinates") in Hv;
    [|reflexivity|reflexivity|simpl; tauto].
  destruct Hv as (e & -> & Hc).
  apply parse_number_pair_OK in Hc.
  destruct Hc as (x & y & Hc & _ & Nx & Ny). exists x, y. auto.
Qed.

(** X19.  A file accepted by [FileSchema] was given an object for
    [accessManagement]; in the validated value its [accessType] is one of
    [public], [private] and [restricted], and it is [private] when the
    input left it out. *)
Theorem file_access_defaults_to_private : forall t now props out,
  validate (Files.FileSchema t) now (VObject props) = SafeParseSuccess out ->
  exists access,
    get props "accessManagement" = VObject access
    /\ (exists s, field (field out "accessManagement") "accessType" = VString s
                  /\ In s ["public"; "private"; "restricted"])
    /\ (get access "accessType" = VUndefined ->
        field (field out "accessManagement") "accessType" = VString "private").
Proof.
  intros t now props out E.
  eapply (object_accepts_field isUuid isUrl _ now props out "accessManagement") in E;
    [|reflexivity|reflexivity|simpl; tauto].
  unfold parse_field in E.
  eapply (nested_object_field isUuid isUrl _ now _ _ _ "accessType") in E;
    [|reflexivity|reflexivity|simpl; tauto].
  destruct E as (access & Hg & Ha). exists access. split; [exact Hg|].
  unfold default in Ha. split.
  - destruct (get access "accessType") eqn:G;
      [change (fst (_parse isUuid isUrl (ZodEnum ["public"; "private"; "restricted"])
                      now (([] ++ [Key "accessManagement"]) ++ [Key "accessType"])
                      (VString "private"))
               = OK (field (field out "accessManagement") "accessType")) in Ha
      |rewrite parse_default in Ha by discriminate..];
      apply (parse_enum_OK isUuid isUrl _ now) in Ha;
      destruct Ha as (s' & _ & -> & Hv); eauto.
  - intros G. rewrite G in Ha. simpl in Ha. congruence.
Qed.

(** X20.  An object is accepted by an exported schema exactly when no
    declared field fails on it: the schemas have no rule that spans several
    fields. *)
Theorem accepted_exactly_when_every_field_is_valid : forall name schema,
  In (name, schema) exported_schemas ->
  forall now props,
    (exists out, validate schema now (VObject props) = SafeParseSuccess out)
    <-> (forall key fieldSchema,
           In (key, fieldSchema) (shape_of schema) ->
           ~ field_fails isUuid isUrl fieldSchema now props key).
Proof.
  intros name schema H now props. split.
  - intros [out E] key fieldSchema Hin Hf.
    pose proof (exported_accepts_field name schema key _ now props out H Hin E) as F.
    unfold field_fails in Hf. rewrite F in Hf. discriminate.
  - intros Hall.
    destruct (exported_object name schema H) as (Es & Hnd & Hp).
    destruct (parse_object_accepts isUuid isUrl (shape_of schema) now [] props Hnd Hp)
      as [out E].
    + intros key fieldSchema Hin. specialize (Hall key fieldSchema Hin).
      unfold field_fails in Hall.
      now destruct (isValid (fst (parse_field isUuid isUrl fieldSchema now [] props key))).
    + exists out. rewrite Es. unfold safeParse. now rewrite E.
Qed.

(** X21.  Every exported schema rejects an input that is not an object
    ([undefined], [null], a boolean, a number, a string, a date, an array)
    with one [invalid_type] issue at the empty path, expecting an object and
    telling the type received. *)
Theorem non_object_is_rejected_at_the_root : forall name schema,
  In (name, schema) exported_schemas ->
  forall now data,
    (forall props, data <> VObject props) ->
    validate schema now data
    = SafeParseError
        [Issue (invalid_type (ExpectedType ZodParsedType.object) (getParsedType data))
               [] None].
Proof.
  intros name schema H now data Hd.
  destruct (exported_object name schema H) as (-> & _ & _).
  destruct data; try reflexivity. now contradiction (Hd props).
Qed.

(** X22.  In a value returned by an exported schema, every required
    field is a key of the value, and an optional field is a key of the value
    exactly when it was a key of the input. *)
Theorem validated_value_has_the_required_keys : forall name schema,
  In (name, schema) exported_schemas ->
  forall key fieldSchema now props out,
    In (key, fieldSchema) (shape_of schema) ->
    validate schema now (VObject props) = SafeParseSuccess out ->
    (required fieldSchema = true -> owns out key = true)
    /\ (forall inner, fieldSchema = ZodOptional inner ->
          owns out key = has props key).
Proof.
  intros name schema H key fieldSchema now props out Hin E.
  pose proof (exported_accepts_field name schema key _ now props out H Hin E) as F.
  destruct (exported_object name schema H) as (Es & Hnd & Hp).
  apply safeParse_success in E. rewrite Es in E.
  rewrite (parse_object_owns isUuid isUrl _ now [] props out key fieldSchema Hnd Hp E Hin).
  unfold kept, parse_field in *. split.
  - intros R. destruct (field out key) eqn:Fo; try reflexivity.
    pose proof (parse_undefined isUuid isUrl _ _ _ _ F) as U.
    rewrite U, (required_rejects_undefined isUuid isUrl _ now _ R) in F.
    discriminate.
  - intros inner ->.
    destruct (has props key) eqn:Hh; [apply orb_true_r|].
    rewrite (get_absent _ _ Hh) in F. simpl in F. injection F as <-. reflexivity.
Qed.

(** X23.  Against every exported schema, a date field (required,
    optional or defaulted) that holds an invalid [Date] makes validation fail
    with an [invalid_date] issue at the field. *)
Theorem invalid_date_is_reported : forall name schema,
  In (name, schema) exported_schemas ->
  forall key fieldSchema now props,
    In (key, fieldSchema) (shape_of schema) ->
    (fieldSchema = ZodDate \/ fieldSchema = ZodOptional ZodDate
     \/ exists d, fieldSchema = ZodDefault ZodDate d) ->
    get props key = VDate None ->
    exists issues,
      validate schema now (VObject props) = SafeParseError issues
      /\ In (Issue invalid_date [Key key] None) issues.
Proof.
  intros name schema H key fieldSchema now props Hin Hs Hg.
  assert (P : parse_field isUuid isUrl fieldSchema now [] props key
              = (INVALID, [Issue invalid_date [Key key] None])).
  { unfold parse_field. rewrite Hg. now destruct Hs as [->|[->|[d ->]]]. }
  destruct (exported_rejects_field name schema key _ now props H Hin)
    as (issues & E & _ & Sub).
  - unfold field_fails. now rewrite P.
  - exists issues. split; [exact E|]. apply Sub. rewrite P. now left.
Qed.

(** X24.  The value returned by an exported schema lists its properties
    in the order the schema declares them, whatever the order of the input:
    its keys are the declared keys that it has, in declaration order. *)
Theorem validated_properties_follow_the_declaration : forall name schema,
  In (name, schema) exported_schemas ->
  forall now props out,
    validate schema now (VObject props) = SafeParseSuccess out ->
    exists o,
      out = VObject o
      /\ keys o = filter (owns out) (keys (shape_of schema)).
Proof.
  intros name schema H now props out E.
  destruct (exported_object name schema H) as (Es & Hnd & Hp).
  apply safeParse_success in E. rewrite Es in E.
  assert (O : exists o, out = VObject o).
  { simpl in E. now apply mergeObjectSync_object in E. }
  destruct O as [o ->]. exists o. split; [reflexivity|].
  now apply (parse_object_keys isUuid isUrl _ now [] props).
Qed.

End SchemaProperties.

(** * Instances of the schema properties *)

(** Each property above that has a hypothesis, at a schema of the repository
    loaded with its [new Date()] sites read at the instants 1 to 18, the
    formats [uuid_format] and [url_format], and a sample input. *)

Lemma unknown_properties_are_ignored_witness :
  In ("TagSchema", Productivity.TagSchema 1%Z) (all_exported 1%Z 2%Z 3%Z 4%Z 5%Z 6%Z 7%Z 8%Z 9%Z 10%Z 11%Z 12%Z 13%Z 14%Z 15%Z 16%Z 17%Z 18%Z)
  /\ has (shape_of (Productivity.TagSchema 1%Z)) "color" = false
  /\ safeParse uuid_format url_format (Productivity.TagSchema 1%Z) 2000%Z
       (VObject ([("id", VString sample_uuid)] ++ ("color", VString "red") :: [("name", VString "urgent")]))
     = safeParse uuid_format url_format (Productivity.TagSchema 1%Z) 2000%Z
         (VObject ([("id", VString sample_uuid)] ++ [("name", VString "urgent")])).
Proof.
  assert (H : In ("TagSchema", Productivity.TagSchema 1%Z) (all_exported 1%Z 2%Z 3%Z 4%Z 5%Z 6%Z 7%Z 8%Z 9%Z 10%Z 11%Z 12%Z 13%Z 14%Z 15%Z 16%Z 17%Z 18%Z)) by (simpl; tauto).
  split; [exact H|].
  split; [reflexivity|].
  exact (unknown_properties_are_ignored uuid_format url_format 1%Z 2%Z 3%Z 4%Z 5%Z 6%Z 7%Z 8%Z 9%Z 10%Z 11%Z 12%Z 13%Z 14%Z 15%Z 16%Z 17%Z 18%Z "TagSchema" _ H
           "color" (VString "red") [("id", VString sample_uuid)] [("name", VString "urgent")]
           2000%Z eq_refl).
Defined.

Lemma validated_value_has_declared_keys_only_witness :
  In ("TagSchema", Productivity.TagSchema 1%Z) (all_exported 1%Z 2%Z 3%Z 4%Z 5%Z 6%Z 7%Z 8%Z 9%Z 10%Z 11%Z 12%Z 13%Z 14%Z 15%Z 16%Z 17%Z 18%Z)
  /\ safeParse uuid_format url_format (Productivity.TagSchema 1%Z) 2000%Z (VObject sample_tag) = SafeParseSuccess (VObject sample_tag_out)
  /\ owns (VObject sample_tag_out) "name" = true
  /\ has (shape_of (Productivity.TagSchema 1%Z)) "name" = true.
Proof.
  assert (H : In ("TagSchema", Productivity.TagSchema 1%Z) (all_exported 1%Z 2%Z 3%Z 4%Z 5%Z 6%Z 7%Z 8%Z 9%Z 10%Z 11%Z 12%Z 13%Z 14%Z 15%Z 16%Z 17%Z 18%Z)) by (simpl; tauto).
  split; [exact H|].
  split; [reflexivity|]. split; [reflexivity|].
  exact (validated_value_has_declared_keys_only uuid_format url_format 1%Z 2%Z 3%Z 4%Z 5%Z 6%Z 7%Z 8%Z 9%Z 10%Z 11%Z 12%Z 13%Z 14%Z 15%Z 16%Z 17%Z 18%Z "TagSchema" _ H
           2000%Z sample_tag (VObject sample_tag_out) "name" eq_refl eq_refl).
Defined.

Lemma property_order_is_irrelevant_witness :
  In ("TagSchema", Productivity.TagSchema 1%Z) (all_exported 1%Z 2%Z 3%Z 4%Z 5%Z 6%Z 7%Z 8%Z 9%Z 10%Z 11%Z 12%Z 13%Z 14%Z 15%Z 16%Z 17%Z 18%Z)
  /\ NoDup (keys [("id", VString sample_uuid); ("name", VString "urgent")])
  /\ Permutation [("id", VString sample_uuid); ("name", VString "urgent")]
                 [("name", VString "urgent"); ("id", VString sample_uuid)]
  /\ safeParse uuid_format url_format (Productivity.TagSchema 1%Z) 2000%Z (VObject [("id", VString sample_uuid); ("name", VString "urgent")])
     = safeParse uuid_format url_format (Productivity.TagSchema 1%Z) 2000%Z (VObject [("name", VString "urgent"); ("id", VString sample_uuid)]).
Proof.
  assert (H : In ("TagSchema", Productivity.TagSchema 1%Z) (all_exported 1%Z 2%Z 3%Z 4%Z 5%Z 6%Z 7%Z 8%Z 9%Z 10%Z 11%Z 12%Z 13%Z 14%Z 15%Z 16%Z 17%Z 18%Z)) by (simpl; tauto).
  split; [exact H|].
  assert (N : NoDup (keys [("id", VString sample_uuid); ("name", VString "urgent")]))
    by (apply distinct_NoDup; reflexivity).
  assert (P : Permutation [("id", VString sample_uuid); ("name", VString "urgent")]
                          [("name", VString "urgent"); ("id", VString sample_uuid)])
    by apply perm_swap.
  split; [exact N|]. split; [exact P|].
  exact (property_order_is_irrelevant uuid_format url_format 1%Z 2%Z 3%Z 4%Z 5%Z 6%Z 7%Z 8%Z 9%Z 10%Z 11%Z 12%Z 13%Z 14%Z 15%Z 16%Z 17%Z 18%Z "TagSchema" _ H 2000%Z _ _ N P).
Defined.

Lemma missing_required_field_is_reported_witness :
  In ("TaskSchema", Productivity.TaskSchema 1%Z) (all_exported 1%Z 2%Z 3%Z 4%Z 5%Z 6%Z 7%Z 8%Z 9%Z 10%Z 11%Z 12%Z 13%Z 14%Z 15%Z 16%Z 17%Z 18%Z)
  /\ In ("title", ZodString [check_min 1 (Some "Task title is required.")]) (shape_of (Productivity.TaskSchema 1%Z))
  /\ required (ZodString [check_min 1 (Some "Task title is required.")]) = true
  /\ get [("id", VString sample_uuid); ("status", VString "to-do")] "title" = VUndefined
  /\ exists issues,
       safeParse uuid_format url_format (Productivity.TaskSchema 1%Z) 2000%Z (VObject [("id", VString sample_uuid); ("status", VString "to-do")])
       = SafeParseError issues
       /\ Exists (names "title") issues.
Proof.
  assert (H : In ("TaskSchema", Productivity.TaskSchema 1%Z) (all_exported 1%Z 2%Z 3%Z 4%Z 5%Z 6%Z 7%Z 8%Z 9%Z 10%Z 11%Z 12%Z 13%Z 14%Z 15%Z 16%Z 17%Z 18%Z)) by (simpl; tauto).
  split; [exact H|].
  assert (F : In ("title", ZodString [check_min 1 (Some "Task title is required.")]) (shape_of (Productivity.TaskSchema 1%Z))) by (simpl; tauto).
  split; [exact F|]. split; [reflexivity|]. split; [reflexivity|].
  exact (missing_required_field_is_reported uuid_format url_format 1%Z 2%Z 3%Z 4%Z 5%Z 6%Z 7%Z 8%Z 9%Z 10%Z 11%Z 12%Z 13%Z 14%Z 15%Z 16%Z 17%Z 18%Z "TaskSchema" _ H
           "title" _ 2000%Z [("id", VString sample_uuid); ("status", VString "to-do")]
           F eq_refl eq_refl).
Defined.

Lemma omitted_optional_field_is_no_error_witness :
  In ("TaskSchema", Productivity.TaskSchema 1%Z) (all_exported 1%Z 2%Z 3%Z 4%Z 5%Z 6%Z 7%Z 8%Z 9%Z 10%Z 11%Z 12%Z 13%Z 14%Z 15%Z 16%Z 17%Z 18%Z)
  /\ In ("description", ZodOptional (ZodString [])) (shape_of (Productivity.TaskSchema 1%Z))
  /\ required (ZodOptional (ZodString [])) = false
  /\ get failing_task "description" = VUndefined
  /\ safeParse uuid_format url_format (Productivity.TaskSchema 1%Z) 2000%Z (VObject failing_task) = SafeParseError failing_task_issues
  /\ ~ Exists (names "description") failing_task_issues.
Proof.
  assert (H : In ("TaskSchema", Productivity.TaskSchema 1%Z) (all_exported 1%Z 2%Z 3%Z 4%Z 5%Z 6%Z 7%Z 8%Z 9%Z 10%Z 11%Z 12%Z 13%Z 14%Z 15%Z 16%Z 17%Z 18%Z)) by (simpl; tauto).
  split; [exact H|].
  assert (F : In ("description", ZodOptional (ZodString [])) (shape_of (Productivity.TaskSchema 1%Z)))
    by (simpl; tauto).
  split; [exact F|]. split; [reflexivity|]. split; [reflexivity|].
  split; [reflexivity|].
  exact (omitted_optional_field_is_no_error uuid_format url_format 1%Z 2%Z 3%Z 4%Z 5%Z 6%Z 7%Z 8%Z 9%Z 10%Z 11%Z 12%Z 13%Z 14%Z 15%Z 16%Z 17%Z 18%Z "TaskSchema" _ H
           "description" _ 2000%Z failing_task failing_task_issues
           F eq_refl eq_refl eq_refl).
Defined.

Lemma omitted_field_takes_its_default_witness :
  In ("MessageSchema", Messaging.MessageSchema 2%Z 3%Z) (all_exported 1%Z 2%Z 3%Z 4%Z 5%Z 6%Z 7%Z 8%Z 9%Z 10%Z 11%Z 12%Z 13%Z 14%Z 15%Z 16%Z 17%Z 18%Z)
  /\ In ("sentAt", ZodDefault ZodDate (fun _ => new_Date 3%Z)) (shape_of (Messaging.MessageSchema 2%Z 3%Z))
  /\ get sample_message "sentAt" = VUndefined
  /\ safeParse uuid_format url_format (Messaging.MessageSchema 2%Z 3%Z) 2000%Z (VObject sample_message)
     = SafeParseSuccess (VObject sample_message_out)
  /\ field (VObject sample_message_out) "sentAt" = new_Date 3%Z.
Proof.
  assert (H : In ("MessageSchema", Messaging.MessageSchema 2%Z 3%Z) (all_exported 1%Z 2%Z 3%Z 4%Z 5%Z 6%Z 7%Z 8%Z 9%Z 10%Z 11%Z 12%Z 13%Z 14%Z 15%Z 16%Z 17%Z 18%Z)) by (simpl; tauto).
  split; [exact H|].
  assert (F : In ("sentAt", ZodDefault ZodDate (fun _ => new_Date 3%Z))
                 (shape_of (Messaging.MessageSchema 2%Z 3%Z))) by (simpl; tauto).
  split; [exact F|]. split; [reflexivity|]. split; [reflexivity|].
  exact (omitted_field_takes_its_default uuid_format url_format 1%Z 2%Z 3%Z 4%Z 5%Z 6%Z 7%Z 8%Z 9%Z 10%Z 11%Z 12%Z 13%Z 14%Z 15%Z 16%Z 17%Z 18%Z "MessageSchema" _ H
           "sentAt" ZodDate (fun _ => new_Date 3%Z) 2000%Z sample_message
           (VObject sample_message_out) F eq_refl eq_refl).
Defined.

Lemma validated_entity_is_a_record_witness :
  In ("TagSchema", Productivity.TagSchema 1%Z) (all_entities 1%Z 2%Z 3%Z 4%Z 5%Z 6%Z 7%Z 8%Z 9%Z 10%Z 11%Z 12%Z 13%Z 14%Z 15%Z 16%Z 17%Z 18%Z)
  /\ safeParse uuid_format url_format (Productivity.TagSchema 1%Z) 2000%Z (VObject sample_tag) = SafeParseSuccess (VObject sample_tag_out)
  /\ (exists u, field (VObject sample_tag_out) "id" = VString u /\ uuid_format u = true)
  /\ (exists t, field (VObject sample_tag_out) "createdAt" = VDate (Some t))
  /\ (field (VObject sample_tag_out) "updatedAt" = VUndefined
      \/ exists t, field (VObject sample_tag_out) "updatedAt" = VDate (Some t)).
Proof.
  assert (H : In ("TagSchema", Productivity.TagSchema 1%Z) (all_entities 1%Z 2%Z 3%Z 4%Z 5%Z 6%Z 7%Z 8%Z 9%Z 10%Z 11%Z 12%Z 13%Z 14%Z 15%Z 16%Z 17%Z 18%Z)) by (simpl; tauto).
  split; [exact H|].
  split; [reflexivity|].
  exact (validated_entity_is_a_record uuid_format url_format 1%Z 2%Z 3%Z 4%Z 5%Z 6%Z 7%Z 8%Z 9%Z 10%Z 11%Z 12%Z 13%Z 14%Z 15%Z 16%Z 17%Z 18%Z "TagSchema" _ H
           2000%Z (VObject sample_tag) (VObject sample_tag_out) eq_refl).
Defined.

Lemma validated_entity_passes_the_base_contract_witness :
  In ("TagSchema", Productivity.TagSchema 1%Z) (all_entities 1%Z 2%Z 3%Z 4%Z 5%Z 6%Z 7%Z 8%Z 9%Z 10%Z 11%Z 12%Z 13%Z 14%Z 15%Z 16%Z 17%Z 18%Z)
  /\ safeParse uuid_format url_format (Productivity.TagSchema 1%Z) 2000%Z (VObject sample_tag) = SafeParseSuccess (VObject sample_tag_out)
  /\ exists record,
       safeParse uuid_format url_format (Record.RecordSchema 7%Z) 3000%Z (VObject sample_tag_out)
       = SafeParseSuccess record
       /\ forall key, In key ["id"; "createdAt"; "updatedAt"] ->
                      field record key = field (VObject sample_tag_out) key.
Proof.
  assert (H : In ("TagSchema", Productivity.TagSchema 1%Z) (all_entities 1%Z 2%Z 3%Z 4%Z 5%Z 6%Z 7%Z 8%Z 9%Z 10%Z 11%Z 12%Z 13%Z 14%Z 15%Z 16%Z 17%Z 18%Z)) by (simpl; tauto).
  split; [exact H|].
  split; [reflexivity|].
  exact (validated_entity_passes_the_base_contract uuid_format url_format 1%Z 2%Z 3%Z 4%Z 5%Z 6%Z 7%Z 8%Z 9%Z 10%Z 11%Z 12%Z 13%Z 14%Z 15%Z 16%Z 17%Z 18%Z "TagSchema" _ H
           2000%Z (VObject sample_tag) (VObject sample_tag_out) 7%Z 3000%Z eq_refl).
Defined.

Lemma failed_string_check_is_reported_with_its_message_witness :
  In ("TaskSchema", Productivity.TaskSchema 1%Z) (all_exported 1%Z 2%Z 3%Z 4%Z 5%Z 6%Z 7%Z 8%Z 9%Z 10%Z 11%Z 12%Z 13%Z 14%Z 15%Z 16%Z 17%Z 18%Z)
  /\ In ("title", ZodString [check_min 1 (Some "Task title is required.")]) (shape_of (Productivity.TaskSchema 1%Z))
  /\ In (check_min 1 (Some "Task title is required.")) [check_min 1 (Some "Task title is required.")]
  /\ get failing_task "title" = VString ""
  /\ satisfies uuid_format url_format "" (check_min 1 (Some "Task title is required.")) = false
  /\ exists issues,
       safeParse uuid_format url_format (Productivity.TaskSchema 1%Z) 2000%Z (VObject failing_task) = SafeParseError issues
       /\ In (Issue (too_small (sized_string 1) true false) [Key "title"]
                    (Some "Task title is required.")) issues.
Proof.
  assert (H : In ("TaskSchema", Productivity.TaskSchema 1%Z) (all_exported 1%Z 2%Z 3%Z 4%Z 5%Z 6%Z 7%Z 8%Z 9%Z 10%Z 11%Z 12%Z 13%Z 14%Z 15%Z 16%Z 17%Z 18%Z)) by (simpl; tauto).
  split; [exact H|].
  assert (F : In ("title", ZodString [check_min 1 (Some "Task title is required.")]) (shape_of (Productivity.TaskSchema 1%Z))) by (simpl; tauto).
  assert (C : In (check_min 1 (Some "Task title is required.")) [check_min 1 (Some "Task title is required.")]) by (simpl; tauto).
  split; [exact F|]. split; [exact C|]. split; [reflexivity|]. split; [reflexivity|].
  exact (failed_string_check_is_reported_with_its_message uuid_format url_format 1%Z 2%Z 3%Z 4%Z 5%Z 6%Z 7%Z 8%Z 9%Z 10%Z 11%Z 12%Z 13%Z 14%Z 15%Z 16%Z 17%Z 18%Z "TaskSchema" _ H
           "title" _ [check_min 1 (Some "Task title is required.")] (check_min 1 (Some "Task title is required.")) 2000%Z failing_task ""
           F (or_introl eq_refl) C eq_refl eq_refl).
Defined.

Lemma accepted_strings_pass_their_checks_witness :
  In ("TagSchema", Productivity.TagSchema 1%Z) (all_exported 1%Z 2%Z 3%Z 4%Z 5%Z 6%Z 7%Z 8%Z 9%Z 10%Z 11%Z 12%Z 13%Z 14%Z 15%Z 16%Z 17%Z 18%Z)
  /\ safeParse uuid_format url_format (Productivity.TagSchema 1%Z) 2000%Z (VObject sample_tag) = SafeParseSuccess (VObject sample_tag_out)
  /\ In ("name", ZodString [check_min 1 (Some "Tag name is required.")]) (shape_of (Productivity.TagSchema 1%Z))
  /\ exists s, field (VObject sample_tag_out) "name" = VString s
               /\ forallb (satisfies uuid_format url_format s)
                          [check_min 1 (Some "Tag name is required.")] = true.
Proof.
  assert (H : In ("TagSchema", Productivity.TagSchema 1%Z) (all_exported 1%Z 2%Z 3%Z 4%Z 5%Z 6%Z 7%Z 8%Z 9%Z 10%Z 11%Z 12%Z 13%Z 14%Z 15%Z 16%Z 17%Z 18%Z)) by (simpl; tauto).
  split; [exact H|].
  assert (F : In ("name", ZodString [check_min 1 (Some "Tag name is required.")]) (shape_of (Productivity.TagSchema 1%Z))) by (simpl; tauto).
  split; [reflexivity|]. split; [exact F|].
  exact (proj1 (accepted_strings_pass_their_checks uuid_format url_format 1%Z 2%Z 3%Z 4%Z 5%Z 6%Z 7%Z 8%Z 9%Z 10%Z 11%Z 12%Z 13%Z 14%Z 15%Z 16%Z 17%Z 18%Z "TagSchema" _ H
                  "name" [check_min 1 (Some "Tag name is required.")] 2000%Z
                  sample_tag (VObject sample_tag_out) eq_refl) F).
Defined.

Lemma supplied_scalar_value_is_kept_witness :
  In ("TagSchema", Productivity.TagSchema 1%Z) (all_exported 1%Z 2%Z 3%Z 4%Z 5%Z 6%Z 7%Z 8%Z 9%Z 10%Z 11%Z 12%Z 13%Z 14%Z 15%Z 16%Z 17%Z 18%Z)
  /\ In ("name", ZodString [check_min 1 (Some "Tag name is required.")]) (shape_of (Productivity.TagSchema 1%Z))
  /\ scalar (ZodString [check_min 1 (Some "Tag name is required.")]) = true
  /\ get sample_tag "name" <> VUndefined
  /\ safeParse uuid_format url_format (Productivity.TagSchema 1%Z) 2000%Z (VObject sample_tag) = SafeParseSuccess (VObject sample_tag_out)
  /\ field (VObject sample_tag_out) "name" = get sample_tag "name".
Proof.
  assert (H : In ("TagSchema", Productivity.TagSchema 1%Z) (all_exported 1%Z 2%Z 3%Z 4%Z 5%Z 6%Z 7%Z 8%Z 9%Z 10%Z 11%Z 12%Z 13%Z 14%Z 15%Z 16%Z 17%Z 18%Z)) by (simpl; tauto).
  split; [exact H|].
  assert (F : In ("name", ZodString [check_min 1 (Some "Tag name is required.")]) (shape_of (Productivity.TagSchema 1%Z))) by (simpl; tauto).
  assert (D : get sample_tag "name" <> VUndefined) by (simpl; discriminate).
  split; [exact F|]. split; [reflexivity|]. split; [exact D|]. split; [reflexivity|].
  exact (supplied_scalar_value_is_kept uuid_format url_format 1%Z 2%Z 3%Z 4%Z 5%Z 6%Z 7%Z 8%Z 9%Z 10%Z 11%Z 12%Z 13%Z 14%Z 15%Z 16%Z 17%Z 18%Z "TagSchema" _ H
           "name" _ 2000%Z sample_tag (VObject sample_tag_out) F eq_refl D eq_refl).
Defined.

Lemma enum_field_takes_a_declared_value_witness :
  In ("TaskSchema", Productivity.TaskSchema 1%Z) (all_exported 1%Z 2%Z 3%Z 4%Z 5%Z 6%Z 7%Z 8%Z 9%Z 10%Z 11%Z 12%Z 13%Z 14%Z 15%Z 16%Z 17%Z 18%Z)
  /\ In ("priority", default (ZodEnum ["low"; "medium"; "high"]) (VString "medium")) (shape_of (Productivity.TaskSchema 1%Z))
  /\ safeParse uuid_format url_format (Productivity.TaskSchema 1%Z) 2000%Z (VObject sample_task) = SafeParseSuccess (VObject sample_task_out)
  /\ exists s, field (VObject sample_task_out) "priority" = VString s
               /\ In s ["low"; "medium"; "high"].
Proof.
  assert (H : In ("TaskSchema", Productivity.TaskSchema 1%Z) (all_exported 1%Z 2%Z 3%Z 4%Z 5%Z 6%Z 7%Z 8%Z 9%Z 10%Z 11%Z 12%Z 13%Z 14%Z 15%Z 16%Z 17%Z 18%Z)) by (simpl; tauto).
  split; [exact H|].
  assert (F : In ("priority", default (ZodEnum ["low"; "medium"; "high"]) (VString "medium")) (shape_of (Productivity.TaskSchema 1%Z))) by (simpl; tauto).
  split; [exact F|]. split; [reflexivity|].
  exact (proj1 (enum_field_takes_a_declared_value uuid_format url_format 1%Z 2%Z 3%Z 4%Z 5%Z 6%Z 7%Z 8%Z 9%Z 10%Z 11%Z 12%Z 13%Z 14%Z 15%Z 16%Z 17%Z 18%Z "TaskSchema" _ H
                  "priority" _ ["low"; "medium"; "high"] 2000%Z sample_task F
                  (or_intror (ex_intro _ (VString "medium") eq_refl)))
               (VObject sample_task_out) eq_refl).
Defined.

Lemma number_field_respects_its_minimum_witness :
  In ("TimeLogSchema", Productivity.TimeLogSchema 1%Z) (all_exported 1%Z 2%Z 3%Z 4%Z 5%Z 6%Z 7%Z 8%Z 9%Z 10%Z 11%Z 12%Z 13%Z 14%Z 15%Z 16%Z 17%Z 18%Z)
  /\ In ("duration", ZodNumber [check_number_min 1%float true (Some "Duration must be at least 1 minute.")]) (shape_of (Productivity.TimeLogSchema 1%Z))
  /\ PrimFloat.is_nan 0%float = false
  /\ above 0%float (check_number_min 1%float true (Some "Duration must be at least 1 minute.")) = false
  /\ exists issues,
       safeParse uuid_format url_format (Productivity.TimeLogSchema 1%Z) 2000%Z (VObject [("duration", VNumber 0%float)]) = SafeParseError issues
       /\ In (Issue (too_small (sized_number 1%float) true false) [Key "duration"]
                    (Some "Duration must be at least 1 minute.")) issues.
Proof.
  assert (H : In ("TimeLogSchema", Productivity.TimeLogSchema 1%Z) (all_exported 1%Z 2%Z 3%Z 4%Z 5%Z 6%Z 7%Z 8%Z 9%Z 10%Z 11%Z 12%Z 13%Z 14%Z 15%Z 16%Z 17%Z 18%Z)) by (simpl; tauto).
  split; [exact H|].
  assert (F : In ("duration", ZodNumber [check_number_min 1%float true (Some "Duration must be at least 1 minute.")]) (shape_of (Productivity.TimeLogSchema 1%Z))) by (simpl; tauto).
  split; [exact F|]. split; [reflexivity|]. split; [reflexivity|].
  exact (proj2 (number_field_respects_its_minimum uuid_format url_format 1%Z 2%Z 3%Z 4%Z 5%Z 6%Z 7%Z 8%Z 9%Z 10%Z 11%Z 12%Z 13%Z 14%Z 15%Z 16%Z 17%Z 18%Z "TimeLogSchema" _ H
                  "duration" _ 2000%Z [("duration", VNumber 0%float)] F)
               0%float 1%float true (Some "Duration must be at least 1 minute.")
               eq_refl eq_refl (or_introl eq_refl) eq_refl).
Defined.

Lemma array_field_respects_its_minimum_length_witness :
  In ("ConversationSchema", Messaging.ConversationSchema 2%Z) (all_exported 1%Z 2%Z 3%Z 4%Z 5%Z 6%Z 7%Z 8%Z 9%Z 10%Z 11%Z 12%Z 13%Z 14%Z 15%Z 16%Z 17%Z 18%Z)
  /\ In ("participants", ZodArray (ZodString [check_uuid None]) (Some (2%nat, None))) (shape_of (Messaging.ConversationSchema 2%Z))
  /\ List.length [VString sample_uuid] < 2
  /\ exists issues,
       safeParse uuid_format url_format (Messaging.ConversationSchema 2%Z) 2000%Z (VObject [("participants", VArray [VString sample_uuid])])
       = SafeParseError issues
       /\ In (Issue (too_small (sized_array 2) true false) [Key "participants"] None)
             issues.
Proof.
  assert (H : In ("ConversationSchema", Messaging.ConversationSchema 2%Z) (all_exported 1%Z 2%Z 3%Z 4%Z 5%Z 6%Z 7%Z 8%Z 9%Z 10%Z 11%Z 12%Z 13%Z 14%Z 15%Z 16%Z 17%Z 18%Z)) by (simpl; tauto).
  split; [exact H|].
  assert (F : In ("participants", ZodArray (ZodString [check_uuid None]) (Some (2%nat, None))) (shape_of (Messaging.ConversationSchema 2%Z))) by (simpl; tauto).
  assert (L : List.length [VString sample_uuid] < 2) by (simpl; lia).
  split; [exact F|]. split; [exact L|].
  exact (proj2 (array_field_respects_its_minimum_length uuid_format url_format 1%Z 2%Z 3%Z 4%Z 5%Z 6%Z 7%Z 8%Z 9%Z 10%Z 11%Z 12%Z 13%Z 14%Z 15%Z 16%Z 17%Z 18%Z "ConversationSchema" _ H
                  "participants" _ 2 None 2000%Z
                  [("participants", VArray [VString sample_uuid])] F)
               [VString sample_uuid] eq_refl L).
Defined.

Lemma failing_array_item_is_reported_at_its_index_witness :
  In ("TaskSchema", Productivity.TaskSchema 1%Z) (all_exported 1%Z 2%Z 3%Z 4%Z 5%Z 6%Z 7%Z 8%Z 9%Z 10%Z 11%Z 12%Z 13%Z 14%Z 15%Z 16%Z 17%Z 18%Z)
  /\ In ("reminders", ZodOptional (ZodArray Productivity.ReminderSchema None)) (shape_of (Productivity.TaskSchema 1%Z))
  /\ isValid (fst (_parse uuid_format url_format Productivity.ReminderSchema 2000%Z
                     [Key "reminders"; Index 1]
                     (VObject [("message", VString "call")]))) = false
  /\ exists issues,
       safeParse uuid_format url_format (Productivity.TaskSchema 1%Z) 2000%Z (VObject sample_reminders) = SafeParseError issues
       /\ Exists (below [Key "reminders"; Index 1]) issues.
Proof.
  assert (H : In ("TaskSchema", Productivity.TaskSchema 1%Z) (all_exported 1%Z 2%Z 3%Z 4%Z 5%Z 6%Z 7%Z 8%Z 9%Z 10%Z 11%Z 12%Z 13%Z 14%Z 15%Z 16%Z 17%Z 18%Z)) by (simpl; tauto).
  split; [exact H|].
  assert (F : In ("reminders", ZodOptional (ZodArray Productivity.ReminderSchema None)) (shape_of (Productivity.TaskSchema 1%Z))) by (simpl; tauto).
  split; [exact F|]. split; [reflexivity|].
  exact (failing_array_item_is_reported_at_its_index uuid_format url_format 1%Z 2%Z 3%Z 4%Z 5%Z 6%Z 7%Z 8%Z 9%Z 10%Z 11%Z 12%Z 13%Z 14%Z 15%Z 16%Z 17%Z 18%Z "TaskSchema" _ H
           "reminders" _ Productivity.ReminderSchema None 2000%Z sample_reminders
           [VObject [("reminderDate", new_Date 5000%Z)];
            VObject [("message", VString "call")]]
           1 (VObject [("message", VString "call")])
           F (or_intror eq_refl) eq_refl eq_refl eq_refl).
Defined.

Lemma union_field_takes_a_declared_variant_witness :
  In ("CheatsheetSectionSchema", Learning.CheatsheetSectionSchema) (all_exported 1%Z 2%Z 3%Z 4%Z 5%Z 6%Z 7%Z 8%Z 9%Z 10%Z 11%Z 12%Z 13%Z 14%Z 15%Z 16%Z 17%Z 18%Z)
  /\ In ("content", ZodUnion cheatsheet_contents) (shape_of Learning.CheatsheetSectionSchema)
  /\ map (tag_of "type") cheatsheet_contents
     = map Some ["text"; "list"; "formula"; "table"]
  /\ safeParse uuid_format url_format Learning.CheatsheetSectionSchema 2000%Z (VObject sample_section) = SafeParseSuccess (VObject sample_section)
  /\ exists tag, In tag ["text"; "list"; "formula"; "table"]
                 /\ field (field (VObject sample_section) "content") "type" = VString tag.
Proof.
  assert (H : In ("CheatsheetSectionSchema", Learning.CheatsheetSectionSchema) (all_exported 1%Z 2%Z 3%Z 4%Z 5%Z 6%Z 7%Z 8%Z 9%Z 10%Z 11%Z 12%Z 13%Z 14%Z 15%Z 16%Z 17%Z 18%Z)) by (simpl; tauto).
  split; [exact H|].
  assert (F : In ("content", ZodUnion cheatsheet_contents) (shape_of Learning.CheatsheetSectionSchema))
    by (simpl; tauto).
  split; [exact F|]. split; [reflexivity|]. split; [reflexivity|].
  exact (proj1 (union_field_takes_a_declared_variant uuid_format url_format 1%Z 2%Z 3%Z 4%Z 5%Z 6%Z 7%Z 8%Z 9%Z 10%Z 11%Z 12%Z 13%Z 14%Z 15%Z 16%Z 17%Z 18%Z "CheatsheetSectionSchema" _ H
                  "content" cheatsheet_contents "type"
                  ["text"; "list"; "formula"; "table"] 2000%Z sample_section
                  F eq_refl)
               (VObject sample_section) eq_refl).
Defined.

Lemma free_form_record_field_is_kept_witness :
  In ("FileMetadataSchema", Files.FileMetadataSchema 2%Z 14%Z) (all_exported 1%Z 2%Z 3%Z 4%Z 5%Z 6%Z 7%Z 8%Z 9%Z 10%Z 11%Z 12%Z 13%Z 14%Z 15%Z 16%Z 17%Z 18%Z)
  /\ In ("metadata", ZodRecord (ZodString []) ZodAny) (shape_of (Files.FileMetadataSchema 2%Z 14%Z))
  /\ NoDup (keys sample_metadata)
  /\ ~ In "__proto__" (keys sample_metadata)
  /\ safeParse uuid_format url_format (Files.FileMetadataSchema 2%Z 14%Z) 2000%Z
       (VObject [("id", VString sample_uuid); ("fileId", VString sample_uuid); ("metadata", VObject sample_metadata)])
     = SafeParseSuccess
         (VObject [("id", VString sample_uuid); ("createdAt", new_Date 14%Z); ("fileId", VString sample_uuid);
                   ("metadata", VObject sample_metadata)])
  /\ field (VObject [("id", VString sample_uuid); ("createdAt", new_Date 14%Z); ("fileId", VString sample_uuid);
                     ("metadata", VObject sample_metadata)]) "metadata"
     = VObject sample_metadata.
Proof.
  assert (H : In ("FileMetadataSchema", Files.FileMetadataSchema 2%Z 14%Z) (all_exported 1%Z 2%Z 3%Z 4%Z 5%Z 6%Z 7%Z 8%Z 9%Z 10%Z 11%Z 12%Z 13%Z 14%Z 15%Z 16%Z 17%Z 18%Z)) by (simpl; tauto).
  split; [exact H|].
  assert (F : In ("metadata", ZodRecord (ZodString []) ZodAny) (shape_of (Files.FileMetadataSchema 2%Z 14%Z)))
    by (simpl; tauto).
  assert (N : NoDup (keys sample_metadata)) by (apply distinct_NoDup; reflexivity).
  assert (P : ~ In "__proto__" (keys sample_metadata))
    by (apply existsb_eqb_In; reflexivity).
  split; [exact F|]. split; [exact N|]. split; [exact P|]. split; [reflexivity|].
  exact (proj2 (free_form_record_field_is_kept uuid_format url_format 1%Z 2%Z 3%Z 4%Z 5%Z 6%Z 7%Z 8%Z 9%Z 10%Z 11%Z 12%Z 13%Z 14%Z 15%Z 16%Z 17%Z 18%Z "FileMetadataSchema" _ H
                  "metadata" 2000%Z
                  [("id", VString sample_uuid); ("fileId", VString sample_uuid); ("metadata", VObject sample_metadata)]
                  sample_metadata F eq_refl)
               _ N P eq_refl).
Defined.

Lemma diagram_element_has_two_coordinates_witness :
  safeParse uuid_format url_format (Learning.DiagramSchema 2%Z) 2000%Z (VObject sample_diagram)
  = SafeParseSuccess (VObject sample_diagram_out)
  /\ get sample_diagram "elements" = VArray [VObject sample_element]
  /\ exists x y,
       field (VObject sample_element) "coordinates" = VArray [VNumber x; VNumber y]
       /\ PrimFloat.is_nan x = false /\ PrimFloat.is_nan y = false.
Proof.
  split; [reflexivity|]. split; [reflexivity|].
  exact (diagram_element_has_two_coordinates uuid_format url_format 2%Z 2000%Z
           sample_diagram (VObject sample_diagram_out) [VObject sample_element] 0
           (VObject sample_element) eq_refl eq_refl eq_refl).
Defined.

Lemma file_access_defaults_to_private_witness :
  safeParse uuid_format url_format (Files.FileSchema 2%Z) 2000%Z (VObject sample_file)
  = SafeParseSuccess (VObject sample_file_out)
  /\ exists access,
       get sample_file "accessManagement" = VObject access
       /\ (exists s,
             field (field (VObject sample_file_out) "accessManagement") "accessType"
             = VString s
             /\ In s ["public"; "private"; "restricted"])
       /\ (get access "accessType" = VUndefined ->
           field (field (VObject sample_file_out) "accessManagement") "accessType"
           = VString "private").
Proof.
  split; [reflexivity|].
  exact (file_access_defaults_to_private uuid_format url_format 2%Z 2000%Z
           sample_file (VObject sample_file_out) eq_refl).
Defined.

Lemma accepted_exactly_when_every_field_is_valid_witness :
  In ("TagSchema", Productivity.TagSchema 1%Z) (all_exported 1%Z 2%Z 3%Z 4%Z 5%Z 6%Z 7%Z 8%Z 9%Z 10%Z 11%Z 12%Z 13%Z 14%Z 15%Z 16%Z 17%Z 18%Z)
  /\ ((exists out, safeParse uuid_format url_format (Productivity.TagSchema 1%Z) 2000%Z (VObject sample_tag) = SafeParseSuccess out)
      <-> (forall key fieldSchema,
             In (key, fieldSchema) (shape_of (Productivity.TagSchema 1%Z)) ->
             ~ field_fails uuid_format url_format fieldSchema 2000%Z sample_tag key)).
Proof.
  assert (H : In ("TagSchema", Productivity.TagSchema 1%Z) (all_exported 1%Z 2%Z 3%Z 4%Z 5%Z 6%Z 7%Z 8%Z 9%Z 10%Z 11%Z 12%Z 13%Z 14%Z 15%Z 16%Z 17%Z 18%Z)) by (simpl; tauto).
  split; [exact H|].
  exact (accepted_exactly_when_every_field_is_valid uuid_format url_format 1%Z 2%Z 3%Z 4%Z 5%Z 6%Z 7%Z 8%Z 9%Z 10%Z 11%Z 12%Z 13%Z 14%Z 15%Z 16%Z 17%Z 18%Z "TagSchema" _ H
           2000%Z sample_tag).
Defined.

Lemma non_object_is_rejected_at_the_root_witness :
  In ("TagSchema", Productivity.TagSchema 1%Z) (all_exported 1%Z 2%Z 3%Z 4%Z 5%Z 6%Z 7%Z 8%Z 9%Z 10%Z 11%Z 12%Z 13%Z 14%Z 15%Z 16%Z 17%Z 18%Z)
  /\ (forall props, VNull <> VObject props)
  /\ safeParse uuid_format url_format (Productivity.TagSchema 1%Z) 2000%Z VNull
     = SafeParseError
         [Issue (invalid_type (ExpectedType ZodParsedType.object) ZodParsedType.null)
                [] None].
Proof.
  assert (H : In ("TagSchema", Productivity.TagSchema 1%Z) (all_exported 1%Z 2%Z 3%Z 4%Z 5%Z 6%Z 7%Z 8%Z 9%Z 10%Z 11%Z 12%Z 13%Z 14%Z 15%Z 16%Z 17%Z 18%Z)) by (simpl; tauto).
  split; [exact H|].
  assert (D : forall props, VNull <> VObject props) by (intros props; discriminate).
  split; [exact D|].
  exact (non_object_is_rejected_at_the_root uuid_format url_format 1%Z 2%Z 3%Z 4%Z 5%Z 6%Z 7%Z 8%Z 9%Z 10%Z 11%Z 12%Z 13%Z 14%Z 15%Z 16%Z 17%Z 18%Z "TagSchema" _ H 2000%Z VNull D).
Defined.

Lemma validated_value_has_the_required_keys_witness :
  In ("TagSchema", Productivity.TagSchema 1%Z) (all_exported 1%Z 2%Z 3%Z 4%Z 5%Z 6%Z 7%Z 8%Z 9%Z 10%Z 11%Z 12%Z 13%Z 14%Z 15%Z 16%Z 17%Z 18%Z)
  /\ In ("name", ZodString [check_min 1 (Some "Tag name is required.")]) (shape_of (Productivity.TagSchema 1%Z))
  /\ safeParse uuid_format url_format (Productivity.TagSchema 1%Z) 2000%Z (VObject sample_tag) = SafeParseSuccess (VObject sample_tag_out)
  /\ required (ZodString [check_min 1 (Some "Tag name is required.")]) = true
  /\ owns (VObject sample_tag_out) "name" = true.
Proof.
  assert (H : In ("TagSchema", Productivity.TagSchema 1%Z) (all_exported 1%Z 2%Z 3%Z 4%Z 5%Z 6%Z 7%Z 8%Z 9%Z 10%Z 11%Z 12%Z 13%Z 14%Z 15%Z 16%Z 17%Z 18%Z)) by (simpl; tauto).
  split; [exact H|].
  assert (F : In ("name", ZodString [check_min 1 (Some "Tag name is required.")]) (shape_of (Productivity.TagSchema 1%Z))) by (simpl; tauto).
  split; [exact F|]. split; [reflexivity|]. split; [reflexivity|].
  exact (proj1 (validated_value_has_the_required_keys uuid_format url_format 1%Z 2%Z 3%Z 4%Z 5%Z 6%Z 7%Z 8%Z 9%Z 10%Z 11%Z 12%Z 13%Z 14%Z 15%Z 16%Z 17%Z 18%Z "TagSchema" _ H
                  "name" _ 2000%Z sample_tag (VObject sample_tag_out) F eq_refl)
               eq_refl).
Defined.

Lemma invalid_date_is_reported_witness :
  In ("TaskSchema", Productivity.TaskSchema 1%Z) (all_exported 1%Z 2%Z 3%Z 4%Z 5%Z 6%Z 7%Z 8%Z 9%Z 10%Z 11%Z 12%Z 13%Z 14%Z 15%Z 16%Z 17%Z 18%Z)
  /\ In ("dueDate", ZodOptional ZodDate) (shape_of (Productivity.TaskSchema 1%Z))
  /\ get [("dueDate", VDate None)] "dueDate" = VDate None
  /\ exists issues,
       safeParse uuid_format url_format (Productivity.TaskSchema 1%Z) 2000%Z (VObject [("dueDate", VDate None)]) = SafeParseError issues
       /\ In (Issue invalid_date [Key "dueDate"] None) issues.
Proof.
  assert (H : In ("TaskSchema", Productivity.TaskSchema 1%Z) (all_exported 1%Z 2%Z 3%Z 4%Z 5%Z 6%Z 7%Z 8%Z 9%Z 10%Z 11%Z 12%Z 13%Z 14%Z 15%Z 16%Z 17%Z 18%Z)) by (simpl; tauto).
  split; [exact H|].
  assert (F : In ("dueDate", ZodOptional ZodDate) (shape_of (Productivity.TaskSchema 1%Z)))
    by (simpl; tauto).
  split; [exact F|]. split; [reflexivity|].
  exact (invalid_date_is_reported uuid_format url_format 1%Z 2%Z 3%Z 4%Z 5%Z 6%Z 7%Z 8%Z 9%Z 10%Z 11%Z 12%Z 13%Z 14%Z 15%Z 16%Z 17%Z 18%Z "TaskSchema" _ H
           "dueDate" _ 2000%Z [("dueDate", VDate None)] F
           (or_intror (or_introl eq_refl)) eq_refl).
Defined.

Lemma validated_properties_follow_the_declaration_witness :
  In ("TagSchema", Productivity.TagSchema 1%Z) (all_exported 1%Z 2%Z 3%Z 4%Z 5%Z 6%Z 7%Z 8%Z 9%Z 10%Z 11%Z 12%Z 13%Z 14%Z 15%Z 16%Z 17%Z 18%Z)
  /\ safeParse uuid_format url_format (Productivity.TagSchema 1%Z) 2000%Z (VObject [("name", VString "urgent"); ("id", VString sample_uuid)])
     = SafeParseSuccess (VObject sample_tag_out)
  /\ exists o,
       VObject sample_tag_out = VObject o
       /\ keys o = filter (owns (VObject sample_tag_out)) (keys (shape_of (Productivity.TagSchema 1%Z))).
Proof.
  assert (H : In ("TagSchema", Productivity.TagSchema 1%Z) (all_exported 1%Z 2%Z 3%Z 4%Z 5%Z 6%Z 7%Z 8%Z 9%Z 10%Z 11%Z 12%Z 13%Z 14%Z 15%Z 16%Z 17%Z 18%Z)) by (simpl; tauto).
  split; [exact H|].
  split; [reflexivity|].
  exact (validated_properties_follow_the_declaration uuid_format url_format 1%Z 2%Z 3%Z 4%Z 5%Z 6%Z 7%Z 8%Z 9%Z 10%Z 11%Z 12%Z 13%Z 14%Z 15%Z 16%Z 17%Z 18%Z "TagSchema" _ H
           2000%Z [("name", VString "urgent"); ("id", VString sample_uuid)]
           (VObject sample_tag_out) eq_refl).
Defined.
